(** * crypto-dashboard: collector, resolution loop and entity mutation engine

    A shallow embedding of the TypeScript sources of the ingestion core
    (packages/shared, packages/collector, packages/ai-agent) and the
    properties of its specification.

    Conventions of the embedding:
    - a TypeScript string-literal union ('low' | 'medium' | ...) is a
      [string]: the code compares such values with [===] against literals
      and never validates them, so the model keeps the run-time view;
    - the numbers of the properties (scores, counters, priorities,
      millisecond timestamps) are integers, in [Z];
    - an optional property ([x?: T]) is an [option];
    - a DynamoDB table is a finite map from the key to the item;
    - a function that can throw returns a [Result]. *)

From Stdlib Require Import ZArith QArith Lia List Permutation Sorted Ascii String.
From stdpp Require Import base option gmap strings list fin_maps.

Local Open Scope string_scope.
Local Open Scope Z_scope.

(** ** Exceptions *)

Inductive JsError :=
| TypeError (message : string)
| RangeError (message : string)
| Error (message : string).

Inductive Result (A : Type) :=
| Ok (a : A)
| Throw (e : JsError).
Arguments Ok {A} a.
Arguments Throw {A} e.

#[global] Instance Result_ret : MRet Result := fun A a => Ok a.
#[global] Instance Result_bind : MBind Result := fun A B k r =>
  match r with
  | Ok a => k a
  | Throw e => Throw e
  end.

Definition isOk {A} (r : Result A) : bool :=
  match r with Ok _ => true | Throw _ => false end.

Definition errorMessage (e : JsError) : string :=
  match e with TypeError m | RangeError m | Error m => m end.

(** ** packages/shared: project types and utilities *)

Module Shared.

Record RiskFlag := {
  risk_type : string;
  severity : string;
  risk_description : string;
  risk_detectedAt : string;
  risk_source : option string;
}.

Record OpportunityFlag := {
  opp_type : string;
  importance : string;
  opp_description : string;
  opp_detectedAt : string;
  opp_source : option string;
}.

Record ProjectEvent := {
  evt_id : string;
  evt_date : string;
  evt_title : string;
  evt_description : string;
  evt_source : string;
  evt_sourceUrl : option string;
  evt_sentiment : string;
  evt_eventType : string;
}.

(** [determineProjectStatus] (shared/src/utils).  [Array.prototype.some]
    is [existsb]. *)
Definition determineProjectStatus (healthScore : Z)
    (riskFlags : list RiskFlag) (opportunityFlags : list OpportunityFlag)
  : string :=
  let hasCriticalRisk := existsb (fun f => String.eqb (severity f) "critical") riskFlags in
  if hasCriticalRisk then "danger" else
  let hasHighRisk := existsb (fun f => String.eqb (severity f) "high") riskFlags in
  if hasHighRisk || (healthScore <? 30) then "danger" else
  let hasMediumRisk := existsb (fun f => String.eqb (severity f) "medium") riskFlags in
  if hasMediumRisk || (healthScore <? 50) then "warning" else
  let hasHighOpportunity := existsb (fun f => String.eqb (importance f) "high") opportunityFlags in
  if hasHighOpportunity || (healthScore >=? 80) then "watch" else
  "normal".

(** [generateProjectInfoId]: the template literal [`${source}:${sourceId}`]. *)
Definition generateProjectInfoId (source sourceId : string) : string :=
  source +:+ ":" +:+ sourceId.

(** [ToInt32] of ECMAScript: the 32-bit two's-complement reading of an
    integer. *)
Definition toInt32 (z : Z) : Z :=
  let m := z mod 2 ^ 32 in
  if m <? 2 ^ 31 then m else m - 2 ^ 32.

(** The digits of [Number.prototype.toString(36)]. *)
Definition digit36 (d : Z) : ascii :=
  if d <? 10 then ascii_of_nat (Z.to_nat (48 + d))
  else ascii_of_nat (Z.to_nat (97 + (d - 10))).

Fixpoint toString36_aux (fuel : nat) (n : Z) (acc : string) : string :=
  match fuel with
  | O => acc
  | S fuel' =>
      let acc' := String (digit36 (n mod 36)) acc in
      if n / 36 =? 0 then acc' else toString36_aux fuel' (n / 36) acc'
  end.

(** [n.toString(36)] for an integer [0 <= n <= 2^31]: seven base-36 digits
    suffice. *)
Definition toString36 (n : Z) : string := toString36_aux 7 n "".

(** [content.charCodeAt(i)] for [i = 0 .. length - 1].  A string of the
    model is a sequence of code units below 256. *)
Definition charCodes (content : string) : list Z :=
  map (fun c => Z.of_nat (nat_of_ascii c)) (list_ascii_of_string content).

(** One iteration of the loop of [generateContentHash]:
    [hash = ((hash << 5) - hash) + char; hash = hash & hash]. *)
Definition hashStep (hash char : Z) : Z :=
  let hash1 := (toInt32 (Z.shiftl hash 5) - hash) + char in
  toInt32 (Z.land hash1 hash1).

Definition generateContentHash (content : string) : string :=
  let hash := fold_left hashStep (charCodes content) 0 in
  toString36 (Z.abs hash).

End Shared.

(** ** JavaScript values

    The records fetched from upstream feeds and the field mappings that
    read them are untyped JSON.  [JsValue] is the JSON fragment of the
    JavaScript values plus [undefined]; the conversions below follow
    ECMA-262 on that fragment.  Property names of an object are distinct,
    and a property access reads own properties only: members inherited
    from [Object.prototype] and [Array.prototype] are not part of the
    model. *)

Module Js.

(** What the model needs from the engine's numbers, strings and dates. *)
Class JsEngine := {
  num : Type;
  numOfZ : Z -> num;
  NaN : num;
  (** [n] is [+0], [-0] or [NaN] *)
  numFalsy : num -> bool;
  (** [Number::toString] *)
  NumberToString : num -> string;
  (** [StringToNumber], the conversion of [Number(s)] *)
  StringToNumber : string -> num;
  toLowerCase : string -> string;
  toUpperCase : string -> string;
  (** [Date.parse(s)]: the epoch milliseconds, [None] for [NaN] *)
  DateParse : string -> option Z;
  (** [new Date(t).toISOString()] for a time value [t] *)
  toISOString : Z -> string;
}.

Section Values.
Context `{JsEngine}.

#[local] Unset Elimination Schemes.
Inductive JsValue :=
| JUndefined
| JNull
| JBool (b : bool)
| JNum (n : num)
| JStr (s : string)
| JArr (elems : list JsValue)
| JObj (props : list (string * JsValue)).
#[local] Set Elimination Schemes.

(** [ToBoolean] *)
Definition truthy (v : JsValue) : bool :=
  match v with
  | JUndefined | JNull => false
  | JBool b => b
  | JNum n => negb (numFalsy n)
  | JStr s => negb (String.eqb s "")
  | JArr _ | JObj _ => true
  end.

(** [a || b] *)
Definition or_else (a b : JsValue) : JsValue := if truthy a then a else b.

(** Own property of an object literal; [None] when there is none. *)
Fixpoint ownProperty (props : list (string * JsValue)) (key : string)
  : option JsValue :=
  match props with
  | [] => None
  | (k, v) :: rest => if String.eqb k key then Some v else ownProperty rest key
  end.

(** [obj.key] on an object literal *)
Definition getProp (props : list (string * JsValue)) (key : string) : JsValue :=
  default JUndefined (ownProperty props key).

(** [obj[key] = v] *)
Fixpoint setProp (props : list (string * JsValue)) (key : string) (v : JsValue)
  : list (string * JsValue) :=
  match props with
  | [] => [(key, v)]
  | (k, w) :: rest =>
      if String.eqb k key then (k, v) :: rest else (k, w) :: setProp rest key v
  end.

(** [String(v)].  An array is joined with commas, [undefined] and [null]
    elements giving the empty string.  An object literal without an own
    [toString] inherits [Object.prototype.toString]; one with an own
    [toString] (data, hence not callable) cannot be converted to a
    primitive, and the conversion throws. *)
Fixpoint ToString (v : JsValue) : Result string :=
  match v with
  | JUndefined => Ok "undefined"
  | JNull => Ok "null"
  | JBool true => Ok "true"
  | JBool false => Ok "false"
  | JNum n => Ok (NumberToString n)
  | JStr s => Ok s
  | JArr elems =>
      (fix join (l : list JsValue) : Result string :=
         match l with
         | [] => Ok ""
         | x :: rest =>
             let first :=
               match x with
               | JUndefined | JNull => Ok ""
               | _ => ToString x
               end in
             match rest with
             | [] => first
             | _ :: _ => s ← first; r ← join rest; Ok (s +:+ "," +:+ r)
             end
         end) elems
  | JObj props =>
      match ownProperty props "toString" with
      | Some _ => Throw (TypeError "Cannot convert object to primitive value")
      | None => Ok "[object Object]"
      end
  end.

(** [Number(v)].  For an array or an object literal [valueOf] returns the
    object itself, so the conversion goes through [toString]. *)
Definition ToNumber (v : JsValue) : Result num :=
  match v with
  | JUndefined => Ok NaN
  | JNull => Ok (numOfZ 0)
  | JBool true => Ok (numOfZ 1)
  | JBool false => Ok (numOfZ 0)
  | JNum n => Ok n
  | JStr s => Ok (StringToNumber s)
  | JArr _ | JObj _ => s ← ToString v; Ok (StringToNumber s)
  end.

(** [new Date(s).toISOString()]: an unparsable text gives an invalid date,
    on which [toISOString] throws. *)
Definition DateToISOString (s : string) : Result string :=
  match DateParse s with
  | Some t => Ok (toISOString t)
  | None => Throw (RangeError "Invalid time value")
  end.

(** [Array.isArray] *)
Definition isArray (v : JsValue) : bool :=
  match v with JArr _ => true | _ => false end.

(** [typeof v === 'object'] *)
Definition typeof_object (v : JsValue) : bool :=
  match v with JNull | JArr _ | JObj _ => true | _ => false end.

Definition isDigit (c : ascii) : bool :=
  (48 <=? nat_of_ascii c)%nat && (nat_of_ascii c <=? 57)%nat.

Fixpoint digitsValue (l : list ascii) (acc : nat) : option nat :=
  match l with
  | [] => Some acc
  | c :: rest =>
      if isDigit c then digitsValue rest (10 * acc + (nat_of_ascii c - 48))%nat
      else None
  end.

(** An array index: a canonical decimal numeral ("0", "7", "12", not "07"). *)
Definition arrayIndex (key : string) : option nat :=
  match list_ascii_of_string key with
  | [] => None
  | [c] => digitsValue [c] 0
  | c :: rest => if Ascii.eqb c "0" then None else digitsValue (c :: rest) 0
  end.

(** [current[part]] when [typeof current === 'object'] and [current] is
    not [null]. *)
Definition member (current : JsValue) (part : string) : JsValue :=
  match current with
  | JObj props => getProp props part
  | JArr elems =>
      if String.eqb part "length" then JNum (numOfZ (Z.of_nat (length elems)))
      else match arrayIndex part with
           | Some i => default JUndefined (elems !! i)
           | None => JUndefined
           end
  | _ => JUndefined
  end.

End Values.

(** [path.split('.')]: the segments between the dots; always at least
    one. *)
Fixpoint split_dots (path : string) : list string :=
  match path with
  | EmptyString => [""]
  | String c rest =>
      if Ascii.eqb c "." then "" :: split_dots rest
      else match split_dots rest with
           | [] => [String c ""]
           | seg :: segs => String c seg :: segs
           end
  end.

End Js.

(** ** packages/shared: source configuration and information records *)

Module Types.
Import Js.

Section WithEngine.
Context `{JsEngine}.

(** [FieldMappingRule]; an absent [default] is [JUndefined]. *)
Record FieldMappingRule := {
  rule_source : string;
  transform : option string;
  rule_default : JsValue;
}.

(** An entry of a [FieldMapping]: [string | FieldMappingRule]. *)
Inductive MappingEntry :=
| SimplePath (path : string)
| ComplexRule (rule : FieldMappingRule).

(** [FieldMapping], as the list [Object.entries(mapping)] iterates. *)
Definition FieldMapping : Type := list (string * MappingEntry).

Record RestApiEndpoint := {
  path : string;
  method : string;
  mapping : FieldMapping;
  limit : option nat;
}.

Record RestApiConfig := {
  baseUrl : string;
  endpoints : list RestApiEndpoint;
  requestDelay : option Z;
}.

Record RssConfig := {
  url : string;
  maxItems : option nat;
  userAgent : option string;
  language : option string;
}.

(** [CollectorConfig], discriminated by its [type] tag. *)
Inductive CollectorConfig :=
| RestApi (config : RestApiConfig)
| Rss (config : RssConfig)
| OtherConfig (type : string).

Record CollectionStats := {
  totalCollected : Z;
  successCount : Z;
  failedCount : Z;
  lastItemCount : Z;
}.

(** [SourceConfig].  A timestamp written with [new Date().toISOString()]
    is kept as its epoch milliseconds, which is what [shouldCollect] reads
    back with [getTime()]. *)
Record SourceConfig := {
  sc_id : string;
  sc_type : string;
  sourceId : string;
  sc_name : string;
  enabled : bool;
  enabledStr : string;
  collectorType : string;
  config : CollectorConfig;
  intervalMinutes : Z;
  priority : Z;
  lastCollectedAt : option Z;
  lastCollectStatus : option string;
  lastCollectError : option string;
  stats : option CollectionStats;
  createdAt : Z;
  updatedAt : Z;
}.

Record ProjectInfo := {
  pi_id : string;
  pi_source : string;
  pi_sourceId : string;
  pi_rawData : JsValue;
  pi_name : string;
  pi_logo : option string;
  pi_website : option string;
  pi_description : option string;
  pi_sourceCategory : option string;
  pi_twitter : option string;
  pi_tokenSymbol : option string;
  pi_collectedAt : string;
  pi_processedStatus : string;
  dataHash : option string;
}.

Record MarketInfo := {
  mi_id : string;
  mi_source : string;
  mi_rawData : JsValue;
  mi_title : string;
  mi_content : string;
  mi_url : option string;
  mi_publishedAt : string;
  mi_author : option string;
  mi_tags : option (list string);
  mi_language : option string;
  mi_collectedAt : string;
  mi_processedStatus : string;
  contentHash : option string;
  mi_ttl : option Z;
  mi_publishedDate : option string;
}.

(** An element of [CollectorResult.items]: [ProjectInfo | MarketInfo]. *)
Inductive Item :=
| ProjectInfoItem (info : ProjectInfo)
| MarketInfoItem (info : MarketInfo).

(** [item.id] and [item.dataHash], whichever the shape of the item. *)
Definition itemId (item : Item) : string :=
  match item with
  | ProjectInfoItem info => pi_id info
  | MarketInfoItem info => mi_id info
  end.

Definition itemDataHash (item : Item) : option string :=
  match item with
  | ProjectInfoItem info => dataHash info
  | MarketInfoItem _ => None
  end.

Record CollectorStats := {
  totalFetched : Z;
  savedCount : Z;
  skippedCount : Z;
}.

Record CollectorResult := {
  success : bool;
  items : list Item;
  cr_error : option string;
  result_stats : CollectorStats;
}.

End WithEngine.
End Types.

(** ** The outside world of a collection run *)

Module Outside.
Import Js.

Section WithEngine.
Context `{JsEngine}.

(** The outcome of one [fetch(url, { method, headers })]. *)
Inductive HttpOutcome :=
| NetworkFailure (e : JsError)
| HttpResponse (status : Z) (statusText : string)
    (text : string) (json : Result JsValue).

(** [net k] is the outcome of the [k]-th HTTP request of the run,
    [random k] the value of the [k]-th call of [Math.random()], and
    [clock k] the epoch milliseconds at the [k]-th reading of the clock.
    A [World] counts how many of each have happened. *)
Record Env := {
  net : nat -> HttpOutcome;
  random : nat -> num;
  clock : nat -> Z;
}.

Record World := {
  requests : nat;
  draws : nat;
  ticks : nat;
}.

(** [response.ok] *)
Definition response_ok (status : Z) : bool := (200 <=? status) && (status <=? 299).

End WithEngine.
End Outside.

(** ** packages/collector: the REST collector (collectors/rest-api.ts) *)

Module RestApiCollector.
Import Js Types Outside.

Section WithEngine.
Context `{JsEngine}.

(** [JSON.stringify] on the records of a response. *)
Variable JSON_stringify : JsValue -> string.

(** [getNestedValue]: one iteration of the loop over [parts] at a time. *)
Fixpoint getNestedValue_loop (current : JsValue) (parts : list string) : JsValue :=
  match parts with
  | [] => current
  | part :: rest =>
      match current with
      | JNull | JUndefined => JUndefined
      | _ =>
          if typeof_object current
          then getNestedValue_loop (member current part) rest
          else JUndefined
      end
  end.

Definition getNestedValue (obj : JsValue) (path : string) : JsValue :=
  getNestedValue_loop obj (split_dots path).

Definition transformValue (value : JsValue) (transform : string) : Result JsValue :=
  if String.eqb transform "string" then
    s ← ToString value; Ok (JStr s)
  else if String.eqb transform "number" then
    n ← ToNumber value; Ok (JNum n)
  else if String.eqb transform "date" then
    s ← ToString value; iso ← DateToISOString s; Ok (JStr iso)
  else if String.eqb transform "array" then
    Ok (if isArray value then value else JArr [value])
  else if String.eqb transform "lowercase" then
    s ← ToString value; Ok (JStr (toLowerCase s))
  else if String.eqb transform "uppercase" then
    s ← ToString value; Ok (JStr (toUpperCase s))
  else Ok value.

(** [value !== undefined] *)
Definition isDefined (v : JsValue) : bool :=
  match v with JUndefined => false | _ => true end.

(** The value [applyMapping] computes for one entry of the mapping. *)
Definition applyRule (data : JsValue) (entry : MappingEntry) : Result JsValue :=
  match entry with
  | SimplePath path => Ok (getNestedValue data path)
  | ComplexRule mappingRule =>
      let value := getNestedValue data (rule_source mappingRule) in
      let value :=
        if negb (isDefined value) && isDefined (rule_default mappingRule)
        then rule_default mappingRule else value in
      match transform mappingRule with
      | Some t =>
          if isDefined value && negb (String.eqb t "")
          then transformValue value t
          else Ok value
      | None => Ok value
      end
  end.

Fixpoint applyMapping_loop (data : JsValue) (entries : FieldMapping)
    (result : list (string * JsValue)) : Result (list (string * JsValue)) :=
  match entries with
  | [] => Ok result
  | (targetField, rule) :: rest =>
      value ← applyRule data rule;
      applyMapping_loop data rest (setProp result targetField value)
  end.

Definition applyMapping (data : JsValue) (mapping : FieldMapping)
  : Result (list (string * JsValue)) :=
  applyMapping_loop data mapping [].

(** The helper [toStringOrUndefined] of [fetchEndpoint]. *)
Definition toStringOrUndefined (value : JsValue) : Result (option string) :=
  match value with
  | JNull | JUndefined => Ok None
  | _ => s ← ToString value; Ok (Some s)
  end.

(** The source-native id of a mapped record:
    [mappedData.id || mappedData.slug || mappedData.symbol || Math.random()],
    where [rnd] is the value [Math.random()] returns when it is called. *)
Definition nativeId (mappedData : list (string * JsValue)) (rnd : num) : JsValue :=
  or_else (or_else (or_else (getProp mappedData "id") (getProp mappedData "slug"))
                   (getProp mappedData "symbol"))
          (JNum rnd).

(** The callback of [limitedItems.map] in [fetchEndpoint]: one upstream
    record to one [ProjectInfo] or [MarketInfo].  [now] is the ISO text of
    the collection time. *)
Definition normalizeItem (sourceConfig : SourceConfig) (endpoint : RestApiEndpoint)
    (now : string) (rnd : num) (item : JsValue) : Result Item :=
  mappedData ← applyMapping item (mapping endpoint);
  let rawData := item in
  let dataHash := Shared.generateContentHash (JSON_stringify rawData) in
  let source := sourceId sourceConfig in
  sourceId ← ToString (nativeId mappedData rnd);
  let get := getProp mappedData in
  if String.eqb (sc_type sourceConfig) "project_info" then
    name ← ToString (or_else (get "name") (JStr sourceId));
    logo ← toStringOrUndefined (or_else (get "image") (get "logo"));
    website ← toStringOrUndefined (or_else (get "url") (get "website"));
    description ← toStringOrUndefined (get "description");
    sourceCategory ← toStringOrUndefined (or_else (get "category") (get "sourceCategory"));
    twitter ← toStringOrUndefined (or_else (get "twitter") (get "twitter_handle"));
    tokenSymbol ← toStringOrUndefined (or_else (get "symbol") (get "tokenSymbol"));
    Ok (ProjectInfoItem {|
      pi_id := Shared.generateProjectInfoId source sourceId;
      pi_source := source;
      pi_sourceId := sourceId;
      pi_rawData := rawData;
      pi_name := name;
      pi_logo := logo;
      pi_website := website;
      pi_description := description;
      pi_sourceCategory := sourceCategory;
      pi_twitter := twitter;
      pi_tokenSymbol := tokenSymbol;
      pi_collectedAt := now;
      pi_processedStatus := "pending";
      dataHash := Some dataHash |})
  else
    title ← ToString (or_else (or_else (get "title") (get "name")) (JStr ""));
    content ← ToString (or_else (or_else (get "content") (get "description")) (JStr ""));
    url ← toStringOrUndefined (get "url");
    publishedAt ← ToString (or_else (get "publishedAt") (JStr now));
    Ok (MarketInfoItem {|
      mi_id := source +:+ "-" +:+ dataHash;
      mi_source := source;
      mi_rawData := rawData;
      mi_title := title;
      mi_content := content;
      mi_url := url;
      mi_publishedAt := publishedAt;
      mi_author := None;
      mi_tags := None;
      mi_language := None;
      mi_collectedAt := now;
      mi_processedStatus := "pending";
      contentHash := Some dataHash;
      mi_ttl := None;
      mi_publishedDate := None |}).

(** What one pass through the [try] block of [fetchWithRetry] does. *)
Inductive Attempt :=
| Returned (data : JsValue)
| Continued
| Thrown (e : JsError).

Definition attempt (o : HttpOutcome) : Attempt :=
  match o with
  | NetworkFailure e => Thrown e
  | HttpResponse status statusText _ json =>
      if status =? 429 then Continued
      else if negb (response_ok status) then
        Thrown (Error ("HTTP " +:+ NumberToString (numOfZ status) +:+ ": " +:+ statusText))
      else match json with
           | Ok data => Returned data
           | Throw e => Thrown e
           end
  end.

(** The loop [for (let i = 0; i < retries; i++)] of [fetchWithRetry], with
    [remaining = retries - i] iterations to go; the waits between the
    attempts take time and have no other effect. *)
Fixpoint fetchWithRetry_loop (E : Env) (remaining : nat) (w : World)
  : Result JsValue * World :=
  match remaining with
  | O => (Throw (Error "Max retries exceeded"), w)
  | S remaining' =>
      let w' := {| requests := S (requests w); draws := draws w; ticks := ticks w |} in
      match attempt (net E (requests w)) with
      | Returned data => (Ok data, w')
      | Continued => fetchWithRetry_loop E remaining' w'
      | Thrown e =>
          match remaining' with
          | O => (Throw e, w')
          | S _ => fetchWithRetry_loop E remaining' w'
          end
      end
  end.

Definition fetchWithRetry (E : Env) (w : World) : Result JsValue * World :=
  fetchWithRetry_loop E 3 w.

(** [Math.random()] is evaluated for a record exactly when its mapped
    [id], [slug] and [symbol] are all falsy. *)
Definition callsRandom (endpoint : RestApiEndpoint) (item : JsValue) : bool :=
  match applyMapping item (mapping endpoint) with
  | Ok mappedData =>
      negb (truthy (or_else (or_else (getProp mappedData "id") (getProp mappedData "slug"))
                            (getProp mappedData "symbol")))
  | Throw _ => false
  end.

(** [limitedItems.map(...)]: the first callback that throws ends the map. *)
Fixpoint normalizeItems (E : Env) (sourceConfig : SourceConfig)
    (endpoint : RestApiEndpoint) (now : string) (limitedItems : list JsValue)
    (w : World) : Result (list Item) * World :=
  match limitedItems with
  | [] => (Ok [], w)
  | item :: rest =>
      let w' :=
        if callsRandom endpoint item
        then {| requests := requests w; draws := S (draws w); ticks := ticks w |}
        else w in
      match normalizeItem sourceConfig endpoint now (random E (draws w)) item with
      | Throw e => (Throw e, w')
      | Ok info =>
          match normalizeItems E sourceConfig endpoint now rest w' with
          | (Ok infos, w'') => (Ok (info :: infos), w'')
          | (Throw e, w'') => (Throw e, w'')
          end
      end
  end.

Definition fetchEndpoint (E : Env) (sourceConfig : SourceConfig)
    (endpoint : RestApiEndpoint) (w : World) : Result (list Item) * World :=
  match fetchWithRetry E w with
  | (Throw e, w1) => (Throw e, w1)
  | (Ok data, w1) =>
      let items := match data with JArr elems => elems | _ => [data] end in
      let limitedItems :=
        match limit endpoint with
        | Some (S n) => take (S n) items
        | _ => items
        end in
      let now := toISOString (clock E (ticks w1)) in
      let w2 := {| requests := requests w1; draws := draws w1; ticks := S (ticks w1) |} in
      normalizeItems E sourceConfig endpoint now limitedItems w2
  end.

(** [BaseCollector.successResult] and [BaseCollector.failedResult] *)
Definition successResult (items : list Item) (stats : CollectorStats) : CollectorResult :=
  {| success := true; items := items; cr_error := None; result_stats := stats |}.

Definition failedResult (error : string) : CollectorResult :=
  {| success := false; items := []; cr_error := Some error;
     result_stats := {| totalFetched := 0; savedCount := 0; skippedCount := 0 |} |}.

(** The loop [for (const endpoint of config.endpoints)] of [collect]: an
    endpoint whose fetch throws is logged and skipped. *)
Fixpoint collect_loop (E : Env) (sourceConfig : SourceConfig)
    (endpoints : list RestApiEndpoint) (allItems : list Item) (w : World)
  : list Item * World :=
  match endpoints with
  | [] => (allItems, w)
  | endpoint :: rest =>
      match fetchEndpoint E sourceConfig endpoint w with
      | (Ok items, w') => collect_loop E sourceConfig rest (allItems ++ items) w'
      | (Throw _, w') => collect_loop E sourceConfig rest allItems w'
      end
  end.

(** [RestApiCollector.collect].  [sourceConfig.config] is cast to
    [RestApiConfig] without a check: on a configuration of another
    collector [config.endpoints] is [undefined], the [for ... of] throws a
    TypeError outside the per-endpoint [try], and the outer [catch] turns
    it into a failed result. *)
Definition collect (E : Env) (sourceConfig : SourceConfig) (w : World)
  : CollectorResult * World :=
  match config sourceConfig with
  | RestApi config =>
      let '(allItems, w') := collect_loop E sourceConfig (endpoints config) [] w in
      let n := Z.of_nat (length allItems) in
      (successResult allItems {| totalFetched := n; savedCount := n; skippedCount := 0 |}, w')
  | _ => (failedResult "config.endpoints is not iterable", w)
  end.

End WithEngine.
End RestApiCollector.

(** ** packages/collector: the RSS collector (collectors/rss.ts) *)

Module RssCollector.
Import Js Types Outside.

Record FeedItem := {
  title : string;
  link : option string;
  description : string;
  pubDate : option string;
  author : option string;
  category : option string;
}.

(** [s.replace(pattern, replacement)] with a string pattern: the first
    occurrence only. *)
Fixpoint replaceFirst (pattern replacement s : string) : string :=
  if String.prefix pattern s
  then replacement +:+
       String.substring (String.length pattern)
                        (String.length s - String.length pattern) s
  else match s with
       | EmptyString => EmptyString
       | String c rest => String c (replaceFirst pattern replacement rest)
       end.

(** [s.split('T')[0]] *)
Fixpoint beforeT (s : string) : string :=
  match s with
  | EmptyString => EmptyString
  | String c rest => if Ascii.eqb c "T" then EmptyString else String c (beforeT rest)
  end.

(** A string-or-undefined operand of [+] and of [if (...)]. *)
Definition concatOperand (o : option string) : string := default "undefined" o.

Definition nonEmpty (o : option string) : option string :=
  match o with
  | Some s => if String.eqb s "" then None else Some s
  | None => None
  end.

(** [calculateTTL(days)] of packages/shared, at the clock reading [nowMs]. *)
Definition calculateTTL (nowMs days : Z) : Z := nowMs / 1000 + days * 24 * 60 * 60.

Section WithEngine.
Context `{JsEngine}.

(** The regular-expression feed parser [parseFeedItems]. *)
Variable parseFeedItems : string -> list FeedItem.

Definition optionToJs (o : option string) : JsValue :=
  match o with Some s => JStr s | None => JUndefined end.

Definition feedItemToJs (item : FeedItem) : JsValue :=
  JObj [("title", JStr (title item)); ("link", optionToJs (link item));
        ("description", JStr (description item));
        ("pubDate", optionToJs (pubDate item));
        ("author", optionToJs (author item));
        ("category", optionToJs (category item))].

(** The callback of [items.slice(0, maxItems).map] in [collect]. *)
Definition toMarketInfo (sourceConfig : SourceConfig) (config : RssConfig)
    (now : string) (ttl : Z) (item : FeedItem) : MarketInfo :=
  let contentHash := Shared.generateContentHash (title item +:+ concatOperand (link item)) in
  let id := replaceFirst "rss:" "" (sourceId sourceConfig) +:+ "-" +:+ contentHash in
  let publishedAt :=
    match nonEmpty (pubDate item) with
    | Some pubDate =>
        match DateToISOString pubDate with
        | Ok iso => iso
        | Throw _ => now
        end
    | None => now
    end in
  let publishedDate := beforeT publishedAt in
  {| mi_id := id;
     mi_source := sourceId sourceConfig;
     mi_rawData := feedItemToJs item;
     mi_title := title item;
     mi_content := description item;
     mi_url := nonEmpty (link item);
     mi_publishedAt := publishedAt;
     mi_author := nonEmpty (author item);
     mi_tags := (fun c => [c]) <$> nonEmpty (category item);
     mi_language := Some (default "en" (nonEmpty (language config)));
     mi_collectedAt := now;
     mi_processedStatus := "pending";
     contentHash := Some contentHash;
     mi_ttl := Some ttl;
     mi_publishedDate := Some publishedDate |}.

Definition tick (w : World) : World :=
  {| requests := requests w; draws := draws w; ticks := S (ticks w) |}.

Definition request (w : World) : World :=
  {| requests := S (requests w); draws := draws w; ticks := ticks w |}.

(** [RssCollector.collect]: one request, no retry; every exception ends in
    the [catch] and gives a failed result. *)
Definition collect (E : Env) (sourceConfig : SourceConfig) (w : World)
  : CollectorResult * World :=
  match config sourceConfig with
  | Rss config =>
      let w1 := request w in
      match net E (requests w) with
      | NetworkFailure e => (RestApiCollector.failedResult (errorMessage e), w1)
      | HttpResponse status statusText xml _ =>
          if negb (response_ok status) then
            (RestApiCollector.failedResult
               ("HTTP " +:+ NumberToString (numOfZ status) +:+ ": " +:+ statusText), w1)
          else
            let items := parseFeedItems xml in
            let maxItems := match maxItems config with Some (S n) => S n | _ => 20%nat end in
            let now := toISOString (clock E (ticks w1)) in
            let ttl := calculateTTL (clock E (S (ticks w1))) 30 in
            let marketInfoItems :=
              map (toMarketInfo sourceConfig config now ttl) (take maxItems items) in
            let n := Z.of_nat (length marketInfoItems) in
            (RestApiCollector.successResult (map MarketInfoItem marketInfoItems)
               {| totalFetched := n; savedCount := n;
                  skippedCount := Z.of_nat (length items) - n |},
             tick (tick w1))
      end
  | _ => (RestApiCollector.failedResult "Failed to parse URL from undefined", w)
  end.

End WithEngine.
End RssCollector.

(** ** packages/collector: the source configuration service
    (services/source-config.ts) and [createSourceConfig] of
    packages/shared *)

Module SourceConfigService.
Import Js Types.

Section WithEngine.
Context `{JsEngine}.

(** The parameter of [createSourceConfig]:
    [Pick<SourceConfig, ...> & Partial<Pick<SourceConfig, ...>>]. *)
Record SourceParams := {
  p_type : string;
  p_sourceId : string;
  p_name : string;
  p_collectorType : string;
  p_config : CollectorConfig;
  p_intervalMinutes : option Z;
  p_priority : option Z;
  p_enabled : option bool;
}.

Definition generateSourceConfigId (type sourceId : string) : string :=
  type +:+ ":" +:+ sourceId.

Definition boolStr (b : bool) : string := if b then "true" else "false".

Definition createSourceConfig (now : Z) (params : SourceParams) : SourceConfig :=
  let enabled := default true (p_enabled params) in
  {| sc_id := generateSourceConfigId (p_type params) (p_sourceId params);
     sc_type := p_type params;
     sourceId := p_sourceId params;
     sc_name := p_name params;
     enabled := enabled;
     enabledStr := boolStr enabled;
     collectorType := p_collectorType params;
     config := p_config params;
     intervalMinutes := default 15 (p_intervalMinutes params);
     priority := default 100 (p_priority params);
     lastCollectedAt := None;
     lastCollectStatus := None;
     lastCollectError := None;
     stats := None;
     createdAt := now;
     updatedAt := now |}.

(** The items of a table, as a [Scan] returns them. *)
Definition getAllSourceConfigs (table : gmap string SourceConfig) : list SourceConfig :=
  (map_to_list table).*2.

(** The query on the index [enabled-index] with [enabledStr = 'true']. *)
Definition getEnabledSourceConfigs (table : gmap string SourceConfig)
  : list SourceConfig :=
  filter (fun c => enabledStr c = "true") (getAllSourceConfigs table).

Definition getSourceConfig (table : gmap string SourceConfig) (id : string)
  : option SourceConfig :=
  table !! id.

Definition withEnabled (config : SourceConfig) (e : bool) (now : Z) : SourceConfig :=
  {| sc_id := sc_id config;
     sc_type := sc_type config;
     sourceId := sourceId config;
     sc_name := sc_name config;
     enabled := e;
     enabledStr := boolStr e;
     collectorType := collectorType config;
     config := Types.config config;
     intervalMinutes := intervalMinutes config;
     priority := priority config;
     lastCollectedAt := lastCollectedAt config;
     lastCollectStatus := lastCollectStatus config;
     lastCollectError := lastCollectError config;
     stats := stats config;
     createdAt := createdAt config;
     updatedAt := now |}.

(** [saveSourceConfig]: [enabledStr] is recomputed from [enabled]. *)
Definition saveSourceConfig (now : Z) (config : SourceConfig)
    (table : gmap string SourceConfig) : gmap string SourceConfig :=
  <[sc_id config := withEnabled config (enabled config) now]> table.

Definition toggleSourceConfig (now : Z) (id : string)
    (table : gmap string SourceConfig) : gmap string SourceConfig :=
  match getSourceConfig table id with
  | None => table
  | Some config => <[id := withEnabled config (negb (enabled config)) now]> table
  end.

Definition zeroStats : CollectionStats :=
  {| totalCollected := 0; successCount := 0; failedCount := 0; lastItemCount := 0 |}.

(** [updateSourceCollectionStatus(id, status, error, itemCount)] at the
    clock reading [now]. *)
Definition updateSourceCollectionStatus (now : Z) (id status : string)
    (error : option string) (itemCount : option Z)
    (table : gmap string SourceConfig) : gmap string SourceConfig :=
  match getSourceConfig table id with
  | None => table
  | Some config =>
      let currentStats := default zeroStats (stats config) in
      let count := default 0 itemCount in
      let newStats :=
        {| totalCollected := totalCollected currentStats + count;
           successCount := successCount currentStats
                           + (if String.eqb status "success" then 1 else 0);
           failedCount := failedCount currentStats
                          + (if String.eqb status "failed" then 1 else 0);
           lastItemCount := count |} in
      let failed := String.eqb status "failed" in
      let message :=
        match error with
        | Some e => if String.eqb e "" then "Unknown error" else e
        | None => "Unknown error"
        end in
      <[id := {| sc_id := sc_id config;
                 sc_type := sc_type config;
                 sourceId := sourceId config;
                 sc_name := sc_name config;
                 enabled := enabled config;
                 enabledStr := enabledStr config;
                 collectorType := collectorType config;
                 config := Types.config config;
                 intervalMinutes := intervalMinutes config;
                 priority := priority config;
                 lastCollectedAt := Some now;
                 lastCollectStatus := Some status;
                 lastCollectError := if failed then Some message else None;
                 stats := Some newStats;
                 createdAt := createdAt config;
                 updatedAt := now |}]> table
  end.

(** [initializeDefaultSources]: the default catalogue is inserted when the
    table is empty. *)
Definition initializeDefaultSources (now : Z) (defaults : list SourceParams)
    (table : gmap string SourceConfig) : gmap string SourceConfig :=
  match getAllSourceConfigs table with
  | _ :: _ => table
  | [] =>
      fold_left (fun t source => saveSourceConfig now (createSourceConfig now source) t)
                defaults table
  end.

(** [shouldCollect(config)], where [now] is the [getTime()] of the
    [new Date()] it reads.  The division is the exact one. *)
Definition shouldCollect (now : Z) (config : SourceConfig) : bool :=
  if negb (enabled config) then false
  else match lastCollectedAt config with
       | None => true
       | Some lastCollected =>
           let minutesSinceLastCollect : Q := (now - lastCollected) # (1000 * 60) in
           Qle_bool (inject_Z (intervalMinutes config)) minutesSinceLastCollect
       end.

End WithEngine.
End SourceConfigService.

(** ** packages/collector: the ingestion coordinator (scheduler.ts) *)

Module Scheduler.
Import Js Types Outside SourceConfigService.

Record SQSMessage := {
  msg_type : string;
  infoId : string;
}.

(** [process.env], as far as the coordinator reads it. *)
Record ProcessEnv := {
  INFO_QUEUE_URL : option string;
}.

(** Insertion by ascending [key], after the elements with an equal key:
    the order [Array.prototype.sort] (which is stable) gives with the
    comparator [(a, b) => key(a) - key(b)]. *)
Fixpoint insertBy {A} (key : A -> Z) (x : A) (l : list A) : list A :=
  match l with
  | [] => [x]
  | y :: rest => if key x <? key y then x :: y :: rest else y :: insertBy key x rest
  end.

Definition sortBy {A} (key : A -> Z) (l : list A) : list A :=
  fold_left (fun sorted x => insertBy key x sorted) l [].

Section WithEngine.
Context `{JsEngine}.

(** The tables, the queue, and the sources announced on the console by
    [collectFromSource] ("Collecting from source: ..."), oldest first.
    The casts [item as ProjectInfo] and [item as MarketInfo] of
    [processCollectorResult] check nothing, so a table holds items of
    either shape. *)
Record State := {
  projectInfoTable : gmap string Item;
  marketInfoTable : gmap string Item;
  sourceConfigTable : gmap string SourceConfig;
  queue : list SQSMessage;
  announced : list string;
}.

(** [GetCommand] on a table.  The tables of the model are always
    reachable, so the read returns. *)
Definition GetCommand {V} (table : gmap string V) (key : string) : Result (option V) :=
  Ok (table !! key).

(** [isDuplicateProjectInfo]: [===] between two [string | undefined]. *)
Definition isDuplicateProjectInfo (st : State) (info : Item) : bool :=
  match GetCommand (projectInfoTable st) (itemId info) with
  | Ok None => false
  | Ok (Some item) => bool_decide (itemDataHash item = itemDataHash info)
  | Throw _ => false
  end.

Definition isDuplicateMarketInfo (st : State) (info : Item) : bool :=
  match GetCommand (marketInfoTable st) (itemId info) with
  | Ok o => bool_decide (is_Some o)
  | Throw _ => false
  end.

Definition putProjectInfo (info : Item) (st : State) : State :=
  {| projectInfoTable := <[itemId info := info]> (projectInfoTable st);
     marketInfoTable := marketInfoTable st;
     sourceConfigTable := sourceConfigTable st;
     queue := queue st;
     announced := announced st |}.

Definition putMarketInfo (info : Item) (st : State) : State :=
  {| projectInfoTable := projectInfoTable st;
     marketInfoTable := <[itemId info := info]> (marketInfoTable st);
     sourceConfigTable := sourceConfigTable st;
     queue := queue st;
     announced := announced st |}.

Definition saveProjectInfo (info : Item) (st : State) : bool * State :=
  if isDuplicateProjectInfo st info then (false, st)
  else (true, putProjectInfo info st).

Definition saveMarketInfo (info : Item) (st : State) : bool * State :=
  if isDuplicateMarketInfo st info then (false, st)
  else (true, putMarketInfo info st).

(** [!INFO_QUEUE_URL]: unset or empty. *)
Definition queueConfigured (env : ProcessEnv) : bool :=
  match INFO_QUEUE_URL env with
  | Some u => negb (String.eqb u "")
  | None => false
  end.

Definition sendToQueue (env : ProcessEnv) (message : SQSMessage) (st : State) : State :=
  if negb (queueConfigured env) then st
  else {| projectInfoTable := projectInfoTable st;
          marketInfoTable := marketInfoTable st;
          sourceConfigTable := sourceConfigTable st;
          queue := queue st ++ [message];
          announced := announced st |}.

(** The callback of [batch.map] in [processCollectorResult]. *)
Definition processItem (env : ProcessEnv) (sourceConfig : SourceConfig)
    (item : Item) (st : State) : bool * State :=
  if String.eqb (sc_type sourceConfig) "project_info" then
    let info := item in
    let '(wasSaved, st1) := saveProjectInfo info st in
    if wasSaved
    then (true, sendToQueue env {| msg_type := "project_info"; infoId := itemId info |} st1)
    else (false, st1)
  else
    let info := item in
    let '(wasSaved, st1) := saveMarketInfo info st in
    if wasSaved
    then (true, sendToQueue env {| msg_type := "market_info"; infoId := itemId info |} st1)
    else (false, st1).

(** [Promise.all(batch.map(...))], the items taken one after the other. *)
Fixpoint processBatch (env : ProcessEnv) (sourceConfig : SourceConfig)
    (batch : list Item) (st : State) : list bool * State :=
  match batch with
  | [] => ([], st)
  | item :: rest =>
      let '(r, st1) := processItem env sourceConfig item st in
      let '(rs, st2) := processBatch env sourceConfig rest st1 in
      (r :: rs, st2)
  end.

Definition countTrue (results : list bool) : Z :=
  Z.of_nat (length (filter (fun r => r = true) results)).

Definition countFalse (results : list bool) : Z :=
  Z.of_nat (length (filter (fun r => r = false) results)).

(** The loop [for (let i = 0; i < items.length; i += batchSize)], on the
    items from index [i] on; [fuel] bounds the number of batches. *)
Fixpoint processBatches (env : ProcessEnv) (sourceConfig : SourceConfig)
    (fuel : nat) (remaining : list Item)
    (saved skipped : Z) (st : State) : Z * Z * State :=
  match fuel, remaining with
  | O, _ | _, [] => (saved, skipped, st)
  | S fuel', _ :: _ =>
      let batch := take 10 remaining in
      let '(results, st') := processBatch env sourceConfig batch st in
      processBatches env sourceConfig fuel' (drop 10 remaining)
        (saved + countTrue results) (skipped + countFalse results) st'
  end.

Definition processCollectorResult (env : ProcessEnv) (sourceConfig : SourceConfig)
    (result : CollectorResult) (st : State) : Z * Z * State :=
  processBatches env sourceConfig (length (items result)) (items result) 0 0 st.

(** A collector of the registry. *)
Definition Collector : Type := Env -> SourceConfig -> World -> CollectorResult * World.

Record CollectSummary := {
  collected : Z;
  saved : Z;
  skipped : Z;
  summary_error : option string;
}.

Definition withSourceConfigTable (t : gmap string SourceConfig) (st : State) : State :=
  {| projectInfoTable := projectInfoTable st;
     marketInfoTable := marketInfoTable st;
     sourceConfigTable := t;
     queue := queue st;
     announced := announced st |}.

Definition announce (id : string) (st : State) : State :=
  {| projectInfoTable := projectInfoTable st;
     marketInfoTable := marketInfoTable st;
     sourceConfigTable := sourceConfigTable st;
     queue := queue st;
     announced := announced st ++ [id] |}.

(** The registry of collectors ([getCollector]): ['rss'] and ['api:rest']. *)
Variable rssCollector : Collector.
Variable restApiCollector : Collector.

Definition getCollector (type : string) : option Collector :=
  if String.eqb type "rss" then Some rssCollector
  else if String.eqb type "api:rest" then Some restApiCollector
  else None.

(** [collectFromSource].  Nothing in the [try] throws in the model (the
    collectors catch their own exceptions and the tables are reachable),
    so its [catch] has no counterpart. *)
Definition collectFromSource (env : ProcessEnv) (E : Env) (sourceConfig : SourceConfig)
    (w : World) (st : State) : CollectSummary * World * State :=
  let st := announce (sc_id sourceConfig) st in
  match getCollector (collectorType sourceConfig) with
  | None =>
      ({| collected := 0; saved := 0; skipped := 0;
          summary_error := Some ("Unsupported collector type: " +:+ collectorType sourceConfig) |},
       w, st)
  | Some collector =>
      let '(result, w1) := collector E sourceConfig w in
      let now := clock E (ticks w1) in
      let w2 := RssCollector.tick w1 in
      if negb (success result) then
        ({| collected := 0; saved := 0; skipped := 0; summary_error := cr_error result |},
         w2,
         withSourceConfigTable
           (updateSourceCollectionStatus now (sc_id sourceConfig) "failed"
              (cr_error result) None (sourceConfigTable st)) st)
      else
        let '(saved, skipped, st1) := processCollectorResult env sourceConfig result st in
        ({| collected := Z.of_nat (length (items result)); saved := saved;
            skipped := skipped; summary_error := None |},
         w2,
         withSourceConfigTable
           (updateSourceCollectionStatus now (sc_id sourceConfig) "success"
              None (Some saved) (sourceConfigTable st1)) st1)
  end.

(** The sources [runConfigurableCollection] collects from, in the order
    it visits them: the enabled sources that are due at [now], sorted by
    priority. *)
Definition sourcesToCollect (now : Z) (table : gmap string SourceConfig)
  : list SourceConfig :=
  sortBy priority (filter (fun c => shouldCollect now c = true) (getEnabledSourceConfigs table)).

Record RunStats := {
  projectInfo_collected : Z;
  projectInfo_saved : Z;
  marketInfo_collected : Z;
  marketInfo_saved : Z;
}.

(** The loop [for (const sourceConfig of sourcesToCollect)]. *)
Fixpoint collectEach (env : ProcessEnv) (E : Env) (sources : list SourceConfig)
    (stats : RunStats) (w : World) (st : State) : RunStats * World * State :=
  match sources with
  | [] => (stats, w, st)
  | sourceConfig :: rest =>
      let '(result, w1, st1) := collectFromSource env E sourceConfig w st in
      let stats1 :=
        if String.eqb (sc_type sourceConfig) "project_info" then
          {| projectInfo_collected := projectInfo_collected stats + collected result;
             projectInfo_saved := projectInfo_saved stats + saved result;
             marketInfo_collected := marketInfo_collected stats;
             marketInfo_saved := marketInfo_saved stats |}
        else
          {| projectInfo_collected := projectInfo_collected stats;
             projectInfo_saved := projectInfo_saved stats;
             marketInfo_collected := marketInfo_collected stats + collected result;
             marketInfo_saved := marketInfo_saved stats + saved result |} in
      collectEach env E rest stats1 w1 st1
  end.

(** [runConfigurableCollection]; [defaults] is the default catalogue
    ([DEFAULT_PROJECT_INFO_SOURCES] then [DEFAULT_MARKET_INFO_SOURCES]).
    The model takes one reading of the clock for the initialisation and
    one for the whole filter; the code reads it anew for every default
    source and in every call of [shouldCollect], moments apart. *)
Definition runConfigurableCollection (env : ProcessEnv) (E : Env)
    (defaults : list SourceParams) (w : World) (st : State)
  : RunStats * World * State :=
  let table := initializeDefaultSources (clock E (ticks w)) defaults (sourceConfigTable st) in
  let w1 := RssCollector.tick w in
  let st1 := withSourceConfigTable table st in
  let now := clock E (ticks w1) in
  let w2 := RssCollector.tick w1 in
  collectEach env E (sourcesToCollect now table)
    {| projectInfo_collected := 0; projectInfo_saved := 0;
       marketInfo_collected := 0; marketInfo_saved := 0 |} w2 st1.

End WithEngine.
End Scheduler.

(** ** packages/ai-agent: operations and the tool-use loop
    (services/bedrock.ts)

    A tool call of the model is a tagged union: the tool name and the
    input its schema declares.  The casts of [toolCallToOperation]
    ([input.id as string], ...) trust the schema, and so does the model.
    The category-specific [attributes] bag is left out: no tool sets it. *)

Module Bedrock.

Record CreateEntity := {
  entity_id : string;
  entity_name : string;
  entity_category : string;
  entity_description : option string;
  entity_logo : option string;
  entity_website : option string;
  entity_twitter : option string;
}.

Record EntityUpdates := {
  upd_healthScore : option Z;
  upd_status : option string;
  upd_newsSentiment : option string;
}.

Record EventInput := {
  ev_title : string;
  ev_description : string;
  ev_date : string;
  ev_source : string;
  ev_sourceUrl : option string;
  ev_sentiment : string;
  ev_eventType : string;
}.

Record RiskFlagInput := {
  rfi_type : string;
  rfi_severity : string;
  rfi_description : string;
  rfi_source : option string;
}.

Record OpportunityFlagInput := {
  ofi_type : string;
  ofi_importance : string;
  ofi_description : string;
  ofi_source : option string;
}.

(** [EntityOperation], discriminated by its [type]. *)
Inductive EntityOperation :=
| create (entity : CreateEntity)
| update (entityId : string) (updates : EntityUpdates) (reason : string)
| add_event (entityId : string) (event : EventInput)
| add_risk_flag (entityId : string) (flag : RiskFlagInput)
| add_opportunity_flag (entityId : string) (flag : OpportunityFlagInput).

(** [operation.type] *)
Definition operationType (o : EntityOperation) : string :=
  match o with
  | create _ => "create"
  | update _ _ _ => "update"
  | add_event _ _ => "add_event"
  | add_risk_flag _ _ => "add_risk_flag"
  | add_opportunity_flag _ _ => "add_opportunity_flag"
  end.

Record IdentifiedProject := {
  ip_entityId : option string;
  ip_name : string;
  ip_confidence : Q;
}.

(** [AIAgentOutput['analysis']] *)
Record Analysis := {
  sentiment : option string;
  eventType : option string;
  identifiedProjects : option (list IdentifiedProject);
  keyInsights : option (list string);
}.

Record AIAgentOutput := {
  operations : list EntityOperation;
  analysis : Analysis;
  reasoning : string;
}.

(** The input of the tool [report_analysis]. *)
Record ReportInput := {
  rep_sentiment : option string;
  rep_eventType : option string;
  rep_identifiedProjects : option (list IdentifiedProject);
  rep_keyInsights : option (list string);
  rep_reasoning : option string;
}.

(** The name and the input of a [tool_use] block.  [unknown_tool] stands
    for a name outside the vocabulary of [TOOLS]. *)
Inductive ToolCall :=
| create_project (input : CreateEntity)
| update_project (entityId : string) (input : EntityUpdates) (reason : string)
| tool_add_event (entityId : string) (input : EventInput)
| tool_add_risk_flag (entityId : string) (input : RiskFlagInput)
| tool_add_opportunity_flag (entityId : string) (input : OpportunityFlagInput)
| report_analysis (input : ReportInput)
| unknown_tool (name : string).

Definition toolName (c : ToolCall) : string :=
  match c with
  | create_project _ => "create_project"
  | update_project _ _ _ => "update_project"
  | tool_add_event _ _ => "add_event"
  | tool_add_risk_flag _ _ => "add_risk_flag"
  | tool_add_opportunity_flag _ _ => "add_opportunity_flag"
  | report_analysis _ => "report_analysis"
  | unknown_tool name => name
  end.

(** [toolCallToOperation]; [None] is its [null]. *)
Definition toolCallToOperation (c : ToolCall) : option EntityOperation :=
  match c with
  | create_project input =>
      Some (create {| entity_id := entity_id input;
                      entity_name := entity_name input;
                      entity_category := entity_category input;
                      entity_description := entity_description input;
                      entity_logo := entity_logo input;
                      entity_website := entity_website input;
                      entity_twitter := entity_twitter input |})
  | update_project entityId input reason =>
      Some (update entityId
              {| upd_healthScore := upd_healthScore input;
                 upd_status := upd_status input;
                 upd_newsSentiment := upd_newsSentiment input |} reason)
  | tool_add_event entityId input => Some (add_event entityId input)
  | tool_add_risk_flag entityId input => Some (add_risk_flag entityId input)
  | tool_add_opportunity_flag entityId input => Some (add_opportunity_flag entityId input)
  | report_analysis _ => None
  | unknown_tool _ => None
  end.

(** A content block of a response: text, a tool call, or a block of
    another type, which the loop ignores. *)
Inductive ContentBlock :=
| TextBlock (text : string)
| ToolUseBlock (id : string) (call : ToolCall)
| OtherBlock (type : string).

Record BedrockResponse := {
  content : list ContentBlock;
  stop_reason : string;
}.

(** The [content] of a tool result: the JSON text of an acknowledgment. *)
Inductive Acknowledgment :=
| AnalysisReceived
| OperationRecorded (toolName : string)
| UnknownTool.

Record ToolResult := {
  tool_use_id : string;
  result_content : Acknowledgment;
}.

Inductive Message :=
| UserPrompt (text : string)
| AssistantMessage (content : list ContentBlock)
| ToolResults (results : list ToolResult).

(** The variables of [analyzeWithTools], and the number of requests sent
    to the model so far. *)
Record LoopState := {
  messages : list Message;
  st_operations : list EntityOperation;
  st_analysis : Analysis;
  st_reasoning : string;
  st_toolResults : list ToolResult;
  requestsSent : nat;
}.

Definition emptyAnalysis : Analysis :=
  {| sentiment := None; eventType := None; identifiedProjects := None; keyInsights := None |}.

Definition toolUseBlocks (content : list ContentBlock) : list (string * ToolCall) :=
  omap (fun block =>
          match block with
          | ToolUseBlock id call => Some (id, call)
          | _ => None
          end) content.

(** The body of [for (const toolUse of toolUseBlocks)]. *)
Definition processToolUse (s : LoopState) (toolUse : string * ToolCall) : LoopState :=
  let '(id, call) := toolUse in
  match call with
  | report_analysis input =>
      {| messages := messages s;
         st_operations := st_operations s;
         st_analysis := {| sentiment := rep_sentiment input;
                           eventType := rep_eventType input;
                           identifiedProjects := rep_identifiedProjects input;
                           keyInsights := rep_keyInsights input |};
         st_reasoning := default "" (rep_reasoning input);
         st_toolResults := st_toolResults s ++
           [{| tool_use_id := id; result_content := AnalysisReceived |}];
         requestsSent := requestsSent s |}
  | _ =>
      match toolCallToOperation call with
      | Some operation =>
          {| messages := messages s;
             st_operations := st_operations s ++ [operation];
             st_analysis := st_analysis s;
             st_reasoning := st_reasoning s;
             st_toolResults := st_toolResults s ++
               [{| tool_use_id := id; result_content := OperationRecorded (toolName call) |}];
             requestsSent := requestsSent s |}
      | None =>
          {| messages := messages s;
             st_operations := st_operations s;
             st_analysis := st_analysis s;
             st_reasoning := st_reasoning s;
             st_toolResults := st_toolResults s ++
               [{| tool_use_id := id; result_content := UnknownTool |}];
             requestsSent := requestsSent s |}
      end
  end.

Section Loop.

(** [invokeModelWithTools]: the request carries the conversation so far;
    the call throws when the transport or the decoding fails. *)
Variable invokeModelWithTools : list Message -> Result BedrockResponse.

(** One round: a request, and what the loop does with the response.
    [inl] is a [break] or the exception, [inr] goes to the next [i]. *)
Definition round (s : LoopState) : Result LoopState + LoopState :=
  match invokeModelWithTools (messages s) with
  | Throw e => inl (Throw e)
  | Ok response =>
      let s0 := {| messages := messages s;
                   st_operations := st_operations s;
                   st_analysis := st_analysis s;
                   st_reasoning := st_reasoning s;
                   st_toolResults := [];
                   requestsSent := S (requestsSent s) |} in
      match toolUseBlocks (content response) with
      | [] => inl (Ok s0)
      | blocks =>
          let s1 := fold_left processToolUse blocks s0 in
          let s2 := {| messages := messages s1 ++
                         [AssistantMessage (content response);
                          ToolResults (st_toolResults s1)];
                       st_operations := st_operations s1;
                       st_analysis := st_analysis s1;
                       st_reasoning := st_reasoning s1;
                       st_toolResults := st_toolResults s1;
                       requestsSent := requestsSent s1 |} in
          if String.eqb (stop_reason response) "end_turn" then inl (Ok s2) else inr s2
      end
  end.

(** [for (let i = 0; i < 5; i++)], with [remaining = 5 - i]. *)
Fixpoint toolUseLoop (remaining : nat) (s : LoopState) : Result LoopState :=
  match remaining with
  | O => Ok s
  | S remaining' =>
      match round s with
      | inl done => done
      | inr s' => toolUseLoop remaining' s'
      end
  end.

Definition initialState (userPrompt : string) : LoopState :=
  {| messages := [UserPrompt userPrompt];
     st_operations := [];
     st_analysis := emptyAnalysis;
     st_reasoning := "";
     st_toolResults := [];
     requestsSent := 0 |}.

(** The loop of [analyzeWithTools] from its initial state; [userPrompt] is
    the text [buildUserPrompt] returns. *)
Definition runToolUseLoop (userPrompt : string) : Result LoopState :=
  toolUseLoop 5 (initialState userPrompt).

Definition output (s : LoopState) : AIAgentOutput :=
  {| operations := st_operations s;
     analysis := st_analysis s;
     reasoning := st_reasoning s |}.

Definition analyzeWithTools (userPrompt : string) : Result AIAgentOutput :=
  s ← runToolUseLoop userPrompt; Ok (output s).

End Loop.
End Bedrock.

(** ** packages/ai-agent: the entity store and the processor
    (services/dynamodb.ts, services/processor.ts) *)

Module Processor.
Import Shared Bedrock.

Record Project := {
  project_id : string;
  project_name : string;
  project_category : string;
  project_description : option string;
  project_logo : option string;
  project_website : option string;
  project_twitter : option string;
  status : string;
  healthScore : Z;
  newsSentiment : string;
  recentEvents : list ProjectEvent;
  riskFlags : list RiskFlag;
  opportunityFlags : list OpportunityFlag;
  lastUpdated : string;
  createdAt : string;
}.

(** The [Partial<Project>] values the processor passes to
    [updateProject]. *)
Record ProjectUpdates := {
  set_description : option string;
  set_logo : option string;
  set_website : option string;
  set_twitter : option string;
  set_healthScore : option Z;
  set_status : option string;
  set_newsSentiment : option string;
  set_recentEvents : option (list ProjectEvent);
  set_riskFlags : option (list RiskFlag);
  set_opportunityFlags : option (list OpportunityFlag);
}.

Definition noUpdates : ProjectUpdates :=
  {| set_description := None; set_logo := None; set_website := None;
     set_twitter := None; set_healthScore := None; set_status := None;
     set_newsSentiment := None; set_recentEvents := None;
     set_riskFlags := None; set_opportunityFlags := None |}.

(** What an operation reads from the outside: the ISO text of the clock,
    and the [Date.now()] and [Math.random()] parts of an event id. *)
Record Stamp := {
  iso : string;
  millis : string;
  random9 : string;
}.

Definition getProject (table : gmap string Project) (id : string) : option Project :=
  table !! id.

(** [createProject]: a [PutCommand] of the project with both timestamps. *)
Definition createProject (now : string) (project : Project)
    (table : gmap string Project) : gmap string Project :=
  <[project_id project :=
      {| project_id := project_id project;
         project_name := project_name project;
         project_category := project_category project;
         project_description := project_description project;
         project_logo := project_logo project;
         project_website := project_website project;
         project_twitter := project_twitter project;
         status := status project;
         healthScore := healthScore project;
         newsSentiment := newsSentiment project;
         recentEvents := recentEvents project;
         riskFlags := riskFlags project;
         opportunityFlags := opportunityFlags project;
         lastUpdated := now;
         createdAt := now |}]> table.

(** The [SET] expression of [updateProject] on an item: every entry of
    [updates] that is not [undefined] replaces the attribute, and
    [lastUpdated] is refreshed. *)
Definition applyUpdates (now : string) (updates : ProjectUpdates) (p : Project) : Project :=
  {| project_id := project_id p;
     project_name := project_name p;
     project_category := project_category p;
     project_description := from_option Some (project_description p) (set_description updates);
     project_logo := from_option Some (project_logo p) (set_logo updates);
     project_website := from_option Some (project_website p) (set_website updates);
     project_twitter := from_option Some (project_twitter p) (set_twitter updates);
     status := default (status p) (set_status updates);
     healthScore := default (healthScore p) (set_healthScore updates);
     newsSentiment := default (newsSentiment p) (set_newsSentiment updates);
     recentEvents := default (recentEvents p) (set_recentEvents updates);
     riskFlags := default (riskFlags p) (set_riskFlags updates);
     opportunityFlags := default (opportunityFlags p) (set_opportunityFlags updates);
     lastUpdated := now;
     createdAt := createdAt p |}.

(** [updateProject(id, updates)].  Every caller has read the item with
    [getProject] first, so the update is on an item of the table. *)
Definition updateProject (now : string) (id : string) (updates : ProjectUpdates)
    (table : gmap string Project) : gmap string Project :=
  alter (applyUpdates now updates) id table.

Definition addProjectEvent (stamp : Stamp) (projectId : string) (event : EventInput)
    (table : gmap string Project) : gmap string Project :=
  match getProject table projectId with
  | None => table
  | Some project =>
      let newEvent :=
        {| evt_id := "evt-" +:+ millis stamp +:+ "-" +:+ random9 stamp;
           evt_date := ev_date event;
           evt_title := ev_title event;
           evt_description := ev_description event;
           evt_source := ev_source event;
           evt_sourceUrl := ev_sourceUrl event;
           evt_sentiment := ev_sentiment event;
           evt_eventType := ev_eventType event |} in
      let recentEvents := take 20 (newEvent :: recentEvents project) in
      updateProject (iso stamp) projectId
        {| set_description := None; set_logo := None; set_website := None;
           set_twitter := None; set_healthScore := None; set_status := None;
           set_newsSentiment := None; set_recentEvents := Some recentEvents;
           set_riskFlags := None; set_opportunityFlags := None |} table
  end.

Definition addRiskFlag (stamp : Stamp) (projectId : string) (flag : RiskFlagInput)
    (table : gmap string Project) : gmap string Project :=
  match getProject table projectId with
  | None => table
  | Some project =>
      let newFlag :=
        {| risk_type := rfi_type flag;
           severity := rfi_severity flag;
           risk_description := rfi_description flag;
           risk_detectedAt := iso stamp;
           risk_source := rfi_source flag |} in
      let existingFlags := riskFlags project in
      let isDuplicate :=
        existsb (fun f => String.eqb (risk_type f) (rfi_type flag)
                          && String.eqb (risk_description f) (rfi_description flag))
                existingFlags in
      if negb isDuplicate then
        updateProject (iso stamp) projectId
          {| set_description := None; set_logo := None; set_website := None;
             set_twitter := None; set_healthScore := None; set_status := None;
             set_newsSentiment := None; set_recentEvents := None;
             set_riskFlags := Some (newFlag :: existingFlags);
             set_opportunityFlags := None |} table
      else table
  end.

Definition addOpportunityFlag (stamp : Stamp) (projectId : string)
    (flag : OpportunityFlagInput) (table : gmap string Project) : gmap string Project :=
  match getProject table projectId with
  | None => table
  | Some project =>
      let newFlag :=
        {| opp_type := ofi_type flag;
           importance := ofi_importance flag;
           opp_description := ofi_description flag;
           opp_detectedAt := iso stamp;
           opp_source := ofi_source flag |} in
      let existingFlags := opportunityFlags project in
      let isDuplicate :=
        existsb (fun f => String.eqb (opp_type f) (ofi_type flag)
                          && String.eqb (opp_description f) (ofi_description flag))
                existingFlags in
      if negb isDuplicate then
        updateProject (iso stamp) projectId
          {| set_description := None; set_logo := None; set_website := None;
             set_twitter := None; set_healthScore := None; set_status := None;
             set_newsSentiment := None; set_recentEvents := None;
             set_riskFlags := None;
             set_opportunityFlags := Some (newFlag :: existingFlags) |} table
      else table
  end.

(** [executeOperation]: the id it returns, and the table afterwards. *)
Definition executeOperation (stamp : Stamp) (operation : EntityOperation)
    (table : gmap string Project) : option string * gmap string Project :=
  match operation with
  | create entity =>
      match getProject table (entity_id entity) with
      | Some existing =>
          (Some (entity_id entity),
           updateProject (iso stamp) (entity_id entity)
             {| set_description := entity_description entity;
                set_logo := entity_logo entity;
                set_website := entity_website entity;
                set_twitter := entity_twitter entity;
                set_healthScore := None; set_status := None;
                set_newsSentiment := None; set_recentEvents := None;
                set_riskFlags := None; set_opportunityFlags := None |} table)
      | None =>
          let newProject :=
            {| project_id := entity_id entity;
               project_name := entity_name entity;
               project_category := entity_category entity;
               project_description := entity_description entity;
               project_logo := entity_logo entity;
               project_website := entity_website entity;
               project_twitter := entity_twitter entity;
               status := "normal";
               healthScore := 70;
               newsSentiment := "neutral";
               recentEvents := [];
               riskFlags := [];
               opportunityFlags := [];
               lastUpdated := iso stamp;
               createdAt := iso stamp |} in
          (Some (entity_id entity), createProject (iso stamp) newProject table)
      end
  | update entityId updates reason =>
      match getProject table entityId with
      | None => (None, table)
      | Some existing =>
          (Some entityId,
           updateProject (iso stamp) entityId
             {| set_description := None; set_logo := None; set_website := None;
                set_twitter := None;
                set_healthScore := upd_healthScore updates;
                set_status := upd_status updates;
                set_newsSentiment := upd_newsSentiment updates;
                set_recentEvents := None; set_riskFlags := None;
                set_opportunityFlags := None |} table)
      end
  | add_event entityId event => (Some entityId, addProjectEvent stamp entityId event table)
  | add_risk_flag entityId flag => (Some entityId, addRiskFlag stamp entityId flag table)
  | add_opportunity_flag entityId flag =>
      (Some entityId, addOpportunityFlag stamp entityId flag table)
  end.

(** [for (const operation of output.operations) await executeOperation(operation)],
    each operation with the stamp it reads. *)
Definition executeOperations (ops : list (Stamp * EntityOperation))
    (table : gmap string Project) : gmap string Project :=
  fold_left (fun t '(stamp, operation) => (executeOperation stamp operation t).2) ops table.

(** [calculateImportanceScore], statement by statement. *)
Definition calculateImportanceScore (output : AIAgentOutput) : Z :=
  let score := 50 in
  let score := if bool_decide (eventType (analysis output) = Some "security") then score + 30 else score in
  let score := if bool_decide (eventType (analysis output) = Some "funding") then score + 20 else score in
  let score := if bool_decide (eventType (analysis output) = Some "regulatory") then score + 25 else score in
  let score := if bool_decide (eventType (analysis output) = Some "legal") then score + 20 else score in
  let score := if bool_decide (sentiment (analysis output) = Some "negative") then score + 15 else score in
  let score := if bool_decide (sentiment (analysis output) = Some "positive") then score + 5 else score in
  let projectCount :=
    match identifiedProjects (analysis output) with
    | Some l => Z.of_nat (length l)
    | None => 0
    end in
  let score := score + Z.min (projectCount * 5) 15 in
  let riskOps :=
    Z.of_nat (length (filter (fun o => operationType o = "add_risk_flag") (operations output))) in
  let oppOps :=
    Z.of_nat (length (filter (fun o => operationType o = "add_opportunity_flag") (operations output))) in
  let score := score + (riskOps + oppOps) * 5 in
  Z.min (Z.max score 0) 100.

End Processor.

(** ** A reference engine

    An executable instance of [JsEngine], used to run the model on
    concrete inputs.  Its numbers are the integers, [NaN] and the
    fractions [0.d1d2...] that [Math.random()] returns; it converts the
    decimal integer literals, the ASCII letters and the timestamps in the
    form [toISOString] prints ([YYYY-MM-DDTHH:mm:ss.sssZ]), on which every
    engine agrees.  The general results below hold for every engine. *)

Module Reference.

Inductive RefNum :=
| RNaN
| RInt (z : Z)
| RFrac (digits : string).

Definition refFalsy (n : RefNum) : bool :=
  match n with
  | RNaN => true
  | RInt z => z =? 0
  | RFrac _ => false
  end.

Fixpoint natDigits (fuel : nat) (n : Z) (acc : string) : string :=
  match fuel with
  | O => acc
  | S fuel' =>
      let acc' := String (ascii_of_nat (Z.to_nat (48 + n mod 10))) acc in
      if n / 10 =? 0 then acc' else natDigits fuel' (n / 10) acc'
  end.

(** The decimal numeral of an integer. *)
Definition decimal (z : Z) : string :=
  let digits := natDigits (S (Z.to_nat (Z.log2 (Z.abs z)))) (Z.abs z) "" in
  if z <? 0 then "-" +:+ digits else digits.

Definition refNumberToString (n : RefNum) : string :=
  match n with
  | RNaN => "NaN"
  | RInt z => decimal z
  | RFrac digits => "0." +:+ digits
  end.

Definition digitsToZ (l : list ascii) : option Z :=
  match l with
  | [] => None
  | _ => Z.of_nat <$> Js.digitsValue l 0
  end.

Definition refStringToNumber (s : string) : RefNum :=
  match list_ascii_of_string s with
  | [] => RInt 0
  | c :: rest =>
      if Ascii.eqb c "-" then
        match digitsToZ rest with Some z => RInt (- z) | None => RNaN end
      else
        match digitsToZ (c :: rest) with Some z => RInt z | None => RNaN end
  end.

Definition mapAscii (f : ascii -> ascii) (s : string) : string :=
  string_of_list_ascii (map f (list_ascii_of_string s)).

Definition lowerAscii (c : ascii) : ascii :=
  let n := nat_of_ascii c in
  if (65 <=? n)%nat && (n <=? 90)%nat then ascii_of_nat (n + 32) else c.

Definition upperAscii (c : ascii) : ascii :=
  let n := nat_of_ascii c in
  if (97 <=? n)%nat && (n <=? 122)%nat then ascii_of_nat (n - 32) else c.

(** Days since the epoch of a civil date, and back (proleptic Gregorian
    calendar). *)
Definition daysFromCivil (y m d : Z) : Z :=
  let y' := if m <=? 2 then y - 1 else y in
  let era := y' / 400 in
  let yoe := y' - era * 400 in
  let doy := (153 * (if 2 <? m then m - 3 else m + 9) + 2) / 5 + d - 1 in
  let doe := yoe * 365 + yoe / 4 - yoe / 100 + doy in
  era * 146097 + doe - 719468.

Definition civilFromDays (days : Z) : Z * Z * Z :=
  let z := days + 719468 in
  let era := z / 146097 in
  let doe := z - era * 146097 in
  let yoe := (doe - doe / 1460 + doe / 36524 - doe / 146096) / 365 in
  let doy := doe - (365 * yoe + yoe / 4 - yoe / 100) in
  let mp := (5 * doy + 2) / 153 in
  let d := doy - (153 * mp + 2) / 5 + 1 in
  let m := if mp <? 10 then mp + 3 else mp - 9 in
  let y := yoe + era * 400 + (if m <=? 2 then 1 else 0) in
  (y, m, d).

Definition isLeap (y : Z) : bool :=
  ((y mod 4 =? 0) && negb (y mod 100 =? 0)) || (y mod 400 =? 0).

Definition daysInMonth (y m : Z) : Z :=
  if m =? 2 then (if isLeap y then 29 else 28)
  else if (m =? 4) || (m =? 6) || (m =? 9) || (m =? 11) then 30
  else 31.

(** [width] decimal digits of [n], zero-padded. *)
Fixpoint padded (width : nat) (n : Z) (acc : string) : string :=
  match width with
  | O => acc
  | S width' => padded width' (n / 10) (String (ascii_of_nat (Z.to_nat (48 + n mod 10))) acc)
  end.

Definition refToISOString (t : Z) : string :=
  let '(y, m, d) := civilFromDays (t / 86400000) in
  let ms := t mod 86400000 in
  let year :=
    if (0 <=? y) && (y <=? 9999) then padded 4 y ""
    else (if y <? 0 then "-" else "+") +:+ padded 6 (Z.abs y) "" in
  year +:+ "-" +:+ padded 2 m "" +:+ "-" +:+ padded 2 d "" +:+ "T"
  +:+ padded 2 (ms / 3600000) "" +:+ ":" +:+ padded 2 (ms / 60000 mod 60) "" +:+ ":"
  +:+ padded 2 (ms / 1000 mod 60) "" +:+ "." +:+ padded 3 (ms mod 1000) "" +:+ "Z".

Definition field (l : list ascii) (from len : nat) : option Z :=
  let digits := take len (drop from l) in
  if (length digits =? len)%nat then digitsToZ digits else None.

Definition charAt (l : list ascii) (i : nat) (c : ascii) : bool :=
  match l !! i with
  | Some c' => Ascii.eqb c c'
  | None => false
  end.

(** The form [YYYY-MM-DDTHH:mm:ss.sssZ]; any other text is not a date for
    the reference engine. *)
Definition refDateParse (s : string) : option Z :=
  let l := list_ascii_of_string s in
  if (length l =? 24)%nat && charAt l 4 "-" && charAt l 7 "-" && charAt l 10 "T"
     && charAt l 13 ":" && charAt l 16 ":" && charAt l 19 "." && charAt l 23 "Z"
  then
    y ← field l 0 4; m ← field l 5 2; d ← field l 8 2;
    hh ← field l 11 2; mm ← field l 14 2; ss ← field l 17 2; ms ← field l 20 3;
    if (1 <=? m) && (m <=? 12) && (1 <=? d) && (d <=? daysInMonth y m)
       && (hh <=? 23) && (mm <=? 59) && (ss <=? 59)
    then Some (daysFromCivil y m d * 86400000 + hh * 3600000 + mm * 60000 + ss * 1000 + ms)
    else None
  else None.

#[global] Instance engine : Js.JsEngine := {|
  Js.num := RefNum;
  Js.numOfZ := RInt;
  Js.NaN := RNaN;
  Js.numFalsy := refFalsy;
  Js.NumberToString := refNumberToString;
  Js.StringToNumber := refStringToNumber;
  Js.toLowerCase := mapAscii lowerAscii;
  Js.toUpperCase := mapAscii upperAscii;
  Js.DateParse := refDateParse;
  Js.toISOString := refToISOString;
|}.


Definition quote : string := String (ascii_of_nat 34) "".

(** [JSON.stringify] on JSON data: a string is quoted (the reference
    engine escapes the quote and the backslash), [NaN] is [null], a
    property whose value is [undefined] is left out, and an [undefined]
    element of an array is [null]. *)
Definition escape (s : string) : string :=
  string_of_list_ascii
    (flat_map (fun c => if Ascii.eqb c (ascii_of_nat 34) || Ascii.eqb c (ascii_of_nat 92)
                        then [ascii_of_nat 92; c] else [c])
              (list_ascii_of_string s)).

Fixpoint commaSeparated (parts : list string) : string :=
  match parts with
  | [] => ""
  | [p] => p
  | p :: rest => p +:+ "," +:+ commaSeparated rest
  end.

Fixpoint stringify (v : Js.JsValue) : string :=
  match v with
  | Js.JUndefined => "null"
  | Js.JNull => "null"
  | Js.JBool true => "true"
  | Js.JBool false => "false"
  | Js.JNum RNaN => "null"
  | Js.JNum n => refNumberToString n
  | Js.JStr s => quote +:+ escape s +:+ quote
  | Js.JArr elems =>
      "[" +:+ commaSeparated
                ((fix each (l : list Js.JsValue) : list string :=
                    match l with
                    | [] => []
                    | x :: rest => stringify x :: each rest
                    end) elems) +:+ "]"
  | Js.JObj props =>
      "{" +:+ commaSeparated
                ((fix each (l : list (string * Js.JsValue)) : list string :=
                    match l with
                    | [] => []
                    | (k, Js.JUndefined) :: rest => each rest
                    | (k, x) :: rest =>
                        (quote +:+ escape k +:+ quote +:+ ":" +:+ stringify x) :: each rest
                    end) props) +:+ "}"
  end.

End Reference.

(** ** The vocabulary of the properties *)

Module Spec.
Import Shared.

(** Some risk flag has severity [s]; some opportunity flag has importance
    [s]. *)
Definition hasSeverity (s : string) (riskFlags : list RiskFlag) : Prop :=
  Exists (fun f => severity f = s) riskFlags.

Definition hasImportance (s : string) (opportunityFlags : list OpportunityFlag) : Prop :=
  Exists (fun f => importance f = s) opportunityFlags.


(** The weighted rule of the importance score, as the specification words
    it. *)
Definition eventTypeWeight (eventType : option string) : Z :=
  match eventType with
  | Some t =>
      if String.eqb t "security" then 30
      else if String.eqb t "regulatory" then 25
      else if String.eqb t "funding" then 20
      else if String.eqb t "legal" then 20
      else 0
  | None => 0
  end.

Definition sentimentWeight (sentiment : option string) : Z :=
  match sentiment with
  | Some s =>
      if String.eqb s "negative" then 15
      else if String.eqb s "positive" then 5
      else 0
  | None => 0
  end.

Definition identifiedCount (output : Bedrock.AIAgentOutput) : Z :=
  Z.of_nat (length (default [] (Bedrock.identifiedProjects (Bedrock.analysis output)))).

Definition isFlagOperation (o : Bedrock.EntityOperation) : bool :=
  match o with
  | Bedrock.add_risk_flag _ _ | Bedrock.add_opportunity_flag _ _ => true
  | _ => false
  end.

Definition flagOperationCount (output : Bedrock.AIAgentOutput) : Z :=
  Z.of_nat (length (List.filter isFlagOperation (Bedrock.operations output))).

Definition clamp (lo hi x : Z) : Z := Z.min (Z.max x lo) hi.

Definition importanceRule (output : Bedrock.AIAgentOutput) : Z :=
  clamp 0 100
    (50 + eventTypeWeight (Bedrock.eventType (Bedrock.analysis output))
        + sentimentWeight (Bedrock.sentiment (Bedrock.analysis output))
        + Z.min (5 * identifiedCount output) 15
        + 5 * flagOperationCount output).


(** The responses the tool-use loop receives in at most [n] rounds from
    the state [s], in order. *)
Fixpoint transcript (invoke : list Bedrock.Message -> Result Bedrock.BedrockResponse)
    (n : nat) (s : Bedrock.LoopState) : list Bedrock.BedrockResponse :=
  match n with
  | O => []
  | S n' =>
      match invoke (Bedrock.messages s) with
      | Throw _ => []
      | Ok response =>
          response ::
          match Bedrock.round invoke s with
          | inr s' => transcript invoke n' s'
          | inl _ => []
          end
      end
  end.

(** The operations the tool calls of a response convert to. *)
Definition operationsOf (response : Bedrock.BedrockResponse) : list Bedrock.EntityOperation :=
  omap (fun toolUse => Bedrock.toolCallToOperation toolUse.2)
       (Bedrock.toolUseBlocks (Bedrock.content response)).

Definition isReport (toolUse : string * Bedrock.ToolCall) : bool :=
  match toolUse.2 with
  | Bedrock.report_analysis _ => true
  | _ => false
  end.

(** The state a round leads to, whichever way the loop goes on. *)
Definition afterRound (r : Result Bedrock.LoopState + Bedrock.LoopState)
  : option Bedrock.LoopState :=
  match r with
  | inl (Ok s) | inr s => Some s
  | inl (Throw _) => None
  end.

(** "Observing a [report_analysis] call ends the loop": the response that
    carries one is the last of the transcript. *)
Definition reportEndsLoop (invoke : list Bedrock.Message -> Result Bedrock.BedrockResponse)
    (userPrompt : string) : Prop :=
  forall (k : nat) (response : Bedrock.BedrockResponse),
    transcript invoke 5 (Bedrock.initialState userPrompt) !! k = Some response ->
    existsb isReport (Bedrock.toolUseBlocks (Bedrock.content response)) = true ->
    length (transcript invoke 5 (Bedrock.initialState userPrompt)) = S k.

Definition reportedAnalysis (input : Bedrock.ReportInput) : Bedrock.Analysis :=
  {| Bedrock.sentiment := Bedrock.rep_sentiment input;
     Bedrock.eventType := Bedrock.rep_eventType input;
     Bedrock.identifiedProjects := Bedrock.rep_identifiedProjects input;
     Bedrock.keyInsights := Bedrock.rep_keyInsights input |}.


(** Every stored entity has its health score in [0,100]. *)
Definition healthScoresInRange (table : gmap string Processor.Project) : Prop :=
  forall (id : string) (p : Processor.Project),
    table !! id = Some p -> 0 <= Processor.healthScore p <= 100.

(** The health score an operation supplies, if it supplies one, is within
    the bounds the schema of [update_project] declares ([minimum: 0],
    [maximum: 100]). *)
Definition scoreWithinSchema (operation : Bedrock.EntityOperation) : Prop :=
  match operation with
  | Bedrock.update _ updates _ =>
      match Bedrock.upd_healthScore updates with
      | Some score => 0 <= score <= 100
      | None => True
      end
  | _ => True
  end.


(** The table of project information holds a record with the id and the
    data hash of [info]. *)
Definition storedUnchanged `{Js.JsEngine} (st : Scheduler.State)
    (info : Types.ProjectInfo) : Prop :=
  exists stored : Types.Item,
    Scheduler.projectInfoTable st !! Types.pi_id info = Some stored
    /\ Types.itemDataHash stored = Types.dataHash info.

(** Every item of [items] is in the table with its data hash. *)
Definition allStored `{Js.JsEngine} (st : Scheduler.State) (items : list Types.Item) : Prop :=
  forall item, item ∈ items ->
    exists stored, Scheduler.projectInfoTable st !! Types.itemId item = Some stored
                   /\ Types.itemDataHash stored = Types.itemDataHash item.

(** "An item that is not stored unchanged is written and exactly one
    message is enqueued." *)
Definition writesAndEnqueues `{Js.JsEngine} (env : Scheduler.ProcessEnv)
    (sourceConfig : Types.SourceConfig) (info : Types.ProjectInfo)
    (st : Scheduler.State) : Prop :=
  ~ storedUnchanged st info ->
  let st' := (Scheduler.processItem env sourceConfig (Types.ProjectInfoItem info) st).2 in
  Scheduler.projectInfoTable st' !! Types.pi_id info = Some (Types.ProjectInfoItem info)
  /\ exists message, Scheduler.queue st' = app (Scheduler.queue st) [message].

Definition projectInfoMessage `{Js.JsEngine} (info : Types.ProjectInfo)
  : Scheduler.SQSMessage :=
  {| Scheduler.msg_type := "project_info"; Scheduler.infoId := Types.pi_id info |}.


(** The minutes elapsed at [now] since the last collection of a source are
    at least its interval. *)
Definition intervalElapsed `{Js.JsEngine} (now : Z) (config : Types.SourceConfig) : Prop :=
  exists lastCollected : Z,
    Types.lastCollectedAt config = Some lastCollected
    /\ (inject_Z (Types.intervalMinutes config) <= (now - lastCollected) # 60000)%Q.

(** The attribute [enabledStr] of a stored source mirrors [enabled], as
    every writer of the table leaves it. *)
Definition enabledStrInSync `{Js.JsEngine} (config : Types.SourceConfig) : Prop :=
  Types.enabledStr config = SourceConfigService.boolStr (Types.enabled config).

Definition tableInSync `{Js.JsEngine} (table : gmap string Types.SourceConfig) : Prop :=
  forall (id : string) (config : Types.SourceConfig),
    table !! id = Some config -> enabledStrInSync config.

Definition ascendingPriority `{Js.JsEngine} (sources : list Types.SourceConfig) : Prop :=
  StronglySorted (fun a b => Types.priority a <= Types.priority b) sources.


(** A request that gives [fetchWithRetry] nothing to return: the network
    fails, the status is 429 or not ok, or the body is not JSON. *)
Definition requestFails `{Js.JsEngine} (o : Outside.HttpOutcome) : Prop :=
  forall data, RestApiCollector.attempt o <> RestApiCollector.Returned data.


(** The fetch of every endpoint of [config] fails, at whatever point of
    the run it is made. *)
Definition everyFetchFails `{Js.JsEngine} (JSON_stringify : Js.JsValue -> string)
    (E : Outside.Env) (sourceConfig : Types.SourceConfig)
    (config : Types.RestApiConfig) : Prop :=
  forall (endpoint : Types.RestApiEndpoint) (w : Outside.World),
    endpoint ∈ Types.endpoints config ->
    isOk (RestApiCollector.fetchEndpoint JSON_stringify E sourceConfig endpoint w).1 = false.


(** The id of a normalized record, when the normalization returns one. *)
Definition idOf `{Js.JsEngine} (r : Result Types.Item) : option string :=
  match r with
  | Ok item => Some (Types.itemId item)
  | Throw _ => None
  end.

(** The id the REST collector gives a record does not depend on the run:
    not on the clock, not on what [Math.random()] returns. *)
Definition deterministicId `{Js.JsEngine} (JSON_stringify : Js.JsValue -> string)
    (sourceConfig : Types.SourceConfig) (endpoint : Types.RestApiEndpoint)
    (item : Js.JsValue) : Prop :=
  forall (now1 now2 : string) (rnd1 rnd2 : Js.num),
    idOf (RestApiCollector.normalizeItem JSON_stringify sourceConfig endpoint now1 rnd1 item)
    = idOf (RestApiCollector.normalizeItem JSON_stringify sourceConfig endpoint now2 rnd2 item).

End Spec.

(** ** Sample inputs *)

Module Samples.
Import Bedrock.

Definition sampleReport : ReportInput :=
  {| rep_sentiment := Some "negative";
     rep_eventType := Some "security";
     rep_identifiedProjects := None;
     rep_keyInsights := None;
     rep_reasoning := Some "exploit" |}.

Definition sampleFlag : RiskFlagInput :=
  {| rfi_type := "security_breach";
     rfi_severity := "critical";
     rfi_description := "bridge exploit";
     rfi_source := None |}.

(** A model that reports its analysis in the first round, with the stop
    reason a response with tool calls carries, and keeps calling a tool in
    every later round. *)
Definition reportsFirst (messages : list Message) : Result BedrockResponse :=
  match messages with
  | [_] =>
      Ok {| content := [ToolUseBlock "toolu_1" (report_analysis sampleReport)];
            stop_reason := "tool_use" |}
  | _ =>
      Ok {| content := [ToolUseBlock "toolu_2" (tool_add_risk_flag "acme" sampleFlag)];
            stop_reason := "tool_use" |}
  end.

(** A model that reports its analysis in the first round and answers the
    acknowledgment with text only. *)
Definition reportsThenStops (messages : list Message) : Result BedrockResponse :=
  match messages with
  | [_] =>
      Ok {| content := [ToolUseBlock "toolu_1" (report_analysis sampleReport)];
            stop_reason := "tool_use" |}
  | _ => Ok {| content := [TextBlock "done"]; stop_reason := "end_turn" |}
  end.

(** A model that reports its analysis and ends its turn. *)
Definition reportsAndEnds (messages : list Message) : Result BedrockResponse :=
  Ok {| content := [ToolUseBlock "toolu_0" (tool_add_risk_flag "acme" sampleFlag);
                    ToolUseBlock "toolu_1" (report_analysis sampleReport)];
        stop_reason := "end_turn" |}.

(** A model that never reports and calls a tool in every round. *)
Definition neverReports (messages : list Message) : Result BedrockResponse :=
  Ok {| content := [TextBlock "thinking";
                    ToolUseBlock "toolu_n" (tool_add_risk_flag "acme" sampleFlag)];
        stop_reason := "tool_use" |}.


Definition sampleStamp : Processor.Stamp :=
  {| Processor.iso := "2025-01-01T00:00:00.000Z";
     Processor.millis := "1735689600000";
     Processor.random9 := "k3j2h1g9f" |}.

Definition acme : CreateEntity :=
  {| entity_id := "acme"; entity_name := "Acme"; entity_category := "defi";
     entity_description := None; entity_logo := None; entity_website := None;
     entity_twitter := None |}.

(** A store with the one entity [acme], as [create] inserts it. *)
Definition acmeStore : gmap string Processor.Project :=
  (Processor.executeOperation sampleStamp (create acme) ∅).2.

Definition overTheTop : EntityOperation :=
  update "acme"
    {| upd_healthScore := Some 150; upd_status := None; upd_newsSentiment := None |}
    "strong quarter".


(** An upstream record, the source it comes from and its normal form. *)
Definition alphaRecord : Js.JsValue :=
  Js.JObj [("id", Js.JStr "alpha"); ("name", Js.JStr "Alpha");
           ("tvl", Js.JNum (Reference.RInt 100))].

Definition defillama : Types.SourceConfig :=
  {| Types.sc_id := "project_info:defillama";
     Types.sc_type := "project_info";
     Types.sourceId := "defillama";
     Types.sc_name := "DefiLlama";
     Types.enabled := true;
     Types.enabledStr := "true";
     Types.collectorType := "api:rest";
     Types.config :=
       Types.RestApi
         {| Types.baseUrl := "https://api.llama.fi";
            Types.endpoints :=
              [{| Types.path := "/protocols"; Types.method := "GET";
                  Types.mapping := [("id", Types.SimplePath "id");
                                    ("name", Types.SimplePath "name")];
                  Types.limit := Some 100%nat |}];
            Types.requestDelay := None |};
     Types.intervalMinutes := 15;
     Types.priority := 20;
     Types.lastCollectedAt := None;
     Types.lastCollectStatus := None;
     Types.lastCollectError := None;
     Types.stats := None;
     Types.createdAt := 1735689600000;
     Types.updatedAt := 1735689600000 |}.

(** [defillama] as last collected at [lastCollected], enabled or not. *)
Definition collectedAt (lastCollected : option Z) (enabled : bool) : Types.SourceConfig :=
  {| Types.sc_id := Types.sc_id defillama;
     Types.sc_type := Types.sc_type defillama;
     Types.sourceId := Types.sourceId defillama;
     Types.sc_name := Types.sc_name defillama;
     Types.enabled := enabled;
     Types.enabledStr := SourceConfigService.boolStr enabled;
     Types.collectorType := Types.collectorType defillama;
     Types.config := Types.config defillama;
     Types.intervalMinutes := 15;
     Types.priority := Types.priority defillama;
     Types.lastCollectedAt := lastCollected;
     Types.lastCollectStatus := None;
     Types.lastCollectError := None;
     Types.stats := None;
     Types.createdAt := Types.createdAt defillama;
     Types.updatedAt := Types.updatedAt defillama |}.

(** A clock reading, and the readings 10 and 16 minutes before it. *)
Definition noon : Z := 1735732800000.
Definition tenMinutesAgo : Z := noon - 10 * 60000.
Definition sixteenMinutesAgo : Z := noon - 16 * 60000.

Definition alphaInfo : Types.ProjectInfo :=
  {| Types.pi_id := "defillama:alpha";
     Types.pi_source := "defillama";
     Types.pi_sourceId := "alpha";
     Types.pi_rawData := alphaRecord;
     Types.pi_name := "Alpha";
     Types.pi_logo := None;
     Types.pi_website := None;
     Types.pi_description := None;
     Types.pi_sourceCategory := None;
     Types.pi_twitter := None;
     Types.pi_tokenSymbol := None;
     Types.pi_collectedAt := "2025-01-01T00:00:00.000Z";
     Types.pi_processedStatus := "pending";
     Types.dataHash := Some "1x2y3z" |}.

(** A record without [id], [slug] or [symbol], and the endpoint it comes
    from. *)
Definition namelessRecord : Js.JsValue :=
  Js.JObj [("name", Js.JStr "Alpha"); ("tvl", Js.JNum (Reference.RInt 100))].

Definition protocols : Types.RestApiEndpoint :=
  {| Types.path := "/protocols"; Types.method := "GET";
     Types.mapping := [("id", Types.SimplePath "id"); ("name", Types.SimplePath "name")];
     Types.limit := Some 100%nat |}.

Definition coindesk : Types.SourceConfig :=
  {| Types.sc_id := "market_info:rss:coindesk";
     Types.sc_type := "market_info";
     Types.sourceId := "rss:coindesk";
     Types.sc_name := "CoinDesk";
     Types.enabled := true;
     Types.enabledStr := "true";
     Types.collectorType := "rss";
     Types.config :=
       Types.Rss {| Types.url := "https://www.coindesk.com/arc/outboundfeeds/rss/";
                    Types.maxItems := Some 20%nat;
                    Types.userAgent := None;
                    Types.language := Some "en" |};
     Types.intervalMinutes := 15;
     Types.priority := 10;
     Types.lastCollectedAt := None;
     Types.lastCollectStatus := None;
     Types.lastCollectError := None;
     Types.stats := None;
     Types.createdAt := 1735689600000;
     Types.updatedAt := 1735689600000 |}.

(** A record whose date field is empty, and a mapping that reads it as a
    date. *)
Definition undatedRecord : Js.JsValue :=
  Js.JObj [("id", Js.JStr "a"); ("listedAt", Js.JStr "")].

Definition datedMapping : Types.FieldMapping :=
  [("id", Types.SimplePath "id");
   ("listedAt", Types.ComplexRule {| Types.rule_source := "listedAt";
                                     Types.transform := Some "date";
                                     Types.rule_default := Js.JUndefined |})].

(** A run in which the network is down. *)
Definition networkDown : Outside.Env :=
  {| Outside.net := fun _ => Outside.NetworkFailure (TypeError "fetch failed");
     Outside.random := fun _ => Reference.RFrac "5";
     Outside.clock := fun _ => noon |}.

Definition start : Outside.World :=
  {| Outside.requests := 0; Outside.draws := 0; Outside.ticks := 0 |}.

Definition emptyState : Scheduler.State :=
  {| Scheduler.projectInfoTable := ∅;
     Scheduler.marketInfoTable := ∅;
     Scheduler.sourceConfigTable := ∅;
     Scheduler.queue := [];
     Scheduler.announced := [] |}.

Definition noQueue : Scheduler.ProcessEnv := {| Scheduler.INFO_QUEUE_URL := None |}.

Definition withQueue : Scheduler.ProcessEnv :=
  {| Scheduler.INFO_QUEUE_URL := Some "https://sqs.example/info.fifo" |}.

End Samples.

(** ** More of packages/shared *)

Module SharedMore.
Import Shared.

(** [s.split(sep)] for a one-character separator: the segments between
    its occurrences; always at least one. *)
Fixpoint splitOn (sep : ascii) (s : string) : list string :=
  match s with
  | EmptyString => [""]
  | String c rest =>
      if Ascii.eqb c sep then "" :: splitOn sep rest
      else match splitOn sep rest with
           | [] => [String c ""]
           | seg :: segs => String c seg :: segs
           end
  end.

(** [parts.join(sep)] *)
Fixpoint joinWith (sep : string) (parts : list string) : string :=
  match parts with
  | [] => ""
  | [p] => p
  | p :: rest => p +:+ sep +:+ joinWith sep rest
  end.

(** [parseSourceConfigId]: the type and the source id of an id, [None]
    for its [null]. *)
Definition parseSourceConfigId (id : string) : option (string * string) :=
  let parts := splitOn ":" id in
  if (length parts <? 2)%nat then None
  else match parts with
       | [] => None
       | type :: rest =>
           if negb (String.eqb type "project_info") && negb (String.eqb type "market_info")
           then None
           else Some (type, joinWith ":" rest)
       end.

(** [severityOrder.indexOf(severity)] for
    [severityOrder = ['critical', 'high', 'medium', 'low']]. *)
Definition severityIndex (s : string) : Z :=
  if String.eqb s "critical" then 0
  else if String.eqb s "high" then 1
  else if String.eqb s "medium" then 2
  else if String.eqb s "low" then 3
  else -1.

(** [getMostSevereRisk]: a [reduce] without initial value, from the first
    flag on. *)
Definition getMostSevereRisk (riskFlags : list RiskFlag) : option RiskFlag :=
  match riskFlags with
  | [] => None
  | first :: rest =>
      Some (fold_left
              (fun most current =>
                 let mostIndex := severityIndex (severity most) in
                 let currentIndex := severityIndex (severity current) in
                 if currentIndex <? mostIndex then current else most)
              rest first)
  end.


(** [sortByHealthScore]: a sorted copy, descending unless [ascending]. *)
Definition sortByHealthScore (projects : list Processor.Project) (ascending : bool)
  : list Processor.Project :=
  Scheduler.sortBy
    (fun p => if ascending then Processor.healthScore p else - Processor.healthScore p)
    projects.

(** [filterByCategory] *)
Definition filterByCategory (projects : list Processor.Project) (categories : list string)
  : list Processor.Project :=
  match categories with
  | [] => projects
  | _ => List.filter
           (fun p => existsb (String.eqb (Processor.project_category p)) categories)
           projects
  end.

End SharedMore.

(** ** More of the RSS collector (collectors/rss.ts) *)

Module RssMore.
Import Types.

Section WithEngine.
Context `{Js.JsEngine}.

(** [RssCollector.validateConfig]: the errors it reports. *)
Definition validateConfig (config : RssConfig) : list string :=
  let errors : list string := [] in
  let errors :=
    if String.eqb (url config) "" then app errors ["RSS URL is required"]
    else if negb (String.prefix "http://" (url config))
            && negb (String.prefix "https://" (url config))
    then app errors ["RSS URL must start with http:// or https://"]
    else errors in
  let errors :=
    match maxItems config with
    | Some n =>
        if (n <? 1)%nat || (100 <? n)%nat
        then app errors ["maxItems must be between 1 and 100"]
        else errors
    | None => errors
    end in
  errors.

(** [maxItems] as [collect] reads it: [config.maxItems || 20]. *)
Definition itemCap (config : RssConfig) : nat :=
  match maxItems config with Some (S n) => S n | _ => 20%nat end.

End WithEngine.
End RssMore.

(** ** The processor of the AI agent (ai-agent/services/processor.ts,
    services/dynamodb.ts) *)

Module Pipeline.
Import Js Types Bedrock Processor.

Section WithEngine.
Context `{JsEngine}.

(** An item of the ProjectInfo table: what the collector stored, and the
    attributes [updateProjectInfoStatus] sets. *)
Record ProjectInfoRow := {
  prow_info : ProjectInfo;
  prow_processedAt : option string;
  projectEntityId : option string;
  prow_aiReasoning : option string;
  prow_processError : option string;
}.

(** An item of the MarketInfo table: what the collector stored, and the
    attributes [updateMarketInfoStatus] sets. *)
Record MarketInfoRow := {
  mrow_info : MarketInfo;
  mrow_processedAt : option string;
  relatedProjectIds : option (list string);
  mrow_sentiment : option string;
  mrow_eventType : option string;
  aiSummary : option string;
  importanceScore : option Z;
  mrow_aiReasoning : option string;
  mrow_processError : option string;
}.

(** The tables of the agent, and the number of readings of the clock so
    far. *)
Record Store := {
  store_projects : gmap string Project;
  store_projectInfo : gmap string ProjectInfoRow;
  store_marketInfo : gmap string MarketInfoRow;
  readings : nat;
}.

(** The second parameter of [updateProjectInfoStatus]. *)
Record ProjectAnalysisResults := {
  par_entityId : option string;
  par_reasoning : option string;
}.

(** The second parameter of [updateMarketInfoStatus]. *)
Record MarketAnalysisResults := {
  mar_relatedProjectIds : option (list string);
  mar_sentiment : option string;
  mar_eventType : option string;
  mar_aiSummary : option string;
  mar_importanceScore : option Z;
  mar_reasoning : option string;
}.

(** What the processor reads from the outside at the [k]-th reading of
    the clock. *)
Variable stampAt : nat -> Stamp.

(** [invokeModelWithTools] and the text [buildUserPrompt] builds. *)
Variable invokeModelWithTools : list Message -> Result BedrockResponse.
Variable buildUserPrompt : string -> Item -> list Project -> string.

Definition getProjectInfo (st : Store) (id : string) : option ProjectInfoRow :=
  store_projectInfo st !! id.

Definition getMarketInfo (st : Store) (id : string) : option MarketInfoRow :=
  store_marketInfo st !! id.

Definition withProjectInfoStatus (info : ProjectInfo) (status : string) : ProjectInfo :=
  {| pi_id := pi_id info;
     pi_source := pi_source info;
     pi_sourceId := pi_sourceId info;
     pi_rawData := pi_rawData info;
     pi_name := pi_name info;
     pi_logo := pi_logo info;
     pi_website := pi_website info;
     pi_description := pi_description info;
     pi_sourceCategory := pi_sourceCategory info;
     pi_twitter := pi_twitter info;
     pi_tokenSymbol := pi_tokenSymbol info;
     pi_collectedAt := pi_collectedAt info;
     pi_processedStatus := status;
     dataHash := dataHash info |}.

Definition withMarketInfoStatus (info : MarketInfo) (status : string) : MarketInfo :=
  {| mi_id := mi_id info;
     mi_source := mi_source info;
     mi_rawData := mi_rawData info;
     mi_title := mi_title info;
     mi_content := mi_content info;
     mi_url := mi_url info;
     mi_publishedAt := mi_publishedAt info;
     mi_author := mi_author info;
     mi_tags := mi_tags info;
     mi_language := mi_language info;
     mi_collectedAt := mi_collectedAt info;
     mi_processedStatus := status;
     contentHash := contentHash info;
     mi_ttl := mi_ttl info;
     mi_publishedDate := mi_publishedDate info |}.

(** An attribute that is set only when the value is truthy: a string that
    is there and not empty. *)
Definition setIfTruthy (value : option string) (old : option string) : option string :=
  match RssCollector.nonEmpty value with
  | Some v => Some v
  | None => old
  end.

(** [updateProjectInfoStatus]: the [SET] expression on the item.  The
    callers have read the item with [getProjectInfo] first. *)
Definition updateProjectInfoStatus (id status : string)
    (analysisResults : option ProjectAnalysisResults) (error : option string)
    (st : Store) : Store :=
  let now := iso (stampAt (readings st)) in
  let update (row : ProjectInfoRow) : ProjectInfoRow :=
    {| prow_info := withProjectInfoStatus (prow_info row) status;
       prow_processedAt := Some now;
       projectEntityId :=
         setIfTruthy (analysisResults ≫= par_entityId) (projectEntityId row);
       prow_aiReasoning :=
         setIfTruthy (analysisResults ≫= par_reasoning) (prow_aiReasoning row);
       prow_processError := setIfTruthy error (prow_processError row) |} in
  {| store_projects := store_projects st;
     store_projectInfo := alter update id (store_projectInfo st);
     store_marketInfo := store_marketInfo st;
     readings := S (readings st) |}.

(** [updateMarketInfoStatus] *)
Definition updateMarketInfoStatus (id status : string)
    (analysisResults : option MarketAnalysisResults) (error : option string)
    (st : Store) : Store :=
  let now := iso (stampAt (readings st)) in
  let update (row : MarketInfoRow) : MarketInfoRow :=
    {| mrow_info := withMarketInfoStatus (mrow_info row) status;
       mrow_processedAt := Some now;
       relatedProjectIds :=
         match analysisResults ≫= mar_relatedProjectIds with
         | Some ids => Some ids
         | None => relatedProjectIds row
         end;
       mrow_sentiment := setIfTruthy (analysisResults ≫= mar_sentiment) (mrow_sentiment row);
       mrow_eventType := setIfTruthy (analysisResults ≫= mar_eventType) (mrow_eventType row);
       aiSummary := setIfTruthy (analysisResults ≫= mar_aiSummary) (aiSummary row);
       importanceScore :=
         match analysisResults ≫= mar_importanceScore with
         | Some score => Some score
         | None => importanceScore row
         end;
       mrow_aiReasoning :=
         setIfTruthy (analysisResults ≫= mar_reasoning) (mrow_aiReasoning row);
       mrow_processError := setIfTruthy error (mrow_processError row) |} in
  {| store_projects := store_projects st;
     store_projectInfo := store_projectInfo st;
     store_marketInfo := alter update id (store_marketInfo st);
     readings := S (readings st) |}.

(** [getProjectsByCategory]: the query on the index [category-index]. *)
Definition getProjectsByCategory (table : gmap string Project) (category : string)
  : list Project :=
  filter (fun p => project_category p = category) (map_to_list table).*2.

Definition categories : list string :=
  ["cex"; "dex"; "defi"; "layer1"; "layer2"; "stablecoin";
   "wallet"; "infrastructure"; "payment"; "market_maker"].

(** [getExistingProjectsSummary]: [projectLists.flat()]. *)
Definition getExistingProjectsSummary (table : gmap string Project) : list Project :=
  concat (map (getProjectsByCategory table) categories).

(** [analyzeProjectInfo] and [analyzeMarketInfo] *)
Definition analyzeProjectInfo (info : ProjectInfo) (existingProjects : list Project)
  : Result AIAgentOutput :=
  analyzeWithTools invokeModelWithTools
    (buildUserPrompt "project_info" (ProjectInfoItem info) existingProjects).

Definition analyzeMarketInfo (info : MarketInfo) (existingProjects : list Project)
  : Result AIAgentOutput :=
  analyzeWithTools invokeModelWithTools
    (buildUserPrompt "market_info" (MarketInfoItem info) existingProjects).

(** One [await executeOperation(operation)]: the id it returns, and the
    store afterwards. *)
Definition execute (operation : EntityOperation) (st : Store) : option string * Store :=
  let '(result, table) :=
    executeOperation (stampAt (readings st)) operation (store_projects st) in
  (result,
   {| store_projects := table;
      store_projectInfo := store_projectInfo st;
      store_marketInfo := store_marketInfo st;
      readings := S (readings st) |}).

(** The loop over [output.operations] of [processProjectInfo], with the
    variable [entityId]. *)
Fixpoint executeTracking (ops : list EntityOperation) (entityId : option string)
    (st : Store) : option string * Store :=
  match ops with
  | [] => (entityId, st)
  | operation :: rest =>
      let '(result, st1) := execute operation st in
      let entityId :=
        if String.eqb (operationType operation) "create"
           && bool_decide (is_Some (RssCollector.nonEmpty result))
        then result else entityId in
      executeTracking rest entityId st1
  end.

(** The loop over [output.operations] of [processMarketInfo]. *)
Fixpoint executeEach (ops : list EntityOperation) (st : Store) : Store :=
  match ops with
  | [] => st
  | operation :: rest => executeEach rest (execute operation st).2
  end.

(** [processProjectInfo]; the exception it throws again, if any. *)
Definition processProjectInfo (infoId : string) (st : Store) : Result unit * Store :=
  match getProjectInfo st infoId with
  | None => (Ok tt, st)
  | Some row =>
      let info := prow_info row in
      if String.eqb (pi_processedStatus info) "processed" then (Ok tt, st)
      else
        let st := updateProjectInfoStatus infoId "processing" None None st in
        let existingProjects := getExistingProjectsSummary (store_projects st) in
        match analyzeProjectInfo info existingProjects with
        | Ok output =>
            let '(entityId, st) := executeTracking (operations output) None st in
            (Ok tt,
             updateProjectInfoStatus infoId "processed"
               (Some {| par_entityId := entityId; par_reasoning := Some (reasoning output) |})
               None st)
        | Throw error =>
            (Throw error,
             updateProjectInfoStatus infoId "failed" None (Some (errorMessage error)) st)
        end
  end.

(** [identifiedProjects?.filter(p => p.entityId && p.confidence > 0.7)
    .map(p => p.entityId) || []].  No double lies between the double
    nearest to 0.7 and 7/10, so that on doubles the comparison with the
    literal is the comparison with 7/10. *)
Definition relatedIds (identified : option (list IdentifiedProject)) : list string :=
  match identified with
  | Some projects =>
      omap (fun p =>
              match RssCollector.nonEmpty (ip_entityId p) with
              | Some entityId =>
                  if negb (Qle_bool (ip_confidence p) (7 # 10)) then Some entityId else None
              | None => None
              end) projects
  | None => []
  end.

(** [processMarketInfo] *)
Definition processMarketInfo (infoId : string) (st : Store) : Result unit * Store :=
  match getMarketInfo st infoId with
  | None => (Ok tt, st)
  | Some row =>
      let info := mrow_info row in
      if String.eqb (mi_processedStatus info) "processed" then (Ok tt, st)
      else
        let st := updateMarketInfoStatus infoId "processing" None None st in
        let existingProjects := getExistingProjectsSummary (store_projects st) in
        match analyzeMarketInfo info existingProjects with
        | Ok output =>
            let st := executeEach (operations output) st in
            let relatedProjectIds := relatedIds (identifiedProjects (analysis output)) in
            (Ok tt,
             updateMarketInfoStatus infoId "processed"
               (Some {| mar_relatedProjectIds := Some relatedProjectIds;
                        mar_sentiment := sentiment (analysis output);
                        mar_eventType := eventType (analysis output);
                        mar_aiSummary :=
                          SharedMore.joinWith "; " <$> keyInsights (analysis output);
                        mar_importanceScore := Some (calculateImportanceScore output);
                        mar_reasoning := Some (reasoning output) |})
               None st)
        | Throw error =>
            (Throw error,
             updateMarketInfoStatus infoId "failed" None (Some (errorMessage error)) st)
        end
  end.

(** [processInfo] *)
Definition processInfo (message : Scheduler.SQSMessage) (st : Store)
  : Result unit * Store :=
  if String.eqb (Scheduler.msg_type message) "project_info"
  then processProjectInfo (Scheduler.infoId message) st
  else if String.eqb (Scheduler.msg_type message) "market_info"
  then processMarketInfo (Scheduler.infoId message) st
  else (Ok tt, st).

End WithEngine.
End Pipeline.

(** ** More of the coordinator (collector/scheduler.ts) *)

Module SchedulerMore.
Import Js Types Outside SourceConfigService Scheduler.

Section WithEngine.
Context `{JsEngine}.
Variable rssCollector restApiCollector : Collector.

(** [handleSingleSourceCollection]: the status code of the response;
    [id] is [event.pathParameters?.id]. *)
Definition handleSingleSourceCollection (env : ProcessEnv) (E : Env) (id : option string)
    (w : World) (st : State) : Z * World * State :=
  match RssCollector.nonEmpty id with
  | None => (400, w, st)
  | Some sourceId =>
      match getSourceConfig (sourceConfigTable st) sourceId with
      | None => (404, w, st)
      | Some sourceConfig =>
          let '(result, w', st') :=
            collectFromSource rssCollector restApiCollector env E sourceConfig w st in
          (if bool_decide (is_Some (RssCollector.nonEmpty (summary_error result)))
           then 500 else 200,
           w', st')
      end
  end.

End WithEngine.
End SchedulerMore.

(** ** More vocabulary of the properties *)

Module SpecMore.

(** The polynomial hash of base 31 over the code units, unbounded. *)
Definition polyHash (codes : list Z) : Z :=
  fold_left (fun h c => 31 * h + c) codes 0.

(** The records of a response: the elements of an array, or the one
    value. *)
Definition recordsOf `{Js.JsEngine} (data : Js.JsValue) : list Js.JsValue :=
  match data with Js.JArr elems => elems | _ => [data] end.

Definition processedStatusOf `{Js.JsEngine} (item : Types.Item) : string :=
  match item with
  | Types.ProjectInfoItem info => Types.pi_processedStatus info
  | Types.MarketInfoItem info => Types.mi_processedStatus info
  end.

Definition collectedAtOf `{Js.JsEngine} (item : Types.Item) : string :=
  match item with
  | Types.ProjectInfoItem info => Types.pi_collectedAt info
  | Types.MarketInfoItem info => Types.mi_collectedAt info
  end.

(** A mapping entry that has no transform. *)
Definition plainEntry `{Js.JsEngine} (entry : Types.MappingEntry) : Prop :=
  match entry with
  | Types.SimplePath _ => True
  | Types.ComplexRule rule => Types.transform rule = None
  end.

(** The entity an operation addresses. *)
Definition entityIdOf (operation : Bedrock.EntityOperation) : string :=
  match operation with
  | Bedrock.create entity => Bedrock.entity_id entity
  | Bedrock.update entityId _ _
  | Bedrock.add_event entityId _
  | Bedrock.add_risk_flag entityId _
  | Bedrock.add_opportunity_flag entityId _ => entityId
  end.

(** The number of [add_event] operations of a sequence that address [id]. *)
Fixpoint eventCount (id : string)
    (ops : list (Processor.Stamp * Bedrock.EntityOperation)) : nat :=
  match ops with
  | [] => 0
  | (_, Bedrock.add_event entityId _) :: rest =>
      if String.eqb entityId id then S (eventCount id rest) else eventCount id rest
  | _ :: rest => eventCount id rest
  end.

(** What makes two flags duplicates of each other. *)
Definition riskKey (f : Shared.RiskFlag) : string * string :=
  (Shared.risk_type f, Shared.risk_description f).

Definition opportunityKey (f : Shared.OpportunityFlag) : string * string :=
  (Shared.opp_type f, Shared.opp_description f).

(** No entity carries two flags of the same type and description. *)
Definition flagsDistinct (table : gmap string Processor.Project) : Prop :=
  forall (id : string) (p : Processor.Project),
    table !! id = Some p ->
    NoDup (map riskKey (Processor.riskFlags p))
    /\ NoDup (map opportunityKey (Processor.opportunityFlags p)).

(** The tool result the loop of [analyzeWithTools] answers a tool call
    with. *)
Definition acknowledge (toolUse : string * Bedrock.ToolCall) : Bedrock.ToolResult :=
  {| Bedrock.tool_use_id := toolUse.1;
     Bedrock.result_content :=
       match toolUse.2 with
       | Bedrock.report_analysis _ => Bedrock.AnalysisReceived
       | call =>
           match Bedrock.toolCallToOperation call with
           | Some _ => Bedrock.OperationRecorded (Bedrock.toolName call)
           | None => Bedrock.UnknownTool
           end
       end |}.

(** The two messages a response with tool calls adds to the conversation;
    a response without tool calls adds none. *)
Definition exchange (response : Bedrock.BedrockResponse) : list Bedrock.Message :=
  match Bedrock.toolUseBlocks (Bedrock.content response) with
  | [] => []
  | blocks => [Bedrock.AssistantMessage (Bedrock.content response);
               Bedrock.ToolResults (map acknowledge blocks)]
  end.

(** The inputs of the [report_analysis] calls of a response, in order. *)
Definition reportsOf (response : Bedrock.BedrockResponse) : list Bedrock.ReportInput :=
  omap (fun toolUse : string * Bedrock.ToolCall =>
          match toolUse.2 with
          | Bedrock.report_analysis input => Some input
          | _ => None
          end)
       (Bedrock.toolUseBlocks (Bedrock.content response)).

(** The analysis and the reasoning after a sequence of reports. *)
Definition afterReports (reports : list Bedrock.ReportInput)
    (before : Bedrock.Analysis * string) : Bedrock.Analysis * string :=
  match last reports with
  | Some input => (Spec.reportedAnalysis input, default "" (Bedrock.rep_reasoning input))
  | None => before
  end.

(** The type of the messages [processCollectorResult] sends for a source:
    every source that is not of type [project_info] is handled as
    [market_info]. *)
Definition messageKind `{Js.JsEngine} (sourceConfig : Types.SourceConfig) : string :=
  if String.eqb (Types.sc_type sourceConfig) "project_info"
  then "project_info" else "market_info".



(** The operations of an output with the stamps they read, the first at
    the reading [k]. *)
Definition stamped (stampAt : nat -> Processor.Stamp) (k : nat)
    (ops : list Bedrock.EntityOperation)
  : list (Processor.Stamp * Bedrock.EntityOperation) :=
  imap (fun i operation => (stampAt (k + i)%nat, operation)) ops.

(** The ids of the [create] operations of a sequence that
    [processProjectInfo] takes as the entity of the record: those that
    are not empty. *)
Definition createdIds (ops : list Bedrock.EntityOperation) : list string :=
  omap (fun operation =>
          match operation with
          | Bedrock.create entity => RssCollector.nonEmpty (Some (Bedrock.entity_id entity))
          | _ => None
          end) ops.

End SpecMore.

(** ** More sample data *)

Module SamplesMore.
Import Bedrock.

(** The entity [acme] as [create] stores it. *)
Definition acmeProject : Processor.Project :=
  {| Processor.project_id := "acme";
     Processor.project_name := "Acme";
     Processor.project_category := "defi";
     Processor.project_description := None;
     Processor.project_logo := None;
     Processor.project_website := None;
     Processor.project_twitter := None;
     Processor.status := "normal";
     Processor.healthScore := 70;
     Processor.newsSentiment := "neutral";
     Processor.recentEvents := [];
     Processor.riskFlags := [];
     Processor.opportunityFlags := [];
     Processor.lastUpdated := Processor.iso Samples.sampleStamp;
     Processor.createdAt := Processor.iso Samples.sampleStamp |}.

Definition listing : EventInput :=
  {| ev_title := "Listing"; ev_description := "listed on a new venue";
     ev_date := "2025-01-01"; ev_source := "coindesk"; ev_sourceUrl := None;
     ev_sentiment := "positive"; ev_eventType := "listing" |}.

(** A collector whose feed cannot be reached, and a state in which the
    source [coindesk] is stored. *)
Definition unreachable : Scheduler.Collector :=
  fun _ _ w => (RestApiCollector.failedResult "feed unreachable", w).

Definition coindeskStored : Scheduler.State :=
  {| Scheduler.projectInfoTable := ∅;
     Scheduler.marketInfoTable := ∅;
     Scheduler.sourceConfigTable := {[ Types.sc_id Samples.coindesk := Samples.coindesk ]};
     Scheduler.queue := [];
     Scheduler.announced := [] |}.

(** A feed that answers, and a parser that finds two items of the same
    title and link. *)
Definition headline : RssCollector.FeedItem :=
  {| RssCollector.title := "Bridge exploit";
     RssCollector.link := Some "https://www.coindesk.com/bridge-exploit";
     RssCollector.description := "first report";
     RssCollector.pubDate := None;
     RssCollector.author := None;
     RssCollector.category := None |}.

Definition headlineUpdated : RssCollector.FeedItem :=
  {| RssCollector.title := "Bridge exploit";
     RssCollector.link := Some "https://www.coindesk.com/bridge-exploit";
     RssCollector.description := "updated report";
     RssCollector.pubDate := None;
     RssCollector.author := None;
     RssCollector.category := None |}.

Definition feedUp : Outside.Env :=
  {| Outside.net := fun _ => Outside.HttpResponse 200 "OK" "<rss/>" (Throw (Error "not JSON"));
     Outside.random := fun _ => Reference.RFrac "5";
     Outside.clock := fun _ => Samples.noon |}.

Definition coindeskFeed : Types.RssConfig :=
  {| Types.url := "https://www.coindesk.com/arc/outboundfeeds/rss/";
     Types.maxItems := Some 20%nat;
     Types.userAgent := None;
     Types.language := Some "en" |}.

(** A news item as the collector stored it, and the store of the agent
    that holds it beside the entity [acme]. *)
Definition exploitNews : Types.MarketInfo :=
  {| Types.mi_id := "coindesk-1x2y3z";
     Types.mi_source := "rss:coindesk";
     Types.mi_rawData := Js.JObj [("title", Js.JStr "Bridge exploit")];
     Types.mi_title := "Bridge exploit";
     Types.mi_content := "first report";
     Types.mi_url := Some "https://www.coindesk.com/bridge-exploit";
     Types.mi_publishedAt := "2025-01-01T12:00:00.000Z";
     Types.mi_author := None;
     Types.mi_tags := None;
     Types.mi_language := Some "en";
     Types.mi_collectedAt := "2025-01-01T12:00:00.000Z";
     Types.mi_processedStatus := "pending";
     Types.contentHash := Some "1x2y3z";
     Types.mi_ttl := Some 1738324800;
     Types.mi_publishedDate := Some "2025-01-01" |}.

Definition agentStore : Pipeline.Store :=
  {| Pipeline.store_projects := Samples.acmeStore;
     Pipeline.store_projectInfo :=
       {[ "defillama:alpha" :=
            {| Pipeline.prow_info := Samples.alphaInfo;
               Pipeline.prow_processedAt := None;
               Pipeline.projectEntityId := None;
               Pipeline.prow_aiReasoning := None;
               Pipeline.prow_processError := None |} ]};
     Pipeline.store_marketInfo :=
       {[ "coindesk-1x2y3z" :=
            {| Pipeline.mrow_info := exploitNews;
               Pipeline.mrow_processedAt := None;
               Pipeline.relatedProjectIds := None;
               Pipeline.mrow_sentiment := None;
               Pipeline.mrow_eventType := None;
               Pipeline.aiSummary := None;
               Pipeline.importanceScore := None;
               Pipeline.mrow_aiReasoning := None;
               Pipeline.mrow_processError := None |} ]};
     Pipeline.readings := 0 |}.

Definition exploitMessage : Scheduler.SQSMessage :=
  {| Scheduler.msg_type := "market_info"; Scheduler.infoId := "coindesk-1x2y3z" |}.

Definition atNoon (k : nat) : Processor.Stamp := Samples.sampleStamp.

Definition fixedPrompt (infoType : string) (info : Types.Item)
    (existingProjects : list Processor.Project) : string := "analyse".


(** An upstream that answers every request with one record. *)
Definition apiUp : Outside.Env :=
  {| Outside.net := fun _ =>
       Outside.HttpResponse 200 "OK" "" (Ok (Js.JArr [Samples.alphaRecord]));
     Outside.random := fun _ => Reference.RFrac "5";
     Outside.clock := fun _ => Samples.noon |}.

End SamplesMore.

(** * Properties *)

(** ** Status derivation (shared/src/utils) *)

Section StatusDerivation.
Import Shared Spec.

Lemma some_severity s riskFlags :
  existsb (fun f => String.eqb (severity f) s) riskFlags = true <-> hasSeverity s riskFlags.
Proof.
  unfold hasSeverity. induction riskFlags as [|f l IH]; simpl.
  - rewrite Exists_nil. split; [discriminate | tauto].
  - rewrite Exists_cons, orb_true_iff, IH, String.eqb_eq. tauto.
Qed.

Lemma some_importance s opportunityFlags :
  existsb (fun f => String.eqb (importance f) s) opportunityFlags = true
  <-> hasImportance s opportunityFlags.
Proof.
  unfold hasImportance. induction opportunityFlags as [|f l IH]; simpl.
  - rewrite Exists_nil. split; [discriminate | tauto].
  - rewrite Exists_cons, orb_true_iff, IH, String.eqb_eq. tauto.
Qed.

Lemma no_severity s riskFlags :
  existsb (fun f => String.eqb (severity f) s) riskFlags = false <-> ~ hasSeverity s riskFlags.
Proof. rewrite <- some_severity. destruct (existsb _ _); split; congruence. Qed.

Lemma no_importance s opportunityFlags :
  existsb (fun f => String.eqb (importance f) s) opportunityFlags = false
  <-> ~ hasImportance s opportunityFlags.
Proof. rewrite <- some_importance. destruct (existsb _ _); split; congruence. Qed.

Ltac settle_status :=
  repeat split; auto; intros;
  repeat match goal with
         | H : ~ (_ \/ _) |- _ => apply Decidable.not_or in H; destruct H
         | H : _ \/ _ |- _ => destruct H
         end;
  try tauto; try lia.

Lemma critical_is_danger healthScore riskFlags opportunityFlags :
  hasSeverity "critical" riskFlags ->
  determineProjectStatus healthScore riskFlags opportunityFlags = "danger".
Proof.
  intros Hc. apply some_severity in Hc.
  unfold determineProjectStatus. rewrite Hc. reflexivity.
Qed.

(** C3. [determineProjectStatus] returns one of the four statuses, chosen
    by the ordered precedence: a critical risk gives danger; else a high
    risk or a score below 30 gives danger; else a medium risk or a score
    below 50 gives warning; else a high-importance opportunity or a score
    of at least 80 gives watch; else normal.  And it is monotonic: with a
    critical risk flag added anywhere to the risk flags, the status is
    danger. *)
Theorem C3_determineProjectStatus_precedence :
  forall (healthScore : Z) (riskFlags : list RiskFlag)
         (opportunityFlags : list OpportunityFlag),
    let status := determineProjectStatus healthScore riskFlags opportunityFlags in
    (status = "normal" \/ status = "watch" \/ status = "warning" \/ status = "danger")
    /\ (hasSeverity "critical" riskFlags -> status = "danger")
    /\ (~ hasSeverity "critical" riskFlags ->
        hasSeverity "high" riskFlags \/ healthScore < 30 -> status = "danger")
    /\ (~ hasSeverity "critical" riskFlags ->
        ~ (hasSeverity "high" riskFlags \/ healthScore < 30) ->
        hasSeverity "medium" riskFlags \/ healthScore < 50 -> status = "warning")
    /\ (~ hasSeverity "critical" riskFlags ->
        ~ (hasSeverity "high" riskFlags \/ healthScore < 30) ->
        ~ (hasSeverity "medium" riskFlags \/ healthScore < 50) ->
        hasImportance "high" opportunityFlags \/ healthScore >= 80 -> status = "watch")
    /\ (~ hasSeverity "critical" riskFlags ->
        ~ (hasSeverity "high" riskFlags \/ healthScore < 30) ->
        ~ (hasSeverity "medium" riskFlags \/ healthScore < 50) ->
        ~ (hasImportance "high" opportunityFlags \/ healthScore >= 80) -> status = "normal")
    /\ (forall (flag : RiskFlag) (before after : list RiskFlag),
          app before after = riskFlags ->
          severity flag = "critical" ->
          determineProjectStatus healthScore (app before (flag :: after)) opportunityFlags
          = "danger").
Proof.
  intros healthScore riskFlags opportunityFlags status.
  match goal with
  | |- _ /\ _ /\ _ /\ _ /\ _ /\ _ /\ ?M => set (Monotonic := M)
  end.
  assert (Hmono : Monotonic).
  { intros flag before after _ Hflag. apply critical_is_danger.
    apply Exists_app. right. left. exact Hflag. }
  clearbody Monotonic.
  subst status. unfold determineProjectStatus.
  destruct (existsb _ riskFlags) eqn:Hc.
  { apply some_severity in Hc. settle_status. }
  apply no_severity in Hc.
  destruct (existsb _ riskFlags) eqn:Hh; simpl.
  { apply some_severity in Hh. settle_status. }
  apply no_severity in Hh.
  destruct (healthScore <? 30) eqn:H30; simpl.
  { apply Z.ltb_lt in H30. settle_status. }
  apply Z.ltb_ge in H30.
  destruct (existsb _ riskFlags) eqn:Hm; simpl.
  { apply some_severity in Hm. settle_status. }
  apply no_severity in Hm.
  destruct (healthScore <? 50) eqn:H50; simpl.
  { apply Z.ltb_lt in H50. settle_status. }
  apply Z.ltb_ge in H50.
  destruct (existsb _ opportunityFlags) eqn:Ho; simpl.
  { apply some_importance in Ho. settle_status. }
  apply no_importance in Ho.
  destruct (healthScore >=? 80) eqn:H80; simpl.
  { apply Z.geb_le in H80. settle_status. }
  rewrite Z.geb_leb in H80. apply Z.leb_gt in H80.
  settle_status.
Qed.

End StatusDerivation.

(** ** Importance score (services/processor.ts) *)

Section ImportanceScore.
Import Bedrock Processor Spec.

Lemma flag_operations_split (ops : list EntityOperation) :
  Z.of_nat (length (filter (fun o => operationType o = "add_risk_flag") ops))
  + Z.of_nat (length (filter (fun o => operationType o = "add_opportunity_flag") ops))
  = Z.of_nat (length (List.filter isFlagOperation ops)).
Proof.
  induction ops as [|o ops IH]; [reflexivity|].
  rewrite !filter_cons. destruct o; simpl;
    repeat case_decide; try discriminate; simpl; lia.
Qed.

(** C6. The importance score [calculateImportanceScore] computes is the
    weighted rule: base 50; plus 30 for a security, 25 for a regulatory,
    20 for a funding and 20 for a legal event; plus 15 for a negative and
    5 for a positive sentiment; plus 5 per identified project, at most 15
    in all; plus 5 per add_risk_flag or add_opportunity_flag operation;
    the sum clamped to [0,100]. *)
Theorem C6_calculateImportanceScore_rule :
  forall output : AIAgentOutput,
    calculateImportanceScore output = importanceRule output
    /\ 0 <= calculateImportanceScore output <= 100.
Proof.
  intros output. split.
  - unfold calculateImportanceScore, importanceRule, clamp, flagOperationCount,
      identifiedCount.
    rewrite <- flag_operations_split.
    destruct (eventType (analysis output)) as [t|];
      destruct (sentiment (analysis output)) as [s|];
      destruct (identifiedProjects (analysis output)) as [l|]; simpl;
      repeat case_bool_decide; simplify_eq; simpl;
      repeat match goal with
             | |- context [String.eqb ?a ?b] =>
                 destruct (String.eqb_spec a b); simplify_eq
             end;
      lia.
  - unfold calculateImportanceScore. lia.
Qed.

End ImportanceScore.

(** ** The tool-use loop (services/bedrock.ts) *)

Section ToolUseLoop.
Import Bedrock Spec.

Variable invoke : list Message -> Result BedrockResponse.

(** What [processToolUse] leaves alone. *)
Lemma processToolUse_frame s toolUse :
  messages (processToolUse s toolUse) = messages s
  /\ requestsSent (processToolUse s toolUse) = requestsSent s.
Proof. destruct toolUse as [id []]; simpl; auto. Qed.

Lemma processToolUse_operations s toolUse :
  st_operations (processToolUse s toolUse)
  = app (st_operations s) (from_option (fun o => [o]) [] (toolCallToOperation toolUse.2)).
Proof. destruct toolUse as [id []]; simpl; rewrite ?app_nil_r; reflexivity. Qed.

Lemma fold_processToolUse_frame blocks s :
  messages (fold_left processToolUse blocks s) = messages s
  /\ requestsSent (fold_left processToolUse blocks s) = requestsSent s.
Proof.
  revert s. induction blocks as [|b blocks IH]; intros s; simpl; [auto|].
  destruct (IH (processToolUse s b)) as [-> ->]. apply processToolUse_frame.
Qed.

Lemma fold_processToolUse_operations blocks s :
  st_operations (fold_left processToolUse blocks s)
  = app (st_operations s) (omap (fun toolUse => toolCallToOperation toolUse.2) blocks).
Proof.
  revert s. induction blocks as [|b blocks IH]; intros s; simpl.
  - rewrite app_nil_r. reflexivity.
  - rewrite IH, processToolUse_operations.
    destruct (toolCallToOperation b.2); simpl; rewrite <- ?app_assoc; reflexivity.
Qed.

(** A tool call other than [report_analysis] leaves the analysis. *)
Lemma processToolUse_keeps_analysis s toolUse :
  isReport toolUse = false ->
  st_analysis (processToolUse s toolUse) = st_analysis s
  /\ st_reasoning (processToolUse s toolUse) = st_reasoning s.
Proof. destruct toolUse as [id []]; simpl; auto; discriminate. Qed.

Lemma fold_processToolUse_keeps_analysis blocks s :
  forallb (fun b => negb (isReport b)) blocks = true ->
  st_analysis (fold_left processToolUse blocks s) = st_analysis s
  /\ st_reasoning (fold_left processToolUse blocks s) = st_reasoning s.
Proof.
  revert s. induction blocks as [|b blocks IH]; intros s Hall; simpl; [auto|].
  simpl in Hall. apply andb_true_iff in Hall as [Hb Hall].
  destruct (IH (processToolUse s b) Hall) as [-> ->].
  apply processToolUse_keeps_analysis. destruct (isReport b); [discriminate | reflexivity].
Qed.

Lemma round_effect s response :
  invoke (messages s) = Ok response ->
  exists s', afterRound (round invoke s) = Some s'
    /\ requestsSent s' = S (requestsSent s)
    /\ st_operations s' = app (st_operations s) (operationsOf response).
Proof.
  intros Hr. unfold round. rewrite Hr. unfold operationsOf.
  destruct (toolUseBlocks (content response)) as [|b blocks] eqn:Hb.
  - eexists; split; [reflexivity|]. simpl. rewrite app_nil_r. auto.
  - set (s0 := {| messages := messages s; st_operations := st_operations s;
                  st_analysis := st_analysis s; st_reasoning := st_reasoning s;
                  st_toolResults := []; requestsSent := S (requestsSent s) |}).
    assert (Hreq : requestsSent (fold_left processToolUse (b :: blocks) s0)
                   = S (requestsSent s))
      by (destruct (fold_processToolUse_frame (b :: blocks) s0) as [_ ->]; reflexivity).
    assert (Hops : st_operations (fold_left processToolUse (b :: blocks) s0)
                   = app (st_operations s)
                         (omap (fun toolUse => toolCallToOperation toolUse.2) (b :: blocks)))
      by (rewrite fold_processToolUse_operations; reflexivity).
    destruct (String.eqb (stop_reason response) "end_turn");
      eexists; (split; [reflexivity|]); simpl; split; assumption.
Qed.

(** The loop, one round unfolded. *)
Lemma toolUseLoop_step n s :
  toolUseLoop invoke (S n) s
  = match round invoke s with
    | inl done => done
    | inr s' => toolUseLoop invoke n s'
    end.
Proof. reflexivity. Qed.

Lemma toolUseLoop_transcript n s s' :
  toolUseLoop invoke n s = Ok s' ->
  requestsSent s' = (requestsSent s + length (transcript invoke n s))%nat
  /\ st_operations s'
     = app (st_operations s) (flat_map operationsOf (transcript invoke n s)).
Proof.
  revert s. induction n as [|n IH]; intros s Hloop.
  - simpl in *. injection Hloop as <-. rewrite app_nil_r. split; [lia | reflexivity].
  - rewrite toolUseLoop_step in Hloop. simpl transcript.
    destruct (invoke (messages s)) as [response|e] eqn:Hr.
    + destruct (round_effect s response Hr) as (s1 & Hafter & Hreq & Hops).
      destruct (round invoke s) as [[s2|e]|s2]; simpl in Hafter; simplify_eq.
      * simpl. rewrite app_nil_r. split; [lia | assumption].
      * destruct (IH _ Hloop) as [Hreq' Hops']. simpl.
        rewrite Hreq', Hops', Hreq, Hops, <- app_assoc. split; [lia | reflexivity].
    + unfold round in Hloop. rewrite Hr in Hloop. discriminate.
Qed.

Lemma transcript_length n s : (length (transcript invoke n s) <= n)%nat.
Proof.
  revert s. induction n as [|n IH]; intros s; simpl; [lia|].
  destruct (invoke (messages s)); simpl; [|lia].
  destruct (round invoke s); simpl; [lia|]. specialize (IH l). lia.
Qed.

(** The loop returns when no request throws. *)
Lemma toolUseLoop_returns n s :
  (forall messages, isOk (invoke messages) = true) ->
  exists s', toolUseLoop invoke n s = Ok s'.
Proof.
  intros Hok. revert s. induction n as [|n IH]; intros s.
  - eexists; reflexivity.
  - rewrite toolUseLoop_step. unfold round.
    specialize (Hok (messages s)). destruct (invoke (messages s)); [|discriminate].
    destruct (toolUseBlocks (content a)); [eexists; reflexivity|].
    destruct (String.eqb (stop_reason a) "end_turn"); [eexists; reflexivity|].
    apply IH.
Qed.

(** A model that calls a tool in every round and never ends its turn
    keeps the loop going for all its rounds. *)
Lemma transcript_full n s :
  (forall messages, exists response,
      invoke messages = Ok response
      /\ toolUseBlocks (content response) <> []
      /\ stop_reason response <> "end_turn") ->
  length (transcript invoke n s) = n.
Proof.
  intros Hbusy. revert s. induction n as [|n IH]; intros s; simpl; [reflexivity|].
  destruct (Hbusy (messages s)) as (response & Hr & Hblocks & Hstop).
  unfold round. rewrite Hr.
  destruct (toolUseBlocks (content response)); [congruence|].
  destruct (String.eqb_spec (stop_reason response) "end_turn"); [congruence|].
  simpl. rewrite IH. reflexivity.
Qed.

(** A response without tool calls ends the loop at once. *)
Lemma no_tool_call_breaks n s response :
  invoke (messages s) = Ok response ->
  toolUseBlocks (content response) = [] ->
  exists s', toolUseLoop invoke (S n) s = Ok s'
    /\ requestsSent s' = S (requestsSent s)
    /\ st_operations s' = st_operations s
    /\ st_analysis s' = st_analysis s
    /\ st_reasoning s' = st_reasoning s.
Proof.
  intros Hr Hnone. rewrite toolUseLoop_step. unfold round. rewrite Hr, Hnone.
  eexists. split; [reflexivity|]. simpl. auto.
Qed.

End ToolUseLoop.

(** C2. Whatever the model answers, the loop of [analyzeWithTools]
    receives at most 5 responses (sends at most 5 requests) and then ends;
    what it returns holds the operations
    of every tool call of every response received, in order; it returns
    whenever no request throws; a model that calls a tool in every round
    and never reports gets exactly 5 rounds; and a response without tool
    calls ends the loop at once. *)
Theorem C2_toolUseLoop_bounded :
  forall (invoke : list Bedrock.Message -> Result Bedrock.BedrockResponse)
         (userPrompt : string),
    let received := Spec.transcript invoke 5 (Bedrock.initialState userPrompt) in
    (length received <= 5)%nat
    /\ (forall s, Bedrock.runToolUseLoop invoke userPrompt = Ok s ->
       (Bedrock.requestsSent s <= 5)%nat
       /\ Bedrock.requestsSent s = length received
       /\ Bedrock.analyzeWithTools invoke userPrompt = Ok (Bedrock.output s)
       /\ Bedrock.operations (Bedrock.output s) = flat_map Spec.operationsOf received)
    /\ ((forall messages, isOk (invoke messages) = true) ->
        exists s, Bedrock.runToolUseLoop invoke userPrompt = Ok s)
    /\ ((forall messages, exists response,
           invoke messages = Ok response
           /\ Bedrock.toolUseBlocks (Bedrock.content response) <> []
           /\ Bedrock.stop_reason response <> "end_turn") ->
        exists s, Bedrock.runToolUseLoop invoke userPrompt = Ok s
                  /\ Bedrock.requestsSent s = 5%nat)
    /\ (forall (n : nat) (s : Bedrock.LoopState) (response : Bedrock.BedrockResponse),
          invoke (Bedrock.messages s) = Ok response ->
          Bedrock.toolUseBlocks (Bedrock.content response) = [] ->
          exists s', Bedrock.toolUseLoop invoke (S n) s = Ok s'
            /\ Bedrock.requestsSent s' = S (Bedrock.requestsSent s)
            /\ Bedrock.st_operations s' = Bedrock.st_operations s).
Proof.
  intros invoke userPrompt received. subst received.
  assert (Hrun : forall s, Bedrock.runToolUseLoop invoke userPrompt = Ok s ->
            Bedrock.requestsSent s
            = length (Spec.transcript invoke 5 (Bedrock.initialState userPrompt))
            /\ Bedrock.st_operations s
               = flat_map Spec.operationsOf
                   (Spec.transcript invoke 5 (Bedrock.initialState userPrompt))).
  { intros s Hs. apply toolUseLoop_transcript in Hs. exact Hs. }
  split; [apply transcript_length|].
  split; [|split; [|split]].
  - intros s Hs. destruct (Hrun s Hs) as [Hreq Hops].
    pose proof (transcript_length invoke 5 (Bedrock.initialState userPrompt)).
    repeat split; try assumption; try lia.
    unfold Bedrock.analyzeWithTools. rewrite Hs. reflexivity.
  - intros Hok. apply toolUseLoop_returns. exact Hok.
  - intros Hbusy.
    destruct (toolUseLoop_returns invoke 5 (Bedrock.initialState userPrompt)) as [s Hs].
    { intros m. destruct (Hbusy m) as (r & -> & _). reflexivity. }
    exists s. split; [exact Hs|].
    destruct (Hrun s Hs) as [-> _]. apply transcript_full. exact Hbusy.
  - intros n s response Hr Hnone.
    destruct (no_tool_call_breaks invoke n s response Hr Hnone) as (s' & H1 & H2 & H3 & _).
    exists s'. auto.
Qed.

(** The model that never reports: five rounds, five operations kept. *)
Example neverReports_five_rounds :
  match Bedrock.runToolUseLoop Samples.neverReports "analyse" with
  | Ok s => Bedrock.requestsSent s = 5%nat /\ length (Bedrock.st_operations s) = 5%nat
  | Throw _ => False
  end.
Proof. vm_compute. split; reflexivity. Qed.

(** A model that reports in the first round and, once the report is
    acknowledged, answers with text only: the acknowledgment costs a
    second round. *)
Example reportsThenStops_two_rounds :
  match Bedrock.runToolUseLoop Samples.reportsThenStops "analyse" with
  | Ok s => Bedrock.requestsSent s = 2%nat
            /\ Bedrock.st_analysis s = Spec.reportedAnalysis Samples.sampleReport
  | Throw _ => False
  end.
Proof. vm_compute. split; reflexivity. Qed.

(** C1, as stated, fails: the model [reportsFirst] reports its analysis in
    the first round, and the loop sends four more requests. *)
Lemma C1_report_does_not_end_loop :
  ~ Spec.reportEndsLoop Samples.reportsFirst "analyse".
Proof.
  intros Hends.
  specialize (Hends 0%nat
    {| Bedrock.content :=
         [Bedrock.ToolUseBlock "toolu_1" (Bedrock.report_analysis Samples.sampleReport)];
       Bedrock.stop_reason := "tool_use" |} eq_refl eq_refl).
  vm_compute in Hends. discriminate.
Qed.

(** C1, amended. A [report_analysis] call sets the analysis and the
    reasoning (the last call of the response wins).  The loop ends with
    that round, whatever the rounds left, when the response has the stop
    reason [end_turn]; with another stop reason the loop goes on to the
    next round with the analysis kept in its state. *)
Theorem C1_report_analysis_amended :
  forall (invoke : list Bedrock.Message -> Result Bedrock.BedrockResponse)
         (n : nat) (s : Bedrock.LoopState) (response : Bedrock.BedrockResponse)
         (before after : list (string * Bedrock.ToolCall))
         (id : string) (input : Bedrock.ReportInput),
    invoke (Bedrock.messages s) = Ok response ->
    Bedrock.toolUseBlocks (Bedrock.content response)
    = app before ((id, Bedrock.report_analysis input) :: after) ->
    forallb (fun b => negb (Spec.isReport b)) after = true ->
    exists s2,
      Bedrock.st_analysis s2 = Spec.reportedAnalysis input
      /\ Bedrock.st_reasoning s2 = default "" (Bedrock.rep_reasoning input)
      /\ Bedrock.requestsSent s2 = S (Bedrock.requestsSent s)
      /\ Bedrock.toolUseLoop invoke (S n) s
         = if String.eqb (Bedrock.stop_reason response) "end_turn"
           then Ok s2
           else Bedrock.toolUseLoop invoke n s2.
Proof.
  intros invoke n s response before after id input Hr Hblocks Hafter.
  rewrite toolUseLoop_step. unfold Bedrock.round. rewrite Hr, Hblocks.
  set (s0 := {| Bedrock.messages := Bedrock.messages s;
                Bedrock.st_operations := Bedrock.st_operations s;
                Bedrock.st_analysis := Bedrock.st_analysis s;
                Bedrock.st_reasoning := Bedrock.st_reasoning s;
                Bedrock.st_toolResults := [];
                Bedrock.requestsSent := S (Bedrock.requestsSent s) |}).
  set (blocks := app before ((id, Bedrock.report_analysis input) :: after)).
  assert (Hanalysis :
    Bedrock.st_analysis (fold_left Bedrock.processToolUse blocks s0)
    = Spec.reportedAnalysis input
    /\ Bedrock.st_reasoning (fold_left Bedrock.processToolUse blocks s0)
       = default "" (Bedrock.rep_reasoning input)).
  { subst blocks. rewrite fold_left_app. cbn [fold_left].
    destruct (fold_processToolUse_keeps_analysis after
                (Bedrock.processToolUse (fold_left Bedrock.processToolUse before s0)
                   (id, Bedrock.report_analysis input)) Hafter) as [-> ->].
    split; reflexivity. }
  assert (Hreq : Bedrock.requestsSent (fold_left Bedrock.processToolUse blocks s0)
                 = S (Bedrock.requestsSent s))
    by (destruct (fold_processToolUse_frame blocks s0) as [_ ->]; reflexivity).
  destruct Hanalysis as [Ha Hre].
  destruct blocks as [|b blocks'] eqn:Hb.
  { subst blocks. destruct before; discriminate. }
  rewrite <- Hb in *.
  eexists. split; [|split; [|split]]; cycle 3.
  { destruct (String.eqb (Bedrock.stop_reason response) "end_turn"); reflexivity. }
  all: simpl; assumption.
Qed.

Lemma C1_report_analysis_amended_witness :
  exists s2,
    Bedrock.st_analysis s2 = Spec.reportedAnalysis Samples.sampleReport
    /\ Bedrock.st_reasoning s2 = "exploit"
    /\ Bedrock.requestsSent s2 = 1%nat
    /\ Bedrock.toolUseLoop Samples.reportsAndEnds 5 (Bedrock.initialState "analyse") = Ok s2.
Proof.
  exact (C1_report_analysis_amended Samples.reportsAndEnds 4
           (Bedrock.initialState "analyse")
           {| Bedrock.content :=
                [Bedrock.ToolUseBlock "toolu_0"
                   (Bedrock.tool_add_risk_flag "acme" Samples.sampleFlag);
                 Bedrock.ToolUseBlock "toolu_1" (Bedrock.report_analysis Samples.sampleReport)];
              Bedrock.stop_reason := "end_turn" |}
           [("toolu_0", Bedrock.tool_add_risk_flag "acme" Samples.sampleFlag)] []
           "toolu_1" Samples.sampleReport eq_refl eq_refl eq_refl).
Defined.

(** ** The entity mutation engine (services/processor.ts, services/dynamodb.ts) *)

Section MutationEngine.
Import Bedrock Processor Spec.

Lemma updateProject_lookup now id updates (table : gmap string Project) j :
  updateProject now id updates table !! j
  = if decide (id = j) then applyUpdates now updates <$> table !! j else table !! j.
Proof.
  unfold updateProject. rewrite lookup_alter. case_decide; [subst|]; reflexivity.
Qed.

Lemma applyUpdates_healthScore now updates p :
  healthScore (applyUpdates now updates p)
  = default (healthScore p) (set_healthScore updates).
Proof. reflexivity. Qed.

(** An update that sets no health score keeps the invariant. *)
Lemma updateProject_keeps_range now id updates table :
  set_healthScore updates = None ->
  healthScoresInRange table ->
  healthScoresInRange (updateProject now id updates table).
Proof.
  intros Hnone Hinv j p. rewrite updateProject_lookup.
  case_decide; [|apply Hinv].
  destruct (table !! j) as [q|] eqn:Hq; simpl; [|discriminate].
  intros [= <-]. rewrite applyUpdates_healthScore, Hnone. simpl. eapply Hinv, Hq.
Qed.

Lemma executeOperation_keeps_range stamp operation table :
  scoreWithinSchema operation ->
  healthScoresInRange table ->
  healthScoresInRange (executeOperation stamp operation table).2.
Proof.
  intros Hschema Hinv.
  destruct operation as [entity|entityId updates reason|entityId event
                        |entityId flag|entityId flag]; simpl.
  - destruct (getProject table (entity_id entity)); simpl.
    + apply updateProject_keeps_range; [reflexivity | assumption].
    + intros j p. unfold createProject. simpl.
      rewrite lookup_insert. case_decide; [|apply Hinv].
      intros [= <-]. simpl. lia.
  - destruct (getProject table entityId) as [existing|] eqn:Hex; simpl; [|assumption].
    intros j p. rewrite updateProject_lookup. case_decide; [|apply Hinv].
    destruct (table !! j) as [q|] eqn:Hq; simpl; [|discriminate].
    intros [= <-]. rewrite applyUpdates_healthScore. simpl.
    simpl in Hschema. destruct (upd_healthScore updates); simpl; [assumption|].
    eapply Hinv, Hq.
  - unfold addProjectEvent. destruct (getProject table entityId); [|assumption].
    apply updateProject_keeps_range; [reflexivity | assumption].
  - unfold addRiskFlag. destruct (getProject table entityId); [|assumption].
    destruct (negb _); [|assumption].
    apply updateProject_keeps_range; [reflexivity | assumption].
  - unfold addOpportunityFlag. destruct (getProject table entityId); [|assumption].
    destruct (negb _); [|assumption].
    apply updateProject_keeps_range; [reflexivity | assumption].
Qed.

Lemma acmeStore_in_range : healthScoresInRange Samples.acmeStore.
Proof.
  apply (executeOperation_keeps_range Samples.sampleStamp (create Samples.acme) ∅).
  - exact I.
  - intros id p. rewrite lookup_empty. discriminate.
Qed.

End MutationEngine.

(** C8, as stated, fails: the engine stores the health score of an update
    as it is; on the entity [acme], created with the score 70, the update
    [overTheTop] stores 150. *)
Lemma C8_update_stores_score_unchecked :
  Spec.healthScoresInRange Samples.acmeStore
  /\ Processor.healthScore
       <$> (Processor.executeOperations [(Samples.sampleStamp, Samples.overTheTop)]
              Samples.acmeStore) !! "acme" = Some 150
  /\ ~ Spec.healthScoresInRange
         (Processor.executeOperations [(Samples.sampleStamp, Samples.overTheTop)]
            Samples.acmeStore).
Proof.
  assert (H150 : Processor.healthScore
       <$> (Processor.executeOperations [(Samples.sampleStamp, Samples.overTheTop)]
              Samples.acmeStore) !! "acme" = Some 150) by (vm_compute; reflexivity).
  split; [|split; [exact H150|]].
  - exact acmeStore_in_range.
  - intros Hinv.
    destruct (Processor.executeOperations _ _ !! "acme") as [p|] eqn:Hp; [|discriminate].
    injection H150 as H150. specialize (Hinv "acme" p Hp). lia.
Qed.

(** C8, amended. The engine keeps every stored health score in [0,100]
    through every sequence of operations in which each update that
    supplies a health score supplies one in [0,100], the bounds of the
    tool schema; it does not clamp or check the score itself.  A newly
    created entity has the score 70, an update stores the score it
    supplies, and the other operations leave the score as it is. *)
Theorem C8_healthScore_in_range_amended :
  forall (ops : list (Processor.Stamp * Bedrock.EntityOperation))
         (table : gmap string Processor.Project),
    Spec.healthScoresInRange table ->
    Forall (fun '(_, operation) => Spec.scoreWithinSchema operation) ops ->
    Spec.healthScoresInRange (Processor.executeOperations ops table)
    /\ (forall stamp entity,
          table !! Bedrock.entity_id entity = None ->
          Processor.healthScore
            <$> (Processor.executeOperation stamp (Bedrock.create entity) table).2
                !! Bedrock.entity_id entity = Some 70)
    /\ (forall stamp entityId updates reason p score,
          table !! entityId = Some p ->
          Bedrock.upd_healthScore updates = Some score ->
          Processor.healthScore
            <$> (Processor.executeOperation stamp
                   (Bedrock.update entityId updates reason) table).2 !! entityId
          = Some score)
    /\ (forall stamp operation id p,
          table !! id = Some p ->
          match operation with
          | Bedrock.update _ updates _ => Bedrock.upd_healthScore updates = None
          | _ => True
          end ->
          Processor.healthScore
            <$> (Processor.executeOperation stamp operation table).2 !! id
          = Some (Processor.healthScore p)).
Proof.
  intros ops table Hinv Hops. split; [|split; [|split]].
  - revert table Hinv. induction Hops as [|[stamp operation] ops Hop _ IH];
      intros table Hinv; [exact Hinv|].
    unfold Processor.executeOperations. simpl. apply IH.
    apply executeOperation_keeps_range; assumption.
  - intros stamp entity Hnew. simpl. unfold Processor.getProject. rewrite Hnew. simpl.
    unfold Processor.createProject. simpl. rewrite lookup_insert_eq. reflexivity.
  - intros stamp entityId updates reason p score Hp Hscore. simpl.
    unfold Processor.getProject. rewrite Hp. simpl.
    rewrite updateProject_lookup, decide_True by reflexivity. rewrite Hp. simpl.
    rewrite Hscore. reflexivity.
  - intros stamp operation id p Hp Hnone.
    assert (Hupd : forall now j updates,
               Processor.set_healthScore updates = None ->
               Processor.healthScore <$> Processor.updateProject now j updates table !! id
               = Some (Processor.healthScore p)).
    { intros now j updates Hn. rewrite updateProject_lookup.
      case_decide; rewrite Hp; simpl; [rewrite Hn|]; reflexivity. }
    destruct operation as [entity|entityId updates reason|entityId event
                          |entityId flag|entityId flag]; simpl.
    + destruct (Processor.getProject table (Bedrock.entity_id entity)) eqn:Hex; simpl.
      * apply Hupd. reflexivity.
      * unfold Processor.createProject. simpl. unfold Processor.getProject in Hex.
        rewrite lookup_insert_ne by congruence. rewrite Hp. reflexivity.
    + destruct (Processor.getProject table entityId); simpl;
        [apply Hupd; exact Hnone | rewrite Hp; reflexivity].
    + unfold Processor.addProjectEvent. destruct (Processor.getProject table entityId);
        [apply Hupd; reflexivity | rewrite Hp; reflexivity].
    + unfold Processor.addRiskFlag. destruct (Processor.getProject table entityId);
        [|rewrite Hp; reflexivity].
      destruct (negb _); [apply Hupd; reflexivity | rewrite Hp; reflexivity].
    + unfold Processor.addOpportunityFlag.
      destruct (Processor.getProject table entityId); [|rewrite Hp; reflexivity].
      destruct (negb _); [apply Hupd; reflexivity | rewrite Hp; reflexivity].
Qed.

Lemma C8_healthScore_in_range_amended_witness :
  Spec.healthScoresInRange
    (Processor.executeOperations
       [(Samples.sampleStamp,
         Bedrock.update "acme"
           {| Bedrock.upd_healthScore := Some 35; Bedrock.upd_status := Some "warning";
              Bedrock.upd_newsSentiment := None |} "exploit");
        (Samples.sampleStamp, Bedrock.add_risk_flag "acme" Samples.sampleFlag)]
       Samples.acmeStore).
Proof.
  refine (proj1 (C8_healthScore_in_range_amended _ Samples.acmeStore _ _)).
  - exact acmeStore_in_range.
  - repeat constructor; simpl; lia.
Defined.

(** ** Idempotent persistence (scheduler.ts) *)

Section Persistence.
Import Js Types Scheduler Spec.
Context `{JsEngine}.

Lemma isDuplicateProjectInfo_spec (st : State) (info : ProjectInfo) :
  isDuplicateProjectInfo st (ProjectInfoItem info) = true <-> storedUnchanged st info.
Proof.
  unfold isDuplicateProjectInfo, GetCommand, storedUnchanged. simpl.
  destruct (projectInfoTable st !! pi_id info) as [stored|].
  - rewrite bool_decide_eq_true. split.
    + intros Heq. exists stored. auto.
    + intros (stored' & [= <-] & Heq). exact Heq.
  - split; [discriminate|]. intros (stored & Hnone & _). discriminate.
Qed.

Lemma isDuplicate_after_put (st : State) (info : ProjectInfo) :
  isDuplicateProjectInfo (putProjectInfo (ProjectInfoItem info) st) (ProjectInfoItem info)
  = true.
Proof.
  apply isDuplicateProjectInfo_spec. exists (ProjectInfoItem info). simpl.
  rewrite lookup_insert_eq. auto.
Qed.

Lemma isDuplicate_sendToQueue env message (st : State) info :
  isDuplicateProjectInfo (sendToQueue env message st) info = isDuplicateProjectInfo st info.
Proof. unfold sendToQueue. destruct (negb _); reflexivity. Qed.

(** **** A whole collector result, persisted twice *)

Variable env : ProcessEnv.
Variable sourceConfig : SourceConfig.
Hypothesis project_info_source : sc_type sourceConfig = "project_info".

Lemma processItem_project_info item (st : State) :
  processItem env sourceConfig item st
  = if isDuplicateProjectInfo st item then (false, st)
    else (true, sendToQueue env {| msg_type := "project_info"; infoId := itemId item |}
                  (putProjectInfo item st)).
Proof.
  unfold processItem, saveProjectInfo. rewrite project_info_source. simpl.
  destruct (isDuplicateProjectInfo st item); reflexivity.
Qed.

Lemma sendToQueue_table message (st : State) :
  projectInfoTable (sendToQueue env message st) = projectInfoTable st.
Proof. unfold sendToQueue. destruct (negb _); reflexivity. Qed.

Lemma isDuplicate_stored item (st : State) :
  isDuplicateProjectInfo st item = true
  <-> exists stored, projectInfoTable st !! itemId item = Some stored
                     /\ itemDataHash stored = itemDataHash item.
Proof.
  unfold isDuplicateProjectInfo, GetCommand.
  destruct (projectInfoTable st !! itemId item) as [stored|].
  - rewrite bool_decide_eq_true. split.
    + intros Heq. exists stored. auto.
    + intros (stored' & [= <-] & Heq). exact Heq.
  - split; [discriminate|]. intros (stored & Hnone & _). discriminate.
Qed.

(** After an item is handled it is in the table with its data hash, and
    the records under other ids are as before. *)
Lemma processItem_stores item (st : State) :
  exists stored,
    projectInfoTable (processItem env sourceConfig item st).2 !! itemId item = Some stored
    /\ itemDataHash stored = itemDataHash item.
Proof.
  rewrite processItem_project_info.
  destruct (isDuplicateProjectInfo st item) eqn:Hdup; simpl.
  - apply isDuplicate_stored. exact Hdup.
  - exists item. rewrite sendToQueue_table. simpl. rewrite lookup_insert_eq. auto.
Qed.

Lemma processItem_other item (st : State) j :
  j <> itemId item ->
  projectInfoTable (processItem env sourceConfig item st).2 !! j = projectInfoTable st !! j.
Proof.
  intros Hne. rewrite processItem_project_info.
  destruct (isDuplicateProjectInfo st item); simpl; [reflexivity|].
  rewrite sendToQueue_table. simpl. rewrite lookup_insert_ne by congruence. reflexivity.
Qed.

Lemma processBatch_other items (st : State) j :
  j ∉ map itemId items ->
  projectInfoTable (processBatch env sourceConfig items st).2 !! j
  = projectInfoTable st !! j.
Proof.
  revert st. induction items as [|item items IH]; intros st Hj; [reflexivity|].
  simpl in *. apply not_elem_of_cons in Hj as [Hne Hj].
  destruct (processItem env sourceConfig item st) as [r st1] eqn:H1.
  destruct (processBatch env sourceConfig items st1) as [rs st2] eqn:H2. simpl.
  specialize (IH st1 Hj). rewrite H2 in IH. simpl in IH. rewrite IH.
  pose proof (processItem_other item st j Hne) as Ho. rewrite H1 in Ho. exact Ho.
Qed.

Lemma processBatch_stores items (st : State) :
  NoDup (map itemId items) ->
  allStored (processBatch env sourceConfig items st).2 items.
Proof.
  revert st. induction items as [|item items IH]; intros st Hnodup it Hin.
  - apply elem_of_nil in Hin. contradiction.
  - simpl in Hnodup. apply NoDup_cons in Hnodup as [Hfresh Hnodup]. simpl.
    destruct (processItem env sourceConfig item st) as [r st1] eqn:H1.
    destruct (processBatch env sourceConfig items st1) as [rs st2] eqn:H2. simpl.
    apply elem_of_cons in Hin as [-> | Hin].
    + pose proof (processBatch_other items st1 (itemId item) Hfresh) as Ho.
      rewrite H2 in Ho. simpl in Ho. rewrite Ho.
      pose proof (processItem_stores item st) as Hs. rewrite H1 in Hs. exact Hs.
    + specialize (IH st1 Hnodup it Hin). rewrite H2 in IH. exact IH.
Qed.

Lemma processBatch_all_stored items (st : State) :
  allStored st items ->
  processBatch env sourceConfig items st = (map (fun _ => false) items, st).
Proof.
  induction items as [|item items IH]; intros Hall; [reflexivity|]. simpl.
  rewrite processItem_project_info.
  replace (isDuplicateProjectInfo st item) with true
    by (symmetry; apply isDuplicate_stored, Hall; left).
  rewrite IH; [reflexivity|]. intros it Hin. apply Hall. right. exact Hin.
Qed.

Lemma processBatch_app l1 l2 (st : State) :
  processBatch env sourceConfig (app l1 l2) st
  = let '(r1, st1) := processBatch env sourceConfig l1 st in
    let '(r2, st2) := processBatch env sourceConfig l2 st1 in
    (app r1 r2, st2).
Proof.
  revert st. induction l1 as [|item l1 IH]; intros st; simpl.
  - destruct (processBatch env sourceConfig l2 st); reflexivity.
  - destruct (processItem env sourceConfig item st) as [r st1].
    rewrite IH. destruct (processBatch env sourceConfig l1 st1) as [r1 st2].
    destruct (processBatch env sourceConfig l2 st2); reflexivity.
Qed.

Lemma countTrue_app r1 r2 : countTrue (app r1 r2) = countTrue r1 + countTrue r2.
Proof. unfold countTrue. rewrite filter_app, length_app. lia. Qed.

Lemma countFalse_app r1 r2 : countFalse (app r1 r2) = countFalse r1 + countFalse r2.
Proof. unfold countFalse. rewrite filter_app, length_app. lia. Qed.

(** The batches of ten, one after the other, are the items one after the
    other. *)
Lemma processBatches_flat fuel items saved skipped (st : State) :
  (length items <= fuel)%nat ->
  processBatches env sourceConfig fuel items saved skipped st
  = let '(results, st') := processBatch env sourceConfig items st in
    (saved + countTrue results, skipped + countFalse results, st').
Proof.
  revert items saved skipped st.
  induction fuel as [|fuel IH]; intros items saved skipped st Hlen.
  - destruct items; [|simpl in Hlen; lia]. simpl.
    unfold countTrue, countFalse. simpl. apply pair_equal_spec; split; [apply pair_equal_spec; split; lia | reflexivity].
  - destruct items as [|i0 itl].
    { simpl. unfold countTrue, countFalse. simpl. apply pair_equal_spec; split; [apply pair_equal_spec; split; lia | reflexivity]. }
    assert (Hstep :
      processBatches env sourceConfig (S fuel) (i0 :: itl) saved skipped st
      = let '(results, st') := processBatch env sourceConfig (take 10 (i0 :: itl)) st in
        processBatches env sourceConfig fuel (drop 10 (i0 :: itl))
          (saved + countTrue results) (skipped + countFalse results) st')
      by reflexivity.
    rewrite Hstep. clear Hstep.
    set (l := i0 :: itl) in *.
    replace (processBatch env sourceConfig l st)
      with (processBatch env sourceConfig (app (take 10 l) (drop 10 l)) st)
      by (rewrite take_drop; reflexivity).
    rewrite processBatch_app.
    destruct (processBatch env sourceConfig (take 10 l) st) as [r1 st1].
    rewrite IH.
    + destruct (processBatch env sourceConfig (drop 10 l) st1) as [r2 st2].
      rewrite countTrue_app, countFalse_app. apply pair_equal_spec; split; [apply pair_equal_spec; split; lia | reflexivity].
    + rewrite length_drop. subst l. simpl in *. lia.
Qed.

Lemma countTrue_all_false {A} (l : list A) : countTrue (map (fun _ => false) l) = 0.
Proof.
  unfold countTrue. induction l as [|x l IH]; [reflexivity|].
  cbn [map]. rewrite filter_cons. case_decide; [discriminate | exact IH].
Qed.

Lemma countFalse_all_false {A} (l : list A) :
  countFalse (map (fun _ => false) l) = Z.of_nat (length l).
Proof.
  unfold countFalse. induction l as [|x l IH]; [reflexivity|].
  cbn [map]. rewrite filter_cons. case_decide; [|congruence].
  cbn [length]. lia.
Qed.

(** The second run over the same items saves nothing, sends nothing and
    changes nothing. *)
Lemma processCollectorResult_second_run (result : CollectorResult) (st : State) :
  NoDup (map itemId (items result)) ->
  let st1 := (processCollectorResult env sourceConfig result st).2 in
  processCollectorResult env sourceConfig result st1
  = (0, Z.of_nat (length (items result)), st1).
Proof.
  intros Hnodup st1. subst st1. unfold processCollectorResult.
  rewrite !processBatches_flat by lia.
  pose proof (processBatch_stores (items result) st Hnodup) as Hall.
  destruct (processBatch env sourceConfig (items result) st) as [rs st1]. simpl in *.
  rewrite (processBatch_all_stored _ _ Hall).
  rewrite countTrue_all_false, countFalse_all_false. reflexivity.
Qed.

End Persistence.

(** C4, as stated, fails: without [INFO_QUEUE_URL] the coordinator writes
    a new record and sends no message. *)
Lemma C4_saved_without_message :
  Scheduler.processItem Samples.noQueue Samples.defillama
    (Types.ProjectInfoItem Samples.alphaInfo) Samples.emptyState
  = (true,
     {| Scheduler.projectInfoTable :=
          {[ "defillama:alpha" := Types.ProjectInfoItem Samples.alphaInfo ]};
        Scheduler.marketInfoTable := ∅;
        Scheduler.sourceConfigTable := ∅;
        Scheduler.queue := [];
        Scheduler.announced := [] |})
  /\ ~ Spec.writesAndEnqueues Samples.noQueue Samples.defillama Samples.alphaInfo
        Samples.emptyState.
Proof.
  split; [reflexivity|].
  intros Hclaim. destruct Hclaim as (_ & message & Hqueue).
  - intros (stored & Hstored & _). simpl in Hstored.
    rewrite lookup_empty in Hstored. discriminate.
  - simpl in Hqueue. discriminate.
Qed.

(** C4, amended. For a [ProjectInfo] item being persisted: if the table
    holds a record with its id and its data hash, the item is skipped and
    neither the tables nor the queue change; otherwise the item is written
    under its id and, when [INFO_QUEUE_URL] is set, exactly one message
    with its type and id is appended to the queue (none when it is not
    set).  Either way, persisting the same item once more skips it: one
    stored record and no further message. *)
Theorem C4_saveProjectInfo_idempotent_amended :
  forall (engine : Js.JsEngine) (env : Scheduler.ProcessEnv)
         (sourceConfig : Types.SourceConfig) (info : Types.ProjectInfo)
         (st : Scheduler.State),
    Types.sc_type sourceConfig = "project_info" ->
    let item := Types.ProjectInfoItem info in
    let result := Scheduler.processItem env sourceConfig item st in
    (Spec.storedUnchanged st info -> result = (false, st))
    /\ (~ Spec.storedUnchanged st info ->
        result.1 = true
        /\ Scheduler.projectInfoTable result.2
           = <[Types.pi_id info := item]> (Scheduler.projectInfoTable st)
        /\ Scheduler.marketInfoTable result.2 = Scheduler.marketInfoTable st
        /\ Scheduler.sourceConfigTable result.2 = Scheduler.sourceConfigTable st
        /\ Scheduler.queue result.2
           = app (Scheduler.queue st)
                 (if Scheduler.queueConfigured env then [Spec.projectInfoMessage info] else []))
    /\ Scheduler.processItem env sourceConfig item result.2 = (false, result.2)
    /\ (forall collected : Types.CollectorResult,
          NoDup (map Types.itemId (Types.items collected)) ->
          let st1 := (Scheduler.processCollectorResult env sourceConfig collected st).2 in
          Scheduler.processCollectorResult env sourceConfig collected st1
          = (0, Z.of_nat (length (Types.items collected)), st1)).
Proof.
  intros engine env sourceConfig info st Htype item result.
  assert (Hrun : forall collected : Types.CollectorResult,
            NoDup (map Types.itemId (Types.items collected)) ->
            let st1 := (Scheduler.processCollectorResult env sourceConfig collected st).2 in
            Scheduler.processCollectorResult env sourceConfig collected st1
            = (0, Z.of_nat (length (Types.items collected)), st1))
    by (intros collected Hnodup; apply processCollectorResult_second_run; assumption).
  subst item result.
  unfold Scheduler.processItem, Scheduler.saveProjectInfo. rewrite Htype. simpl.
  destruct (Scheduler.isDuplicateProjectInfo st (Types.ProjectInfoItem info)) eqn:Hdup.
  - apply isDuplicateProjectInfo_spec in Hdup as Hstored. simpl.
    split; [reflexivity|]. split; [tauto|]. split; [|exact Hrun].
    rewrite Hdup. reflexivity.
  - assert (Hnot : ~ Spec.storedUnchanged st info).
    { intros Hs. apply isDuplicateProjectInfo_spec in Hs. congruence. }
    simpl. split; [tauto|]. split; [|split; [|exact Hrun]].
    + intros _. unfold Scheduler.sendToQueue.
      destruct (Scheduler.queueConfigured env); simpl;
        rewrite ?app_nil_r; repeat split; reflexivity.
    + rewrite isDuplicate_sendToQueue, isDuplicate_after_put. reflexivity.
Qed.

Lemma C4_saveProjectInfo_idempotent_amended_witness :
  let item := Types.ProjectInfoItem Samples.alphaInfo in
  let result :=
    Scheduler.processItem Samples.withQueue Samples.defillama item Samples.emptyState in
  Scheduler.queue result.2 = [Spec.projectInfoMessage Samples.alphaInfo]
  /\ Scheduler.processItem Samples.withQueue Samples.defillama item result.2
     = (false, result.2).
Proof.
  destruct (C4_saveProjectInfo_idempotent_amended Reference.engine Samples.withQueue
              Samples.defillama Samples.alphaInfo Samples.emptyState eq_refl)
    as (_ & Hwrite & Htwice & _).
  split; [|exact Htwice].
  refine (proj2 (proj2 (proj2 (proj2 (Hwrite _))))).
  intros (stored & Hstored & _). simpl in Hstored.
  rewrite lookup_empty in Hstored. discriminate.
Defined.

(** ** The due set (services/source-config.ts, scheduler.ts) *)

Section Sorting.
Import Scheduler.
Context {A : Type} (key : A -> Z).

Lemma insertBy_perm x l : Permutation (insertBy key x l) (x :: l).
Proof.
  induction l as [|y l IH]; simpl; [reflexivity|].
  destruct (key x <? key y); [reflexivity|].
  rewrite IH. apply perm_swap.
Qed.

Lemma insertBy_sorted x l :
  StronglySorted (fun a b => key a <= key b) l ->
  StronglySorted (fun a b => key a <= key b) (insertBy key x l).
Proof.
  induction 1 as [|y l Hsorted IH Hy]; simpl.
  - repeat constructor.
  - destruct (key x <? key y) eqn:Hlt.
    + apply Z.ltb_lt in Hlt. constructor; [constructor; assumption|].
      constructor; [lia|]. eapply Forall_impl; [exact Hy|]. simpl. intros; lia.
    + apply Z.ltb_ge in Hlt. constructor; [exact IH|].
      rewrite (insertBy_perm x l). constructor; assumption.
Qed.

Lemma fold_insertBy_perm l acc :
  Permutation (fold_left (fun sorted x => insertBy key x sorted) l acc) (app l acc).
Proof.
  revert acc. induction l as [|x l IH]; intros acc; simpl; [reflexivity|].
  rewrite IH, insertBy_perm. symmetry. apply Permutation_middle.
Qed.

Lemma fold_insertBy_sorted l acc :
  StronglySorted (fun a b => key a <= key b) acc ->
  StronglySorted (fun a b => key a <= key b)
    (fold_left (fun sorted x => insertBy key x sorted) l acc).
Proof.
  revert acc. induction l as [|x l IH]; intros acc Hacc; simpl; [exact Hacc|].
  apply IH, insertBy_sorted, Hacc.
Qed.

Lemma sortBy_perm l : Permutation (sortBy key l) l.
Proof. unfold sortBy. rewrite fold_insertBy_perm, app_nil_r. reflexivity. Qed.

Lemma sortBy_sorted l : StronglySorted (fun a b => key a <= key b) (sortBy key l).
Proof. apply fold_insertBy_sorted. constructor. Qed.

End Sorting.

Section DueSet.
Import Js Types Outside SourceConfigService Scheduler Spec.
Context `{JsEngine}.

Lemma shouldCollect_spec now config :
  shouldCollect now config = true
  <-> enabled config = true
      /\ (lastCollectedAt config = None \/ intervalElapsed now config).
Proof.
  unfold shouldCollect, intervalElapsed.
  destruct (enabled config); simpl; [|split; [discriminate | intros [? _]; discriminate]].
  destruct (lastCollectedAt config) as [lastCollected|].
  - rewrite Qle_bool_iff. split.
    + intros Hle. split; [reflexivity|]. right. exists lastCollected. auto.
    + intros [_ [Hnone | (l & [= <-] & Hle)]]; [discriminate | exact Hle].
  - split; auto.
Qed.

(** In whole milliseconds: the interval has elapsed when
    [intervalMinutes * 60000 <= now - lastCollectedAt]. *)
Lemma intervalElapsed_ms now config :
  intervalElapsed now config
  <-> exists lastCollected, lastCollectedAt config = Some lastCollected
        /\ intervalMinutes config * 60000 <= now - lastCollected.
Proof.
  unfold intervalElapsed. split; intros (l & Hl & Hle); exists l; (split; [exact Hl|]).
  - unfold Qle in Hle. simpl in Hle. lia.
  - unfold Qle. simpl. lia.
Qed.

Lemma sourcesToCollect_elem now (table : gmap string SourceConfig) config :
  config ∈ sourcesToCollect now table
  <-> config ∈ getAllSourceConfigs table
      /\ enabledStr config = "true" /\ shouldCollect now config = true.
Proof.
  unfold sourcesToCollect, getEnabledSourceConfigs.
  rewrite (sortBy_perm priority). rewrite !list_elem_of_filter. tauto.
Qed.

(** What [collectFromSource] prints and what it leaves of the log. *)
Lemma sendToQueue_announced env message (st : State) :
  announced (sendToQueue env message st) = announced st.
Proof. unfold sendToQueue. destruct (negb _); reflexivity. Qed.

Lemma processItem_announced env sourceConfig item (st : State) :
  announced (processItem env sourceConfig item st).2 = announced st.
Proof.
  unfold processItem, saveProjectInfo, saveMarketInfo.
  destruct (String.eqb _ _);
    [destruct (isDuplicateProjectInfo st item) | destruct (isDuplicateMarketInfo st item)];
    simpl; rewrite ?sendToQueue_announced; reflexivity.
Qed.

Lemma processBatch_announced env sourceConfig batch (st : State) :
  announced (processBatch env sourceConfig batch st).2 = announced st.
Proof.
  revert st. induction batch as [|item batch IH]; intros st; [reflexivity|]. simpl.
  pose proof (processItem_announced env sourceConfig item st) as H1.
  destruct (processItem env sourceConfig item st) as [r st1].
  specialize (IH st1). destruct (processBatch env sourceConfig batch st1) as [rs st2].
  simpl in *. congruence.
Qed.

Lemma processBatches_announced env sourceConfig fuel remaining saved skipped (st : State) :
  announced (processBatches env sourceConfig fuel remaining saved skipped st).2
  = announced st.
Proof.
  revert remaining saved skipped st.
  induction fuel as [|fuel IH]; intros remaining saved skipped st; [reflexivity|].
  destruct remaining as [|item rest]; [reflexivity|]. cbn [processBatches].
  pose proof (processBatch_announced env sourceConfig (take 10 (item :: rest)) st) as H1.
  destruct (processBatch env sourceConfig (take 10 (item :: rest)) st) as [rs st1].
  rewrite IH. exact H1.
Qed.

Variable rssCollector restApiCollector : Collector.

Lemma collectFromSource_announced env E sourceConfig w (st : State) :
  announced (collectFromSource rssCollector restApiCollector env E sourceConfig w st).2
  = app (announced st) [sc_id sourceConfig].
Proof.
  unfold collectFromSource.
  destruct (getCollector rssCollector restApiCollector (collectorType sourceConfig))
    as [collector|]; [|reflexivity].
  destruct (collector E sourceConfig w) as [result w1].
  destruct (negb (success result)); [reflexivity|].
  unfold processCollectorResult.
  pose proof (processBatches_announced env sourceConfig (length (items result))
                (items result) 0 0 (announce (sc_id sourceConfig) st)) as Hlog.
  destruct (processBatches env sourceConfig (length (items result)) (items result) 0 0
              (announce (sc_id sourceConfig) st)) as [[saved skipped] st1].
  simpl in *. exact Hlog.
Qed.

Lemma collectEach_announced env E sources stats w (st : State) :
  announced (collectEach rssCollector restApiCollector env E sources stats w st).2
  = app (announced st) (map sc_id sources).
Proof.
  revert stats w st. induction sources as [|sourceConfig sources IH]; intros stats w st.
  - simpl. rewrite app_nil_r. reflexivity.
  - simpl.
    pose proof (collectFromSource_announced env E sourceConfig w st) as H1.
    destruct (collectFromSource rssCollector restApiCollector env E sourceConfig w st)
      as [[result w1] st1].
    rewrite IH. simpl in H1. rewrite H1, <- app_assoc. reflexivity.
Qed.

End DueSet.

Section Writers.
Import Js Types SourceConfigService Spec.
Context `{JsEngine}.

(** Every writer of the source table leaves [enabledStr] in sync. *)
Lemma saveSourceConfig_in_sync now config table :
  tableInSync table -> tableInSync (saveSourceConfig now config table).
Proof.
  intros Hsync id c. unfold saveSourceConfig. rewrite lookup_insert.
  case_decide; [intros [= <-]; reflexivity | apply Hsync].
Qed.

Lemma toggleSourceConfig_in_sync now id table :
  tableInSync table -> tableInSync (toggleSourceConfig now id table).
Proof.
  intros Hsync j c. unfold toggleSourceConfig, getSourceConfig.
  destruct (table !! id) as [config|]; [|apply Hsync].
  rewrite lookup_insert. case_decide; [intros [= <-]; reflexivity | apply Hsync].
Qed.

Lemma updateSourceCollectionStatus_in_sync now id status error itemCount table :
  tableInSync table ->
  tableInSync (updateSourceCollectionStatus now id status error itemCount table).
Proof.
  intros Hsync j c. unfold updateSourceCollectionStatus, getSourceConfig.
  destruct (table !! id) as [config|] eqn:Hconfig; [|apply Hsync].
  rewrite lookup_insert. case_decide; [|apply Hsync].
  intros [= <-]. unfold enabledStrInSync. simpl. eapply Hsync, Hconfig.
Qed.

Lemma initializeDefaultSources_in_sync now defaults table :
  tableInSync table -> tableInSync (initializeDefaultSources now defaults table).
Proof.
  intros Hsync. unfold initializeDefaultSources.
  destruct (getAllSourceConfigs table); [|exact Hsync].
  revert table Hsync. induction defaults as [|source defaults IH]; intros table Hsync;
    [exact Hsync|].
  simpl. apply IH, saveSourceConfig_in_sync, Hsync.
Qed.

End Writers.

(** The examples of the specification, for an interval of 15 minutes. *)
Example collected_10_minutes_ago_not_due :
  SourceConfigService.shouldCollect Samples.noon
    (Samples.collectedAt (Some Samples.tenMinutesAgo) true) = false.
Proof. reflexivity. Qed.

Example collected_16_minutes_ago_due :
  SourceConfigService.shouldCollect Samples.noon
    (Samples.collectedAt (Some Samples.sixteenMinutesAgo) true) = true.
Proof. reflexivity. Qed.

Example never_collected_due :
  SourceConfigService.shouldCollect Samples.noon (Samples.collectedAt None true) = true.
Proof. reflexivity. Qed.

Example disabled_not_due :
  SourceConfigService.shouldCollect Samples.noon (Samples.collectedAt None false) = false
  /\ SourceConfigService.shouldCollect Samples.noon
       (Samples.collectedAt (Some Samples.sixteenMinutesAgo) false) = false.
Proof. split; reflexivity. Qed.

(** C5. A source of the catalogue is among the sources collected at [now]
    iff it is enabled and either was never collected or the minutes since
    its last collection are at least its interval; a disabled source is
    never among them; the sources are in ascending order of priority; and
    [runConfigurableCollection] collects from them in that order. *)
Theorem C5_due_set_by_priority :
  forall (engine : Js.JsEngine) (now : Z)
         (table : gmap string Types.SourceConfig) (config : Types.SourceConfig),
    config ∈ SourceConfigService.getAllSourceConfigs table ->
    Spec.enabledStrInSync config ->
    (config ∈ Scheduler.sourcesToCollect now table
     <-> Types.enabled config = true
         /\ (Types.lastCollectedAt config = None \/ Spec.intervalElapsed now config))
    /\ (Types.enabled config = false -> config ∉ Scheduler.sourcesToCollect now table)
    /\ Spec.ascendingPriority (Scheduler.sourcesToCollect now table)
    /\ (forall (rssCollector restApiCollector : Scheduler.Collector)
               (env : Scheduler.ProcessEnv) (E : Outside.Env)
               (defaults : list SourceConfigService.SourceParams)
               (w : Outside.World) (st : Scheduler.State),
          Scheduler.announced
            (Scheduler.runConfigurableCollection rssCollector restApiCollector
               env E defaults w st).2
          = app (Scheduler.announced st)
                (map Types.sc_id
                   (Scheduler.sourcesToCollect
                      (Outside.clock E (S (Outside.ticks w)))
                      (SourceConfigService.initializeDefaultSources
                         (Outside.clock E (Outside.ticks w)) defaults
                         (Scheduler.sourceConfigTable st))))).
Proof.
  intros engine now table config Hin Hsync.
  split; [|split; [|split]].
  - rewrite sourcesToCollect_elem, shouldCollect_spec. split.
    + intros (_ & _ & Hdue). exact Hdue.
    + intros Hdue. split; [exact Hin|]. split; [|exact Hdue].
      unfold Spec.enabledStrInSync in Hsync. rewrite Hsync.
      destruct Hdue as [-> _]. reflexivity.
  - intros Hoff. rewrite sourcesToCollect_elem, shouldCollect_spec.
    intros (_ & _ & Hon & _). congruence.
  - apply (sortBy_sorted Types.priority).
  - intros rssCollector restApiCollector env E defaults w st.
    unfold Scheduler.runConfigurableCollection.
    rewrite collectEach_announced. reflexivity.
Qed.

Lemma C5_due_set_by_priority_witness :
  let config := Samples.collectedAt (Some Samples.sixteenMinutesAgo) true in
  config ∈ Scheduler.sourcesToCollect Samples.noon {[ Types.sc_id config := config ]}.
Proof.
  intros config.
  refine (proj2 (proj1 (C5_due_set_by_priority Reference.engine Samples.noon
                          {[ Types.sc_id config := config ]} config _ _)) _).
  - unfold SourceConfigService.getAllSourceConfigs. rewrite map_to_list_singleton.
    simpl. apply list_elem_of_singleton. reflexivity.
  - reflexivity.
  - split; [reflexivity|]. right. exists Samples.sixteenMinutesAgo.
    split; [reflexivity|]. unfold Qle. simpl. vm_compute. discriminate.
Defined.

(** ** The REST collector under failing endpoints (collectors/rest-api.ts) *)

Section FailingEndpoints.
Import Js Types Outside RestApiCollector Spec.
Context `{JsEngine}.
Variable JSON_stringify : JsValue -> string.
Variable E : Env.
Hypothesis no_response : forall k, requestFails (net E k).

Lemma fetchWithRetry_loop_throws remaining w :
  exists e w', fetchWithRetry_loop E remaining w = (Throw e, w')
               /\ requests w' = (requests w + remaining)%nat.
Proof.
  revert w. induction remaining as [|remaining IH]; intros w.
  - simpl. eexists _, _. split; [reflexivity | lia].
  - simpl. pose proof (no_response (requests w)) as Hfail. unfold requestFails in Hfail.
    set (w1 := {| requests := S (requests w); draws := draws w; ticks := ticks w |}).
    destruct (IH w1) as (e & w' & Hloop & Hreq). simpl in Hreq.
    destruct (attempt (net E (requests w))) as [data| |e0].
    + exfalso. eapply Hfail. reflexivity.
    + exists e, w'. split; [exact Hloop | lia].
    + destruct remaining as [|remaining'].
      * exists e0, w1. split; [reflexivity | simpl; lia].
      * exists e, w'. split; [exact Hloop | lia].
Qed.

Lemma fetchEndpoint_throws sourceConfig endpoint w :
  exists e w', fetchEndpoint JSON_stringify E sourceConfig endpoint w = (Throw e, w').
Proof.
  unfold fetchEndpoint, fetchWithRetry.
  destruct (fetchWithRetry_loop_throws 3 w) as (e & w' & -> & _).
  exists e, w'. reflexivity.
Qed.

(** With the network down every fetch fails. *)
Lemma network_down_every_fetch_fails sourceConfig config :
  everyFetchFails JSON_stringify E sourceConfig config.
Proof.
  intros endpoint w _.
  destruct (fetchEndpoint_throws sourceConfig endpoint w) as (e & w' & ->). reflexivity.
Qed.

End FailingEndpoints.

Section CollectOutcome.
Import Js Types Outside RestApiCollector.
Context `{JsEngine}.
Variable JSON_stringify : JsValue -> string.

(** An endpoint whose fetch fails adds nothing to the items. *)
Lemma collect_loop_skips E sourceConfig endpoints allItems w :
  (forall endpoint w, endpoint ∈ endpoints ->
     isOk (fetchEndpoint JSON_stringify E sourceConfig endpoint w).1 = false) ->
  (collect_loop JSON_stringify E sourceConfig endpoints allItems w).1 = allItems.
Proof.
  revert w. induction endpoints as [|endpoint endpoints IH]; intros w Hfail; simpl.
  - reflexivity.
  - pose proof (Hfail endpoint w ltac:(left)) as Hthis.
    destruct (fetchEndpoint JSON_stringify E sourceConfig endpoint w) as [[items|e] w'];
      [discriminate|].
    apply IH. intros ep w0 Hin. apply Hfail. right. exact Hin.
Qed.

(** On a REST configuration [collect] succeeds whatever the endpoints do;
    it fails exactly on a configuration of another kind. *)
Lemma collect_success E sourceConfig w :
  success (collect JSON_stringify E sourceConfig w).1
  = match config sourceConfig with RestApi _ => true | _ => false end.
Proof.
  unfold collect. destruct (config sourceConfig) as [config| |]; try reflexivity.
  destruct (collect_loop _ _ _ _ _ _); reflexivity.
Qed.

End CollectOutcome.

(** C10. When the fetch of every configured endpoint fails, the REST
    collector still returns [success: true] with no items and all-zero
    stats; [collectFromSource] then records the run of the source as a
    success: [successCount] is incremented, [failedCount] is not, and no
    error is stored or returned.  [collect] returns [success: false] only
    when the exception is outside the per-endpoint loop, that is when the
    configuration is not a REST configuration. *)
Theorem C10_all_endpoints_fail_is_success :
  forall (engine : Js.JsEngine) (JSON_stringify : Js.JsValue -> string)
         (rssCollector : Scheduler.Collector) (env : Scheduler.ProcessEnv)
         (E : Outside.Env) (sourceConfig stored : Types.SourceConfig)
         (config : Types.RestApiConfig) (w : Outside.World) (st : Scheduler.State),
    Types.config sourceConfig = Types.RestApi config ->
    Types.collectorType sourceConfig = "api:rest" ->
    Scheduler.sourceConfigTable st !! Types.sc_id sourceConfig = Some stored ->
    Spec.everyFetchFails JSON_stringify E sourceConfig config ->
    (RestApiCollector.collect JSON_stringify E sourceConfig w).1
    = RestApiCollector.successResult []
        {| Types.totalFetched := 0; Types.savedCount := 0; Types.skippedCount := 0 |}
    /\ (let '(summary, _, st') :=
          Scheduler.collectFromSource rssCollector
            (RestApiCollector.collect JSON_stringify) env E sourceConfig w st in
        Scheduler.summary_error summary = None
        /\ Scheduler.queue st' = Scheduler.queue st
        /\ exists recorded,
             Scheduler.sourceConfigTable st' !! Types.sc_id sourceConfig = Some recorded
             /\ Types.lastCollectStatus recorded = Some "success"
             /\ Types.lastCollectError recorded = None
             /\ (Types.successCount <$> Types.stats recorded)
                = Some (Types.successCount
                          (default SourceConfigService.zeroStats (Types.stats stored)) + 1)
             /\ (Types.failedCount <$> Types.stats recorded)
                = Some (Types.failedCount
                          (default SourceConfigService.zeroStats (Types.stats stored))))
    /\ (forall (E' : Outside.Env) (other : Types.SourceConfig) (w' : Outside.World),
          Types.success (RestApiCollector.collect JSON_stringify E' other w').1 = false
          <-> ~ exists c, Types.config other = Types.RestApi c).
Proof.
  intros engine JSON_stringify rssCollector env E sourceConfig stored config w st
         Hconfig Htype Hstored Hfail.
  assert (Hcollect : exists w',
             RestApiCollector.collect JSON_stringify E sourceConfig w
             = (RestApiCollector.successResult []
                  {| Types.totalFetched := 0; Types.savedCount := 0;
                     Types.skippedCount := 0 |}, w')).
  { unfold RestApiCollector.collect. rewrite Hconfig.
    pose proof (collect_loop_skips JSON_stringify E sourceConfig
                  (Types.endpoints config) [] w Hfail) as Hloop.
    destruct (RestApiCollector.collect_loop _ _ _ _ _ _) as [allItems w'].
    simpl in Hloop. subst allItems. exists w'. reflexivity. }
  destruct Hcollect as (w' & Hcollect).
  split; [rewrite Hcollect; reflexivity|]. split.
  - unfold Scheduler.collectFromSource, Scheduler.getCollector. rewrite Htype. simpl.
    rewrite Hcollect. simpl.
    split; [reflexivity|]. split; [reflexivity|].
    unfold SourceConfigService.updateSourceCollectionStatus,
      SourceConfigService.getSourceConfig. simpl. rewrite Hstored.
    eexists. split; [apply lookup_insert_eq|]. simpl.
    repeat split; f_equal; lia.
  - intros E' other w'0. rewrite collect_success.
    destruct (Types.config other) as [c| |]; split; try congruence.
    + intros Hno. exfalso. apply Hno. exists c. reflexivity.
    + intros _ (c & Hc). discriminate.
    + intros _ (c & Hc). discriminate.
Qed.

Lemma C10_all_endpoints_fail_is_success_witness :
  (RestApiCollector.collect Reference.stringify Samples.networkDown Samples.defillama
     Samples.start).1
  = RestApiCollector.successResult []
      {| Types.totalFetched := 0; Types.savedCount := 0; Types.skippedCount := 0 |}.
Proof.
  refine (proj1 (C10_all_endpoints_fail_is_success Reference.engine Reference.stringify
                   (RssCollector.collect (fun _ => [])) Samples.withQueue
                   Samples.networkDown Samples.defillama Samples.defillama _
                   Samples.start
                   {| Scheduler.projectInfoTable := ∅;
                      Scheduler.marketInfoTable := ∅;
                      Scheduler.sourceConfigTable :=
                        {[ "project_info:defillama" := Samples.defillama ]};
                      Scheduler.queue := [];
                      Scheduler.announced := [] |}
                   eq_refl eq_refl _ _)).
  - apply lookup_singleton_eq.
  - apply network_down_every_fetch_fails. intros k data. discriminate.
Defined.

(** ** Identity of the normalized records (collectors/rest-api.ts,
    collectors/rss.ts) *)

Section Identity.
Import Js Types RestApiCollector Spec.
Context `{JsEngine}.
Variable JSON_stringify : JsValue -> string.

(** Without a call of [Math.random()] the source-native id is the same in
    every run. *)
Lemma nativeId_without_random endpoint item mappedData rnd1 rnd2 :
  applyMapping item (mapping endpoint) = Ok mappedData ->
  callsRandom endpoint item = false ->
  nativeId mappedData rnd1 = nativeId mappedData rnd2.
Proof.
  intros Hmap Hcalls. unfold callsRandom in Hcalls. rewrite Hmap in Hcalls.
  apply negb_false_iff in Hcalls. unfold nativeId.
  set (chain := or_else (or_else (getProp mappedData "id") (getProp mappedData "slug"))
                        (getProp mappedData "symbol")) in *.
  unfold or_else. rewrite Hcalls. reflexivity.
Qed.

(** The text of a random number is always there. *)
Lemma nativeId_ToString_isOk mappedData rnd1 rnd2 :
  isOk (ToString (nativeId mappedData rnd1)) = isOk (ToString (nativeId mappedData rnd2)).
Proof.
  unfold nativeId.
  set (chain := or_else (or_else (getProp mappedData "id") (getProp mappedData "slug"))
                        (getProp mappedData "symbol")).
  unfold or_else. destruct (truthy chain); reflexivity.
Qed.

Ltac step_binds :=
  repeat match goal with
         | |- context [mbind _ ?r] =>
             lazymatch r with
             | Ok _ => fail
             | Throw _ => fail
             | _ => destruct r; simpl
             end
         end.

(** A record of a source that is not of type project_info gets the id
    [source-hash], whatever the run. *)
Lemma marketInfo_id_deterministic sourceConfig endpoint item :
  sc_type sourceConfig <> "project_info" ->
  deterministicId JSON_stringify sourceConfig endpoint item.
Proof.
  intros Htype now1 now2 rnd1 rnd2. unfold normalizeItem.
  destruct (applyMapping item (mapping endpoint)) as [mappedData|e]; simpl; [|reflexivity].
  pose proof (nativeId_ToString_isOk mappedData rnd1 rnd2) as Hok.
  destruct (ToString (nativeId mappedData rnd1)) as [s1|e1];
    destruct (ToString (nativeId mappedData rnd2)) as [s2|e2];
    simpl in *; try discriminate; [|reflexivity].
  destruct (String.eqb_spec (sc_type sourceConfig) "project_info") as [|_]; [contradiction|].
  destruct (ToString (or_else (or_else (getProp mappedData "title")
                                       (getProp mappedData "name")) (JStr "")));
    simpl; [|reflexivity].
  destruct (ToString (or_else (or_else (getProp mappedData "content")
                                       (getProp mappedData "description")) (JStr "")));
    simpl; [|reflexivity].
  destruct (toStringOrUndefined (getProp mappedData "url")); simpl; [|reflexivity].
  unfold or_else at 1 2.
  destruct (truthy (getProp mappedData "publishedAt")); simpl.
  - destruct (ToString (getProp mappedData "publishedAt")); reflexivity.
  - reflexivity.
Qed.

(** A record with a truthy mapped [id], [slug] or [symbol] gets the same
    id in every run. *)
Lemma projectInfo_id_deterministic sourceConfig endpoint item :
  callsRandom endpoint item = false ->
  deterministicId JSON_stringify sourceConfig endpoint item.
Proof.
  intros Hcalls.
  destruct (String.eqb_spec (sc_type sourceConfig) "project_info") as [Htype|Htype];
    [|apply marketInfo_id_deterministic; exact Htype].
  intros now1 now2 rnd1 rnd2. unfold normalizeItem.
  destruct (applyMapping item (mapping endpoint)) as [mappedData|e] eqn:Hmap;
    simpl; [|reflexivity].
  rewrite (nativeId_without_random endpoint item mappedData rnd1 rnd2 Hmap Hcalls).
  destruct (ToString (nativeId mappedData rnd2)) as [s|e]; simpl; [|reflexivity].
  rewrite Htype. simpl.
  step_binds; reflexivity.
Qed.

(** The id of a project record that is returned is made of the source and
    the text of the source-native id. *)
Lemma projectInfo_id_shape sourceConfig endpoint now rnd item info :
  normalizeItem JSON_stringify sourceConfig endpoint now rnd item = Ok (ProjectInfoItem info) ->
  exists mappedData native,
    applyMapping item (mapping endpoint) = Ok mappedData
    /\ ToString (nativeId mappedData rnd) = Ok native
    /\ pi_id info = Shared.generateProjectInfoId (sourceId sourceConfig) native.
Proof.
  unfold normalizeItem.
  destruct (applyMapping item (mapping endpoint)) as [mappedData|e]; simpl; [|discriminate].
  destruct (ToString (nativeId mappedData rnd)) as [native|e] eqn:Hnative;
    simpl; [|discriminate].
  destruct (String.eqb (sc_type sourceConfig) "project_info").
  - step_binds; try discriminate. intros [= <-]. exists mappedData, native. auto.
  - step_binds; discriminate.
Qed.

End Identity.

(** C9, as stated, fails: a project record without [id], [slug] or
    [symbol] gets the text of [Math.random()] as its native id, so two
    runs over the same record give two ids. *)
Lemma C9_random_native_id :
  ~ Spec.deterministicId Reference.stringify Samples.defillama Samples.protocols
      Samples.namelessRecord.
Proof.
  intros Hdet.
  specialize (Hdet "2025-01-01T00:00:00.000Z" "2025-01-01T00:00:00.000Z"
                (Reference.RFrac "25") (Reference.RFrac "75")).
  vm_compute in Hdet. discriminate.
Qed.

(** C9, amended. The id of a normalized record is the same in every run
    over the same input, independent of the clock and of [Math.random()],
    for every [MarketInfo] (REST: source and hash of the serialized
    record; RSS: source and hash of title + link) and for every
    [ProjectInfo] whose mapped [id], [slug] or [symbol] is truthy (source
    and that native id). *)
Theorem C9_identity_deterministic_amended :
  forall (engine : Js.JsEngine) (JSON_stringify : Js.JsValue -> string)
         (sourceConfig : Types.SourceConfig) (endpoint : Types.RestApiEndpoint)
         (item : Js.JsValue),
    Types.sc_type sourceConfig <> "project_info"
    \/ RestApiCollector.callsRandom endpoint item = false ->
    Spec.deterministicId JSON_stringify sourceConfig endpoint item
    /\ (forall now rnd info,
          RestApiCollector.normalizeItem JSON_stringify sourceConfig endpoint now rnd item
          = Ok (Types.ProjectInfoItem info) ->
          exists mappedData native,
            RestApiCollector.applyMapping item (Types.mapping endpoint) = Ok mappedData
            /\ Js.ToString (RestApiCollector.nativeId mappedData rnd) = Ok native
            /\ Types.pi_id info
               = Shared.generateProjectInfoId (Types.sourceId sourceConfig) native)
    /\ (forall (feed : Types.SourceConfig) (config : Types.RssConfig)
               (now1 now2 : string) (ttl1 ttl2 : Z) (feedItem : RssCollector.FeedItem),
          Types.mi_id (RssCollector.toMarketInfo feed config now1 ttl1 feedItem)
          = Types.mi_id (RssCollector.toMarketInfo feed config now2 ttl2 feedItem)
          /\ Types.mi_id (RssCollector.toMarketInfo feed config now1 ttl1 feedItem)
             = RssCollector.replaceFirst "rss:" "" (Types.sourceId feed) +:+ "-"
               +:+ Shared.generateContentHash
                     (RssCollector.title feedItem
                      +:+ RssCollector.concatOperand (RssCollector.link feedItem))).
Proof.
  intros engine JSON_stringify sourceConfig endpoint item Hcase.
  split; [|split].
  - destruct Hcase as [Htype | Hcalls].
    + apply marketInfo_id_deterministic. exact Htype.
    + apply projectInfo_id_deterministic. exact Hcalls.
  - intros now rnd info. apply projectInfo_id_shape.
  - intros feed config now1 now2 ttl1 ttl2 feedItem. split; reflexivity.
Qed.

Lemma C9_identity_deterministic_amended_witness :
  Spec.deterministicId Reference.stringify Samples.defillama Samples.protocols
    Samples.alphaRecord.
Proof.
  refine (proj1 (C9_identity_deterministic_amended Reference.engine Reference.stringify
                   Samples.defillama Samples.protocols Samples.alphaRecord _)).
  right. reflexivity.
Defined.

(** The two sample records, normalized. *)
Example alphaRecord_id :
  Spec.idOf (RestApiCollector.normalizeItem Reference.stringify Samples.defillama
               Samples.protocols "2025-01-01T00:00:00.000Z" (Reference.RFrac "25")
               Samples.alphaRecord)
  = Some "defillama:alpha".
Proof. vm_compute. reflexivity. Qed.

Example namelessRecord_id :
  Spec.idOf (RestApiCollector.normalizeItem Reference.stringify Samples.defillama
               Samples.protocols "2025-01-01T00:00:00.000Z" (Reference.RFrac "25")
               Samples.namelessRecord)
  = Some "defillama:0.25".
Proof. vm_compute. reflexivity. Qed.

(** ** The field-mapping engine (collectors/rest-api.ts) *)

Section FieldMapping.
Import Js Types RestApiCollector.
Context `{JsEngine}.

(** A path that leads nowhere yields [undefined]. *)
Lemma getNestedValue_missing props key :
  ownProperty props key = None ->
  split_dots key = [key] ->
  getNestedValue (JObj props) key = JUndefined.
Proof.
  intros Hnone Hkey. unfold getNestedValue. rewrite Hkey. simpl.
  unfold getProp. rewrite Hnone. reflexivity.
Qed.

Lemma getNestedValue_through_undefined parts :
  getNestedValue_loop JUndefined parts = JUndefined
  /\ getNestedValue_loop JNull parts = match parts with [] => JNull | _ => JUndefined end.
Proof. destruct parts; split; reflexivity. Qed.

(** A simple path never throws, nor does a rule without a transform; the
    default replaces [undefined] only. *)
Lemma applyRule_simple data path :
  applyRule data (SimplePath path) = Ok (getNestedValue data path).
Proof. reflexivity. Qed.

Lemma applyRule_without_transform data source default :
  applyRule data (ComplexRule {| rule_source := source; transform := None;
                                 rule_default := default |})
  = Ok (match getNestedValue data source with
        | JUndefined => default
        | value => value
        end).
Proof.
  unfold applyRule. simpl.
  destruct (getNestedValue data source); simpl; try reflexivity.
  destruct default; reflexivity.
Qed.

(** The transform is not applied to an absent value. *)
Lemma applyRule_absent data source t :
  getNestedValue data source = JUndefined ->
  applyRule data (ComplexRule {| rule_source := source; transform := Some t;
                                 rule_default := JUndefined |})
  = Ok JUndefined.
Proof. intros Habsent. unfold applyRule. simpl. rewrite Habsent. reflexivity. Qed.

(** The date transform throws on every text the engine cannot parse. *)
Lemma transformValue_date_throws s :
  DateParse s = None ->
  transformValue (JStr s) "date" = Throw (RangeError "Invalid time value").
Proof.
  intros Hnan. unfold transformValue. simpl. unfold DateToISOString. rewrite Hnan.
  reflexivity.
Qed.

(** So does every string transform on an object with an own [toString]. *)
Lemma transformValue_string_throws props v :
  ownProperty props "toString" = Some v ->
  transformValue (JObj props) "string"
  = Throw (TypeError "Cannot convert object to primitive value").
Proof. intros Hown. unfold transformValue. simpl. rewrite Hown. reflexivity. Qed.

(** The transforms that cannot throw. *)
Lemma transformValue_array value :
  transformValue value "array" = Ok (if isArray value then value else JArr [value]).
Proof. reflexivity. Qed.

End FieldMapping.

(** C7. The mapping is not exception-free: [applyMapping] raises on a
    malformed value.  On the record [{ id: "a", listedAt: "" }] with the
    mapping [{ id: "id", listedAt: { source: "listedAt", transform: "date" } }]
    the date transform evaluates [new Date("").toISOString()], which
    throws a RangeError, and [applyMapping] throws it on. *)
Theorem C7_applyMapping_raises_on_malformed_date :
  RestApiCollector.applyMapping Samples.undatedRecord Samples.datedMapping
  = Throw (RangeError "Invalid time value")
  /\ forall (engine : Js.JsEngine) (data : Js.JsValue) (target source text : string)
            (rest : Types.FieldMapping),
       RestApiCollector.getNestedValue data source = Js.JStr text ->
       Js.DateParse text = None ->
       RestApiCollector.applyMapping data
         ((target, Types.ComplexRule {| Types.rule_source := source;
                                        Types.transform := Some "date";
                                        Types.rule_default := Js.JUndefined |}) :: rest)
       = Throw (RangeError "Invalid time value").
Proof.
  split; [reflexivity|].
  intros engine data target source text rest Hvalue Hnan.
  unfold RestApiCollector.applyMapping. cbn [RestApiCollector.applyMapping_loop].
  assert (Hrule :
    RestApiCollector.applyRule data
      (Types.ComplexRule {| Types.rule_source := source; Types.transform := Some "date";
                            Types.rule_default := Js.JUndefined |})
    = Throw (RangeError "Invalid time value")).
  { unfold RestApiCollector.applyRule.
    cbn [Types.rule_source Types.transform Types.rule_default]. rewrite Hvalue.
    change (RestApiCollector.transformValue (Js.JStr text) "date"
            = Throw (RangeError "Invalid time value")).
    apply transformValue_date_throws. exact Hnan. }
  rewrite Hrule. reflexivity.
Qed.

(** The exception takes the whole endpoint with it: one undated record
    among the records of a response, and the endpoint yields nothing. *)
Example undated_record_drops_endpoint :
  let endpoint := {| Types.path := "/protocols"; Types.method := "GET";
                     Types.mapping := Samples.datedMapping; Types.limit := None |} in
  let E := {| Outside.net := fun _ =>
                Outside.HttpResponse 200 "OK" ""
                  (Ok (Js.JArr [Samples.alphaRecord; Samples.undatedRecord]));
              Outside.random := fun _ => Reference.RFrac "5";
              Outside.clock := fun _ => Samples.noon |} in
  (RestApiCollector.fetchEndpoint Reference.stringify E Samples.defillama endpoint
     Samples.start).1
  = Throw (RangeError "Invalid time value").
Proof. reflexivity. Qed.

(** * Further properties of the code *)

(** A sequence of fallible steps returns only when each step does. *)
Lemma bind_Ok {A B : Type} (r : Result A) (k : A -> Result B) (y : B) :
  (r ≫= k) = Ok y -> exists x, r = Ok x /\ k x = Ok y.
Proof.
  destruct r as [x|e]; simpl; [|discriminate]. intros Hk. exists x. split; [reflexivity | exact Hk].
Qed.

Ltac invert_binds H :=
  repeat (let x := fresh "x" in let Hx := fresh "Hx" in
          apply bind_Ok in H as (x & Hx & H)).

(** ** The content hash (packages/shared) *)

Section ContentHash.
Import Shared SpecMore.

Lemma toInt32_range z : - 2 ^ 31 <= toInt32 z < 2 ^ 31.
Proof.
  unfold toInt32. pose proof (Z.mod_pos_bound z (2 ^ 32) ltac:(lia)).
  destruct (z mod 2 ^ 32 <? 2 ^ 31) eqn:Hlt;
    [apply Z.ltb_lt in Hlt | apply Z.ltb_ge in Hlt]; lia.
Qed.

Lemma toInt32_congruent a b :
  a mod 2 ^ 32 = b mod 2 ^ 32 -> toInt32 a = toInt32 b.
Proof. intros Heq. unfold toInt32. rewrite Heq. reflexivity. Qed.

Lemma toInt32_offset z : exists k, toInt32 z = z + k * 2 ^ 32.
Proof.
  unfold toInt32. rewrite Z.mod_eq by lia.
  destruct (_ <? _); [exists (- (z / 2 ^ 32)) | exists (- (z / 2 ^ 32) - 1)]; lia.
Qed.

(** One step of the loop multiplies by 31, adds the code unit and wraps. *)
Lemma hashStep_31 h c : hashStep (toInt32 h) c = toInt32 (31 * h + c).
Proof.
  unfold hashStep. rewrite Z.land_diag, Z.shiftl_mul_pow2 by lia.
  apply toInt32_congruent.
  destruct (toInt32_offset h) as [k1 ->].
  destruct (toInt32_offset ((h + k1 * 2 ^ 32) * 2 ^ 5)) as [k2 ->].
  replace ((h + k1 * 2 ^ 32) * 2 ^ 5 + k2 * 2 ^ 32 - (h + k1 * 2 ^ 32) + c)
    with (31 * h + c + (31 * k1 + k2) * 2 ^ 32) by lia.
  apply Z.mod_add. lia.
Qed.

Lemma fold_hashStep codes h :
  fold_left hashStep codes (toInt32 h) = toInt32 (fold_left (fun h c => 31 * h + c) codes h).
Proof.
  revert h. induction codes as [|c codes IH]; intros h; simpl; [reflexivity|].
  rewrite hashStep_31. apply IH.
Qed.

(** X1. [generateContentHash] is the base-31 polynomial hash of the code
    units of the content, wrapped to a signed 32-bit integer, in absolute
    value and in base 36; the absolute value is at most 2^31. *)
Theorem generateContentHash_is_polynomial_hash :
  forall content : string,
    generateContentHash content
    = toString36 (Z.abs (toInt32 (polyHash (charCodes content))))
    /\ 0 <= Z.abs (toInt32 (polyHash (charCodes content))) <= 2 ^ 31.
Proof.
  intros content. split.
  - unfold generateContentHash, polyHash.
    change 0 with (toInt32 0) at 1. rewrite fold_hashStep. reflexivity.
  - pose proof (toInt32_range (polyHash (charCodes content))). lia.
Qed.

End ContentHash.

(** ** The field-mapping engine, continued (collectors/rest-api.ts) *)

Section NestedPaths.
Import Js Types RestApiCollector SpecMore.
Context `{JsEngine}.

Lemma split_dots_nonempty path : split_dots path <> [].
Proof.
  destruct path as [|c rest]; simpl; [discriminate|].
  destruct (Ascii.eqb c "."); [discriminate|].
  destruct (split_dots rest); discriminate.
Qed.

Lemma split_dots_join p q :
  split_dots (p +:+ "." +:+ q) = app (split_dots p) (split_dots q).
Proof.
  induction p as [|c p IH]; [reflexivity|].
  change (String c p +:+ "." +:+ q) with (String c (p +:+ "." +:+ q)).
  cbn [split_dots]. rewrite IH. destruct (Ascii.eqb c "."); [reflexivity|].
  pose proof (split_dots_nonempty p) as Hne.
  destruct (split_dots p); [congruence | reflexivity].
Qed.

Lemma getNestedValue_loop_undefined parts :
  getNestedValue_loop JUndefined parts = JUndefined.
Proof. destruct parts; reflexivity. Qed.

Lemma getNestedValue_loop_app current parts1 parts2 :
  getNestedValue_loop current (app parts1 parts2)
  = getNestedValue_loop (getNestedValue_loop current parts1) parts2.
Proof.
  revert current. induction parts1 as [|part parts1 IH]; intros current; [reflexivity|].
  cbn [app getNestedValue_loop].
  destruct current; cbn [typeof_object];
    rewrite ?getNestedValue_loop_undefined; try reflexivity; apply IH.
Qed.

(** **** The keys of a mapped record *)

Lemma ownProperty_setProp props key v k :
  ownProperty (setProp props key v) k
  = if String.eqb key k then Some v else ownProperty props k.
Proof.
  induction props as [|[k0 w] props IH]; simpl.
  - destruct (String.eqb_spec key k); reflexivity.
  - destruct (String.eqb_spec k0 key) as [->|Hne]; simpl.
    + destruct (String.eqb_spec key k); reflexivity.
    + destruct (String.eqb_spec k0 k) as [->|Hne'].
      * destruct (String.eqb_spec key k); [congruence | reflexivity].
      * exact IH.
Qed.

Lemma applyMapping_loop_keys data entries result final k :
  applyMapping_loop data entries result = Ok final ->
  (is_Some (ownProperty final k) <-> is_Some (ownProperty result k) \/ k ∈ entries.*1).
Proof.
  revert result. induction entries as [|[target rule] entries IH]; intros result; simpl.
  - intros [= <-]. rewrite elem_of_nil. tauto.
  - destruct (applyRule data rule) as [value|e]; simpl; [|discriminate].
    intros Hloop. rewrite (IH _ Hloop), ownProperty_setProp, elem_of_cons.
    destruct (String.eqb_spec target k) as [->|Hne].
    + split; [auto|]. intros _. left. eexists; reflexivity.
    + split; [tauto|]. intros [Hs | [Heq | Hin]]; [tauto | congruence | tauto].
Qed.

Lemma applyRule_plain data entry :
  plainEntry entry -> isOk (applyRule data entry) = true.
Proof.
  destruct entry as [path|rule]; simpl; [reflexivity|]. intros ->. reflexivity.
Qed.

Lemma applyMapping_loop_plain data entries result :
  Forall (fun entry => plainEntry entry.2) entries ->
  isOk (applyMapping_loop data entries result) = true.
Proof.
  intros Hplain. revert result.
  induction Hplain as [|[target rule] entries Hrule _ IH]; intros result; [reflexivity|].
  cbn [applyMapping_loop]. pose proof (applyRule_plain data rule Hrule) as Hok.
  destruct (applyRule data rule); [|discriminate]. simpl. apply IH.
Qed.

End NestedPaths.

(** X2. A dotted path is followed segment by segment: reading [p.q] is
    reading [q] in what [p] reads, also when [p] leads to nothing. *)
Theorem getNestedValue_composes :
  forall (engine : Js.JsEngine) (obj : Js.JsValue) (p q : string),
    RestApiCollector.getNestedValue obj (p +:+ "." +:+ q)
    = RestApiCollector.getNestedValue (RestApiCollector.getNestedValue obj p) q.
Proof.
  intros engine obj p q. unfold RestApiCollector.getNestedValue.
  rewrite split_dots_join. apply getNestedValue_loop_app.
Qed.

(** X3. When [applyMapping] returns, the record it returns has exactly the
    target fields of the mapping, present even when their value is
    [undefined]; and it returns for every record when no entry of the
    mapping has a transform. *)
Theorem applyMapping_target_fields :
  forall (engine : Js.JsEngine) (data : Js.JsValue) (mapping : Types.FieldMapping),
    (forall mapped k,
       RestApiCollector.applyMapping data mapping = Ok mapped ->
       (is_Some (Js.ownProperty mapped k) <-> k ∈ mapping.*1))
    /\ (Forall (fun entry => SpecMore.plainEntry entry.2) mapping ->
        isOk (RestApiCollector.applyMapping data mapping) = true).
Proof.
  intros engine data mapping. split.
  - intros mapped k Hmap. unfold RestApiCollector.applyMapping in Hmap.
    rewrite (applyMapping_loop_keys _ _ _ _ k Hmap). simpl.
    split; [intros [[? [=]] | ?]; assumption | auto].
  - apply applyMapping_loop_plain.
Qed.

(** ** Requests and endpoints (collectors/rest-api.ts) *)

Section Requests.
Import Js Types Outside RestApiCollector SpecMore.
Context `{JsEngine}.
Variable JSON_stringify : JsValue -> string.


(** [normalizeItems] gives one item per record, each pending and stamped
    with the collection time. *)
Lemma normalizeItems_shape E sourceConfig endpoint now records w items w' :
  normalizeItems JSON_stringify E sourceConfig endpoint now records w = (Ok items, w') ->
  length items = length records
  /\ Forall (fun item => processedStatusOf item = "pending" /\ collectedAtOf item = now) items.
Proof.
  revert w items w'. induction records as [|record records IH]; intros w items w'.
  - simpl. intros [= <- _]. split; [reflexivity | constructor].
  - cbn [normalizeItems].
    destruct (normalizeItem JSON_stringify sourceConfig endpoint now
                (random E (draws w)) record) as [info|e] eqn:Hitem; [|discriminate].
    destruct (normalizeItems JSON_stringify E sourceConfig endpoint now records _)
      as [[infos|e] w''] eqn:Hrest; [|discriminate].
    intros [= <- _]. destruct (IH _ _ _ Hrest) as [Hlen Hall].
    split; [simpl; lia|]. constructor; [|exact Hall].
    clear -Hitem. unfold normalizeItem in Hitem.
    apply bind_Ok in Hitem as (mappedData & _ & Hitem).
    apply bind_Ok in Hitem as (sourceId & _ & Hitem).
    destruct (String.eqb (sc_type sourceConfig) "project_info");
      invert_binds Hitem; injection Hitem as <-; split; reflexivity.
Qed.


(** **** Partial results *)




End Requests.

(** X4. [fetchWithRetry] makes one, two or three requests and no other use of
    the world.  When it returns, the data are those of its last request
    and the requests before it gave nothing; when it throws, all three
    requests were made, and the exception is the one of the third request,
    or "Max retries exceeded" when the third was answered with 429. *)
Theorem fetchWithRetry_three_attempts :
  forall (engine : Js.JsEngine) (E : Outside.Env) (w : Outside.World),
    let r := (RestApiCollector.fetchWithRetry E w).1 in
    let w' := (RestApiCollector.fetchWithRetry E w).2 in
    Outside.draws w' = Outside.draws w /\ Outside.ticks w' = Outside.ticks w
    /\ (Outside.requests w < Outside.requests w' <= Outside.requests w + 3)%nat
    /\ (forall j data,
          (Outside.requests w <= j)%nat -> (S j < Outside.requests w')%nat ->
          RestApiCollector.attempt (Outside.net E j) <> RestApiCollector.Returned data)
    /\ (forall data, r = Ok data ->
          RestApiCollector.attempt (Outside.net E (Outside.requests w' - 1))
          = RestApiCollector.Returned data)
    /\ (forall e, r = Throw e ->
          Outside.requests w' = (Outside.requests w + 3)%nat
          /\ (RestApiCollector.attempt (Outside.net E (Outside.requests w + 2))
              = RestApiCollector.Thrown e
              \/ RestApiCollector.attempt (Outside.net E (Outside.requests w + 2))
                 = RestApiCollector.Continued
                 /\ e = Error "Max retries exceeded")).
Proof.
  intros engine E w. unfold RestApiCollector.fetchWithRetry.
  cbn [RestApiCollector.fetchWithRetry_loop Outside.requests Outside.draws Outside.ticks].
  replace (Outside.requests w + 2)%nat with (S (S (Outside.requests w))) by lia.
  destruct (RestApiCollector.attempt (Outside.net E (Outside.requests w)))
    as [d0| |e0] eqn:H0;
    destruct (RestApiCollector.attempt (Outside.net E (S (Outside.requests w))))
      as [d1| |e1] eqn:H1;
    destruct (RestApiCollector.attempt (Outside.net E (S (S (Outside.requests w)))))
      as [d2| |e2] eqn:H2;
    cbn [fst snd Outside.requests Outside.draws Outside.ticks];
    repeat match goal with |- _ /\ _ => split end;
    try reflexivity; try lia;
    try (intros j data Hlo Hhi;
         first [ lia
               | assert (Hj : j = Outside.requests w \/ j = S (Outside.requests w)) by lia;
                 destruct Hj as [-> | ->]; first [congruence | lia] ]);
    try (intros data Hd;
         first [ discriminate Hd
               | injection Hd as <-; rewrite ?Nat.sub_1_r; cbn [Nat.pred]; assumption ]);
    try (intros e He;
         first [ discriminate He
               | injection He as <-; split; [lia | auto] ]).
Qed.

(** The endpoint of the sample answers. *)
Lemma apiUp_fetch_returns :
  isOk (RestApiCollector.fetchEndpoint Reference.stringify SamplesMore.apiUp
          Samples.defillama Samples.protocols Samples.start).1 = true.
Proof. vm_compute. reflexivity. Qed.

(** X5. When an endpoint is fetched, every record of the response (up to the
    limit of the endpoint, when it has one) gives one item: none is lost
    and none is added; every item is pending and carries the same
    collection time. *)
Theorem fetchEndpoint_one_item_per_record :
  forall (engine : Js.JsEngine) (JSON_stringify : Js.JsValue -> string)
         (E : Outside.Env) (sourceConfig : Types.SourceConfig)
         (endpoint : Types.RestApiEndpoint) (w w' : Outside.World)
         (items : list Types.Item),
    RestApiCollector.fetchEndpoint JSON_stringify E sourceConfig endpoint w
    = (Ok items, w') ->
    exists data w1,
      RestApiCollector.fetchWithRetry E w = (Ok data, w1)
      /\ length items
         = match Types.limit endpoint with
           | Some (S n) => Nat.min (S n) (length (SpecMore.recordsOf data))
           | _ => length (SpecMore.recordsOf data)
           end
      /\ Forall (fun item =>
                   SpecMore.processedStatusOf item = "pending"
                   /\ SpecMore.collectedAtOf item
                      = Js.toISOString (Outside.clock E (Outside.ticks w1)))
                items.
Proof.
  intros engine JSON_stringify E sourceConfig endpoint w w' items.
  unfold RestApiCollector.fetchEndpoint.
  destruct (RestApiCollector.fetchWithRetry E w) as [[data|e] w1]; [|discriminate].
  intros Hitems. apply normalizeItems_shape in Hitems as [Hlen Hall].
  exists data, w1. split; [reflexivity|]. split; [|exact Hall].
  rewrite Hlen. unfold SpecMore.recordsOf.
  destruct (Types.limit endpoint) as [[|n]|]; try reflexivity.
  rewrite length_take. reflexivity.
Qed.

Lemma fetchEndpoint_one_item_per_record_witness :
  exists items w',
    RestApiCollector.fetchEndpoint Reference.stringify SamplesMore.apiUp
      Samples.defillama Samples.protocols Samples.start = (Ok items, w')
    /\ Forall (fun item => SpecMore.processedStatusOf item = "pending") items.
Proof.
  destruct (RestApiCollector.fetchEndpoint Reference.stringify SamplesMore.apiUp
              Samples.defillama Samples.protocols Samples.start)
    as [[items|e] w'] eqn:Hfetch.
  - exists items, w'. split; [reflexivity|].
    destruct (fetchEndpoint_one_item_per_record Reference.engine Reference.stringify
                SamplesMore.apiUp Samples.defillama Samples.protocols Samples.start w'
                items Hfetch) as (data & w1 & _ & _ & Hall).
    eapply Forall_impl; [exact Hall|]. intros item [Hpending _]. exact Hpending.
  - pose proof apiUp_fetch_returns as Hok. rewrite Hfetch in Hok. discriminate Hok.
Defined.



(** ** The mutation engine (ai-agent/services/processor.ts, dynamodb.ts) *)

Section Engine.
Import Shared Bedrock Processor SpecMore.

Lemma existsb_riskKey flag flags :
  existsb (fun f => String.eqb (risk_type f) (rfi_type flag)
                    && String.eqb (risk_description f) (rfi_description flag)) flags = true
  <-> (rfi_type flag, rfi_description flag) ∈ map riskKey flags.
Proof.
  induction flags as [|f flags IH]; simpl.
  - split; [discriminate | intros Hin; inversion Hin].
  - rewrite orb_true_iff, IH, elem_of_cons, andb_true_iff, !String.eqb_eq.
    unfold riskKey at 1. split.
    + intros [[<- <-]|Hin]; [left; reflexivity | right; exact Hin].
    + intros [[= -> ->]|Hin]; [left; split; reflexivity | right; exact Hin].
Qed.

Lemma existsb_opportunityKey flag flags :
  existsb (fun f => String.eqb (opp_type f) (ofi_type flag)
                    && String.eqb (opp_description f) (ofi_description flag)) flags = true
  <-> (ofi_type flag, ofi_description flag) ∈ map opportunityKey flags.
Proof.
  induction flags as [|f flags IH]; simpl.
  - split; [discriminate | intros Hin; inversion Hin].
  - rewrite orb_true_iff, IH, elem_of_cons, andb_true_iff, !String.eqb_eq.
    unfold opportunityKey at 1. split.
    + intros [[<- <-]|Hin]; [left; reflexivity | right; exact Hin].
    + intros [[= -> ->]|Hin]; [left; split; reflexivity | right; exact Hin].
Qed.

(** What an operation does to a stored entity.  Each case is the entity
    that is stored afterwards, field by field. *)
Lemma executeOperation_stored stamp operation table j p :
  table !! j = Some p ->
  exists p',
    (executeOperation stamp operation table).2 !! j = Some p'
    /\ project_id p' = project_id p
    /\ project_name p' = project_name p
    /\ project_category p' = project_category p
    /\ createdAt p' = createdAt p
    /\ match operation with
       | create entity =>
           (entity_id entity = j ->
            project_description p'
              = from_option Some (project_description p) (entity_description entity)
            /\ project_logo p' = from_option Some (project_logo p) (entity_logo entity)
            /\ project_website p'
               = from_option Some (project_website p) (entity_website entity)
            /\ project_twitter p'
               = from_option Some (project_twitter p) (entity_twitter entity))
       | _ =>
           project_description p' = project_description p
           /\ project_logo p' = project_logo p
           /\ project_website p' = project_website p
           /\ project_twitter p' = project_twitter p
       end
    /\ match operation with
       | update entityId updates _ =>
           (entityId = j ->
            healthScore p' = default (healthScore p) (upd_healthScore updates)
            /\ status p' = default (status p) (upd_status updates)
            /\ newsSentiment p' = default (newsSentiment p) (upd_newsSentiment updates))
       | _ =>
           healthScore p' = healthScore p /\ status p' = status p
           /\ newsSentiment p' = newsSentiment p
       end
    /\ match operation with
       | add_event entityId event =>
           entityId = j ->
           exists newEvent,
             recentEvents p' = take 20 (newEvent :: recentEvents p)
             /\ evt_title newEvent = ev_title event
             /\ evt_id newEvent = "evt-" +:+ millis stamp +:+ "-" +:+ random9 stamp
       | _ => recentEvents p' = recentEvents p
       end
    /\ match operation with
       | add_risk_flag entityId flag =>
           entityId = j ->
           if decide ((rfi_type flag, rfi_description flag) ∈ map riskKey (riskFlags p))
           then p' = p
           else exists newFlag,
                  riskFlags p' = newFlag :: riskFlags p
                  /\ riskKey newFlag = (rfi_type flag, rfi_description flag)
                  /\ severity newFlag = rfi_severity flag
                  /\ risk_detectedAt newFlag = iso stamp
       | _ => riskFlags p' = riskFlags p
       end
    /\ match operation with
       | add_opportunity_flag entityId flag =>
           entityId = j ->
           if decide ((ofi_type flag, ofi_description flag)
                        ∈ map opportunityKey (opportunityFlags p))
           then p' = p
           else exists newFlag,
                  opportunityFlags p' = newFlag :: opportunityFlags p
                  /\ opportunityKey newFlag = (ofi_type flag, ofi_description flag)
                  /\ importance newFlag = ofi_importance flag
                  /\ opp_detectedAt newFlag = iso stamp
       | _ => opportunityFlags p' = opportunityFlags p
       end.
Proof.
  intros Hp.
  destruct operation as [entity|entityId updates reason|entityId event
                        |entityId flag|entityId flag]; cbn [executeOperation].
  - destruct (getProject table (entity_id entity)) as [existing|] eqn:Hex;
      unfold getProject in Hex; cbn [snd].
    + rewrite updateProject_lookup. case_decide as Hj.
      * rewrite Hp. eexists. split; [reflexivity|]. simpl. tauto.
      * exists p. split; [exact Hp|]. tauto.
    + unfold createProject. cbn [project_id].
      rewrite lookup_insert_ne by congruence.
      exists p. split; [exact Hp|]. repeat split; try reflexivity; congruence.
  - destruct (getProject table entityId) as [existing|] eqn:Hex;
      unfold getProject in Hex; cbn [snd].
    + rewrite updateProject_lookup. case_decide as Hj.
      * rewrite Hp. eexists. split; [reflexivity|]. simpl. tauto.
      * exists p. split; [exact Hp|]. tauto.
    + exists p. split; [exact Hp|]. repeat split; try reflexivity; congruence.
  - cbn [snd]. unfold addProjectEvent.
    destruct (getProject table entityId) as [existing|] eqn:Hex; unfold getProject in Hex.
    + rewrite updateProject_lookup. case_decide as Hj.
      * subst j. rewrite Hp. eexists. split; [reflexivity|]. simpl.
        assert (existing = p) as -> by congruence.
        repeat split; try reflexivity. intros _. eexists. repeat split; reflexivity.
      * exists p. split; [exact Hp|]. repeat split; try reflexivity; congruence.
    + exists p. split; [exact Hp|]. repeat split; try reflexivity; congruence.
  - cbn [snd]. unfold addRiskFlag.
    destruct (getProject table entityId) as [existing|] eqn:Hex; unfold getProject in Hex.
    + destruct (existsb _ (riskFlags existing)) eqn:Hdup; cbn [negb].
      * exists p. split; [exact Hp|]. repeat split; try reflexivity.
        intros ->. assert (existing = p) as -> by congruence.
        apply existsb_riskKey in Hdup. rewrite decide_True by exact Hdup. reflexivity.
      * rewrite updateProject_lookup. case_decide as Hj.
        -- subst j. rewrite Hp. eexists. split; [reflexivity|]. simpl.
           assert (existing = p) as -> by congruence.
           repeat split; try reflexivity. intros _.
           rewrite decide_False
             by (intros Hin; apply existsb_riskKey in Hin; congruence).
           eexists. repeat split; reflexivity.
        -- exists p. split; [exact Hp|]. repeat split; try reflexivity; congruence.
    + exists p. split; [exact Hp|]. repeat split; try reflexivity; congruence.
  - cbn [snd]. unfold addOpportunityFlag.
    destruct (getProject table entityId) as [existing|] eqn:Hex; unfold getProject in Hex.
    + destruct (existsb _ (opportunityFlags existing)) eqn:Hdup; cbn [negb].
      * exists p. split; [exact Hp|]. repeat split; try reflexivity.
        intros ->. assert (existing = p) as -> by congruence.
        apply existsb_opportunityKey in Hdup. rewrite decide_True by exact Hdup.
        reflexivity.
      * rewrite updateProject_lookup. case_decide as Hj.
        -- subst j. rewrite Hp. eexists. split; [reflexivity|]. simpl.
           assert (existing = p) as -> by congruence.
           repeat split; try reflexivity. intros _.
           rewrite decide_False
             by (intros Hin; apply existsb_opportunityKey in Hin; congruence).
           eexists. repeat split; reflexivity.
        -- exists p. split; [exact Hp|]. repeat split; try reflexivity; congruence.
    + exists p. split; [exact Hp|]. repeat split; try reflexivity; congruence.
Qed.

(** What an operation does at an id that is not stored. *)
Lemma executeOperation_absent stamp operation table j :
  table !! j = None ->
  (executeOperation stamp operation table).2 !! j = None
  \/ exists entity,
       operation = create entity /\ entity_id entity = j
       /\ (executeOperation stamp operation table).2 !! j
          = Some {| project_id := entity_id entity;
                    project_name := entity_name entity;
                    project_category := entity_category entity;
                    project_description := entity_description entity;
                    project_logo := entity_logo entity;
                    project_website := entity_website entity;
                    project_twitter := entity_twitter entity;
                    status := "normal";
                    healthScore := 70;
                    newsSentiment := "neutral";
                    recentEvents := [];
                    riskFlags := [];
                    opportunityFlags := [];
                    lastUpdated := iso stamp;
                    createdAt := iso stamp |}.
Proof.
  intros Hj.
  assert (Hupd : forall now id updates, updateProject now id updates table !! j = None).
  { intros now id updates. rewrite updateProject_lookup.
    case_decide; rewrite Hj; reflexivity. }
  destruct operation as [entity|entityId updates reason|entityId event
                        |entityId flag|entityId flag]; cbn [executeOperation].
  - destruct (getProject table (entity_id entity)) as [existing|] eqn:Hex;
      unfold getProject in Hex; cbn [snd].
    + left. apply Hupd.
    + unfold createProject. cbn [project_id project_name project_category
        project_description project_logo project_website project_twitter status
        healthScore newsSentiment recentEvents riskFlags opportunityFlags].
      destruct (decide (entity_id entity = j)) as [Heq|Hne].
      * right. exists entity. split; [reflexivity|]. split; [exact Heq|].
        rewrite Heq. apply lookup_insert_eq.
      * left. rewrite lookup_insert_ne by exact Hne. exact Hj.
  - left. destruct (getProject table entityId); cbn [snd]; [apply Hupd | exact Hj].
  - left. cbn [snd]. unfold addProjectEvent.
    destruct (getProject table entityId); [apply Hupd | exact Hj].
  - left. cbn [snd]. unfold addRiskFlag.
    destruct (getProject table entityId); [|exact Hj].
    destruct (negb _); [apply Hupd | exact Hj].
  - left. cbn [snd]. unfold addOpportunityFlag.
    destruct (getProject table entityId); [|exact Hj].
    destruct (negb _); [apply Hupd | exact Hj].
Qed.

Lemma executeOperation_other stamp operation table j :
  j <> entityIdOf operation ->
  (executeOperation stamp operation table).2 !! j = table !! j.
Proof.
  intros Hne.
  assert (Hupd : forall now updates,
             updateProject now (entityIdOf operation) updates table !! j = table !! j).
  { intros now updates. rewrite updateProject_lookup, decide_False by congruence.
    reflexivity. }
  destruct operation as [entity|entityId updates reason|entityId event
                        |entityId flag|entityId flag]; cbn [executeOperation entityIdOf] in *.
  - destruct (getProject table (entity_id entity)); cbn [snd]; [apply Hupd|].
    unfold createProject. cbn [project_id]. apply lookup_insert_ne. congruence.
  - destruct (getProject table entityId); cbn [snd]; [apply Hupd | reflexivity].
  - cbn [snd]. unfold addProjectEvent.
    destruct (getProject table entityId); [apply Hupd | reflexivity].
  - cbn [snd]. unfold addRiskFlag. destruct (getProject table entityId); [|reflexivity].
    destruct (negb _); [apply Hupd | reflexivity].
  - cbn [snd]. unfold addOpportunityFlag.
    destruct (getProject table entityId); [|reflexivity].
    destruct (negb _); [apply Hupd | reflexivity].
Qed.

(** X7. An operation touches the entity it addresses and no other.  It never
    deletes an entity; only [create] adds one, with the score 70, the
    status normal and no flags or events; and no operation changes the
    name, the category or the creation time of a stored entity: a
    [create] of an id that is stored updates the description, logo,
    website and twitter it supplies, and nothing else.  The id reported
    is the one addressed, except for an [update] of a missing entity. *)
Theorem executeOperation_touches_only_target :
  forall (stamp : Stamp) (operation : EntityOperation) (table : gmap string Project),
    let table' := (executeOperation stamp operation table).2 in
    (forall j, j <> entityIdOf operation -> table' !! j = table !! j)
    /\ (forall j p,
          table !! j = Some p ->
          exists p',
            table' !! j = Some p'
            /\ project_name p' = project_name p
            /\ project_category p' = project_category p
            /\ createdAt p' = createdAt p
            /\ (operationType operation <> "update" ->
                healthScore p' = healthScore p /\ status p' = status p
                /\ newsSentiment p' = newsSentiment p)
            /\ (operationType operation <> "add_event" -> recentEvents p' = recentEvents p)
            /\ (operationType operation <> "add_risk_flag" -> riskFlags p' = riskFlags p)
            /\ (operationType operation <> "add_opportunity_flag" ->
                opportunityFlags p' = opportunityFlags p)
            /\ (operationType operation <> "create" ->
                project_description p' = project_description p
                /\ project_logo p' = project_logo p
                /\ project_website p' = project_website p
                /\ project_twitter p' = project_twitter p))
    /\ (forall j p',
          table !! j = None -> table' !! j = Some p' ->
          exists entity,
            operation = create entity /\ entity_id entity = j
            /\ project_name p' = entity_name entity
            /\ healthScore p' = 70 /\ status p' = "normal"
            /\ recentEvents p' = [] /\ riskFlags p' = [] /\ opportunityFlags p' = [])
    /\ ((executeOperation stamp operation table).1
        = match operation with
          | update entityId _ _ =>
              if decide (is_Some (table !! entityId)) then Some entityId else None
          | _ => Some (entityIdOf operation)
          end).
Proof.
  intros stamp operation table table'. subst table'.
  split; [|split; [|split]].
  - intros j Hne. apply executeOperation_other, Hne.
  - intros j p Hp.
    destruct (executeOperation_stored stamp operation table j p Hp)
      as (p' & Hp' & _ & Hname & Hcat & Hcreated & Hdesc & Hscore & Hev & Hrisk & Hopp).
    exists p'. split; [exact Hp'|].
    destruct operation; cbn [operationType] in *;
      repeat split; try tauto; try congruence; intros; tauto.
  - intros j p' Hj Hp'.
    destruct (executeOperation_absent stamp operation table j Hj)
      as [Hnone | (entity & -> & Hid & Hsome)]; [congruence|].
    exists entity. rewrite Hsome in Hp'. injection Hp' as <-.
    repeat split; try reflexivity; exact Hid.
  - destruct operation as [entity|entityId updates reason|entityId event
                          |entityId flag|entityId flag]; cbn [executeOperation entityIdOf];
      try reflexivity.
    + destruct (getProject table (entity_id entity)); reflexivity.
    + unfold getProject. destruct (table !! entityId) as [existing|] eqn:Hex; cbn [fst].
      * rewrite decide_True by (eexists; reflexivity). reflexivity.
      * rewrite decide_False by (intros [x Hx]; discriminate). reflexivity.
Qed.

Lemma executeOperations_cons stamp operation ops table :
  executeOperations ((stamp, operation) :: ops) table
  = executeOperations ops (executeOperation stamp operation table).2.
Proof. reflexivity. Qed.

(** X8. The list of recent events of an entity holds at most 20 events: the
    [add_event] operations that address it put their events in front and
    drop what is beyond the twentieth, and no other operation changes its
    length. *)
Theorem recentEvents_capped_at_20 :
  forall (ops : list (Stamp * EntityOperation)) (table : gmap string Project)
         (id : string) (p : Project),
    table !! id = Some p ->
    (length (recentEvents p) <= 20)%nat ->
    exists p',
      executeOperations ops table !! id = Some p'
      /\ length (recentEvents p')
         = Nat.min 20 (length (recentEvents p) + eventCount id ops).
Proof.
  induction ops as [|[stamp operation] ops IH]; intros table id p Hp Hlen.
  - exists p. split; [exact Hp|]. cbn [eventCount]. lia.
  - rewrite executeOperations_cons.
    destruct (executeOperation_stored stamp operation table id p Hp)
      as (p1 & Hp1 & _ & _ & _ & _ & _ & _ & Hev & _).
    assert (Hlen1 : length (recentEvents p1)
                    = Nat.min 20 (length (recentEvents p) + eventCount id [(stamp, operation)])).
    { destruct operation as [entity|entityId updates reason|entityId event
                            |entityId flag|entityId flag]; cbn [eventCount];
        try (rewrite Hev; lia).
      destruct (String.eqb entityId id) eqn:Heq.
      - apply String.eqb_eq in Heq. destruct (Hev Heq) as (newEvent & -> & _).
        rewrite length_take. cbn [length]. lia.
      - apply String.eqb_neq in Heq.
        pose proof (executeOperation_other stamp (add_event entityId event) table id) as Ho.
        rewrite Ho in Hp1 by (simpl; congruence).
        assert (p1 = p) as -> by congruence. lia. }
    destruct (IH _ id p1 Hp1) as (p' & Hp' & Hlen'); [lia|].
    exists p'. split; [exact Hp'|]. rewrite Hlen', Hlen1.
    destruct operation as [entity|entityId updates reason|entityId event
                          |entityId flag|entityId flag]; cbn [eventCount]; try lia.
    destruct (String.eqb entityId id); lia.
Qed.

Lemma acmeStore_acme : Samples.acmeStore !! "acme" = Some SamplesMore.acmeProject.
Proof. apply lookup_insert_eq. Qed.

Lemma recentEvents_capped_at_20_witness :
  exists p',
    executeOperations [(Samples.sampleStamp, add_event "acme" SamplesMore.listing)]
      Samples.acmeStore !! "acme" = Some p'
    /\ length (recentEvents p') = 1%nat.
Proof.
  refine (recentEvents_capped_at_20 _ Samples.acmeStore "acme" SamplesMore.acmeProject _ _).
  - apply lookup_insert_eq.
  - simpl. lia.
Defined.

(** X9. The engine keeps the flags of every entity free of duplicates: a flag
    whose type and description an entity already carries is not added
    again, whatever its severity, its source and the time; a flag that is
    added goes in front. *)
Theorem flags_never_duplicated :
  forall (ops : list (Stamp * EntityOperation)) (table : gmap string Project),
    flagsDistinct table ->
    flagsDistinct (executeOperations ops table)
    /\ (forall stamp stamp' id flag flag',
          rfi_type flag' = rfi_type flag ->
          rfi_description flag' = rfi_description flag ->
          is_Some (table !! id) ->
          addRiskFlag stamp' id flag' (addRiskFlag stamp id flag table)
          = addRiskFlag stamp id flag table)
    /\ (forall stamp stamp' id flag flag',
          ofi_type flag' = ofi_type flag ->
          ofi_description flag' = ofi_description flag ->
          is_Some (table !! id) ->
          addOpportunityFlag stamp' id flag' (addOpportunityFlag stamp id flag table)
          = addOpportunityFlag stamp id flag table).
Proof.
  intros ops table Hinv. split; [|split].
  - revert table Hinv. induction ops as [|[stamp operation] ops IH]; intros table Hinv;
      [exact Hinv|].
    rewrite executeOperations_cons. apply IH. clear IH ops.
    intros j p' Hp'. destruct (table !! j) as [p|] eqn:Hp.
    + destruct (Hinv j p Hp) as [Hrisk Hopp].
      destruct (executeOperation_stored stamp operation table j p Hp)
        as (q & Hq & _ & _ & _ & _ & _ & _ & _ & Hr & Ho).
      rewrite Hq in Hp'. injection Hp' as <-.
      destruct (decide (entityIdOf operation = j)) as [Heq|Hne].
      * destruct operation as [entity|entityId updates reason|entityId event
                              |entityId flag|entityId flag]; cbn [entityIdOf] in Heq;
          try (rewrite Hr, Ho; split; assumption).
        -- specialize (Hr Heq). rewrite Ho. case_decide as Hin.
           ++ subst q. split; assumption.
           ++ destruct Hr as (newFlag & -> & Hkey & _). split; [|exact Hopp].
              cbn [map]. rewrite Hkey. constructor; assumption.
        -- specialize (Ho Heq). rewrite Hr. case_decide as Hin.
           ++ subst q. split; assumption.
           ++ destruct Ho as (newFlag & -> & Hkey & _). split; [exact Hrisk|].
              cbn [map]. rewrite Hkey. constructor; assumption.
      * rewrite executeOperation_other in Hq by congruence.
        assert (q = p) as -> by congruence. split; assumption.
    + destruct (executeOperation_absent stamp operation table j Hp)
        as [Hnone | (entity & _ & _ & Hsome)]; [congruence|].
      rewrite Hsome in Hp'. injection Hp' as <-. simpl. split; constructor.
  - intros stamp stamp' id flag flag' Htype Hdesc [p Hp].
    pose proof (executeOperation_stored stamp (add_risk_flag id flag) table id p Hp)
      as (q & Hq & _ & _ & _ & _ & _ & _ & _ & Hr & _).
    cbn [executeOperation snd] in Hq. specialize (Hr eq_refl).
    set (table1 := addRiskFlag stamp id flag table) in *.
    unfold addRiskFlag at 1. unfold getProject. rewrite Hq.
    assert (Hin : (rfi_type flag', rfi_description flag') ∈ map riskKey (riskFlags q)).
    { rewrite Htype, Hdesc. case_decide as Hold.
      - subst q. exact Hold.
      - destruct Hr as (newFlag & -> & Hkey & _). cbn [map]. rewrite Hkey.
        apply elem_of_cons. left. reflexivity. }
    apply existsb_riskKey in Hin. rewrite Hin. reflexivity.
  - intros stamp stamp' id flag flag' Htype Hdesc [p Hp].
    pose proof (executeOperation_stored stamp (add_opportunity_flag id flag) table id p Hp)
      as (q & Hq & _ & _ & _ & _ & _ & _ & _ & _ & Ho).
    cbn [executeOperation snd] in Hq. specialize (Ho eq_refl).
    set (table1 := addOpportunityFlag stamp id flag table) in *.
    unfold addOpportunityFlag at 1. unfold getProject. rewrite Hq.
    assert (Hin : (ofi_type flag', ofi_description flag')
                    ∈ map opportunityKey (opportunityFlags q)).
    { rewrite Htype, Hdesc. case_decide as Hold.
      - subst q. exact Hold.
      - destruct Ho as (newFlag & -> & Hkey & _). cbn [map]. rewrite Hkey.
        apply elem_of_cons. left. reflexivity. }
    apply existsb_opportunityKey in Hin. rewrite Hin. reflexivity.
Qed.

Lemma flags_never_duplicated_witness :
  flagsDistinct
    (executeOperations
       [(Samples.sampleStamp, add_risk_flag "acme" Samples.sampleFlag);
        (Samples.sampleStamp, add_risk_flag "acme" Samples.sampleFlag)]
       Samples.acmeStore).
Proof.
  refine (proj1 (flags_never_duplicated _ Samples.acmeStore _)).
  intros id p Hp. destruct (decide (id = "acme")) as [->|Hne].
  - rewrite acmeStore_acme in Hp. injection Hp as <-. simpl. split; constructor.
  - unfold Samples.acmeStore in Hp.
    rewrite executeOperation_other in Hp by (simpl; congruence).
    rewrite lookup_empty in Hp. discriminate.
Defined.

End Engine.

(** ** The conversation with the model (ai-agent/services/bedrock.ts) *)

Section Conversation.
Import Bedrock Spec SpecMore.

Variable invoke : list Message -> Result BedrockResponse.

Lemma processToolUse_results s toolUse :
  st_toolResults (processToolUse s toolUse)
  = app (st_toolResults s) [acknowledge toolUse].
Proof. destruct toolUse as [id []]; reflexivity. Qed.

Lemma fold_processToolUse_results blocks s :
  st_toolResults (fold_left processToolUse blocks s)
  = app (st_toolResults s) (map acknowledge blocks).
Proof.
  revert s. induction blocks as [|b blocks IH]; intros s; cbn [fold_left map].
  - rewrite app_nil_r. reflexivity.
  - rewrite IH, processToolUse_results, <- app_assoc. reflexivity.
Qed.

Lemma afterReports_app reports1 reports2 before :
  afterReports (app reports1 reports2) before
  = afterReports reports2 (afterReports reports1 before).
Proof.
  unfold afterReports. rewrite last_app. destruct (last reports2); reflexivity.
Qed.

Lemma fold_processToolUse_analysis blocks s :
  (st_analysis (fold_left processToolUse blocks s),
   st_reasoning (fold_left processToolUse blocks s))
  = afterReports
      (omap (fun toolUse : string * ToolCall =>
               match toolUse.2 with report_analysis input => Some input | _ => None end)
            blocks)
      (st_analysis s, st_reasoning s).
Proof.
  revert s. induction blocks as [|[id call] blocks IH]; intros s; [reflexivity|].
  cbn [fold_left]. rewrite IH. clear IH.
  change ((id, call) :: blocks) with (app [(id, call)] blocks).
  rewrite omap_app, afterReports_app. f_equal.
  destruct call; try reflexivity; cbn; destruct (toolCallToOperation _); reflexivity.
Qed.

Lemma round_conversation s response :
  invoke (messages s) = Ok response ->
  exists s', afterRound (round invoke s) = Some s'
    /\ messages s' = app (messages s) (exchange response)
    /\ (st_analysis s', st_reasoning s')
       = afterReports (reportsOf response) (st_analysis s, st_reasoning s).
Proof.
  intros Hr. unfold round, exchange, reportsOf. rewrite Hr.
  destruct (toolUseBlocks (content response)) as [|b blocks] eqn:Hb.
  - eexists. split; [reflexivity|]. cbn. rewrite app_nil_r. split; reflexivity.
  - set (s0 := {| messages := messages s; st_operations := st_operations s;
                  st_analysis := st_analysis s; st_reasoning := st_reasoning s;
                  st_toolResults := []; requestsSent := S (requestsSent s) |}).
    pose proof (fold_processToolUse_results (b :: blocks) s0) as Hres.
    pose proof (fold_processToolUse_analysis (b :: blocks) s0) as Han.
    destruct (fold_processToolUse_frame (b :: blocks) s0) as [Hmsg _].
    destruct (String.eqb (stop_reason response) "end_turn");
      (eexists; split; [reflexivity|]);
      cbn [messages st_analysis st_reasoning];
      rewrite Hmsg, Hres, Han; split; reflexivity.
Qed.

Lemma toolUseLoop_conversation n s s' :
  toolUseLoop invoke n s = Ok s' ->
  messages s' = app (messages s) (flat_map exchange (transcript invoke n s))
  /\ (st_analysis s', st_reasoning s')
     = afterReports (flat_map reportsOf (transcript invoke n s))
         (st_analysis s, st_reasoning s).
Proof.
  revert s. induction n as [|n IH]; intros s Hloop.
  - simpl in *. injection Hloop as <-. rewrite app_nil_r. split; reflexivity.
  - rewrite toolUseLoop_step in Hloop. cbn [transcript].
    destruct (invoke (messages s)) as [response|e] eqn:Hr.
    + destruct (round_conversation s response Hr) as (s1 & Hafter & Hmsg & Han).
      destruct (round invoke s) as [[s2|e]|s2]; simpl in Hafter; simplify_eq.
      * cbn [flat_map]. rewrite !app_nil_r. split; assumption.
      * destruct (IH _ Hloop) as [Hmsg' Han']. cbn [flat_map].
        rewrite Hmsg', Han', Hmsg, Han, <- app_assoc, afterReports_app.
        split; reflexivity.
    + unfold round in Hloop. rewrite Hr in Hloop. discriminate.
Qed.

End Conversation.

(** X10. The conversation the loop of [analyzeWithTools] holds: after the
    prompt, every response with tool calls is recorded, followed by one
    message of tool results that answers each of its tool calls, in order,
    under the id of the call: a report is received, a known tool is
    recorded, an unknown tool is refused.  A response without tool calls
    is not recorded. *)
Theorem every_tool_call_is_answered :
  forall (invoke : list Bedrock.Message -> Result Bedrock.BedrockResponse)
         (userPrompt : string) (s : Bedrock.LoopState),
    Bedrock.runToolUseLoop invoke userPrompt = Ok s ->
    Bedrock.messages s
    = Bedrock.UserPrompt userPrompt
      :: flat_map SpecMore.exchange
           (Spec.transcript invoke 5 (Bedrock.initialState userPrompt)).
Proof.
  intros invoke userPrompt s Hs.
  apply toolUseLoop_conversation in Hs as [Hmsg _]. exact Hmsg.
Qed.

Lemma every_tool_call_is_answered_witness :
  exists s,
    Bedrock.runToolUseLoop Samples.reportsThenStops "analyse" = Ok s
    /\ Bedrock.messages s
       = [Bedrock.UserPrompt "analyse";
          Bedrock.AssistantMessage
            [Bedrock.ToolUseBlock "toolu_1" (Bedrock.report_analysis Samples.sampleReport)];
          Bedrock.ToolResults
            [{| Bedrock.tool_use_id := "toolu_1";
                Bedrock.result_content := Bedrock.AnalysisReceived |}]].
Proof.
  destruct (Bedrock.runToolUseLoop Samples.reportsThenStops "analyse") as [s|e] eqn:Hs.
  - exists s. split; [reflexivity|].
    exact (every_tool_call_is_answered Samples.reportsThenStops "analyse" s Hs).
  - vm_compute in Hs. discriminate Hs.
Defined.

(** X11. The analysis [analyzeWithTools] returns is the one of the last
    [report_analysis] call of the whole conversation, with its reasoning
    (empty when the call has none); when the model never reports, the
    analysis is empty and the reasoning is the empty string. *)
Theorem analysis_is_last_report :
  forall (invoke : list Bedrock.Message -> Result Bedrock.BedrockResponse)
         (userPrompt : string) (out : Bedrock.AIAgentOutput),
    Bedrock.analyzeWithTools invoke userPrompt = Ok out ->
    (Bedrock.analysis out, Bedrock.reasoning out)
    = match last (flat_map SpecMore.reportsOf
                    (Spec.transcript invoke 5 (Bedrock.initialState userPrompt))) with
      | Some input =>
          (Spec.reportedAnalysis input, default "" (Bedrock.rep_reasoning input))
      | None => (Bedrock.emptyAnalysis, "")
      end.
Proof.
  intros invoke userPrompt out Hout. unfold Bedrock.analyzeWithTools in Hout.
  apply bind_Ok in Hout as (s & Hs & [= <-]).
  apply toolUseLoop_conversation in Hs as [_ Han]. exact Han.
Qed.

Lemma analysis_is_last_report_witness :
  exists out,
    Bedrock.analyzeWithTools Samples.neverReports "analyse" = Ok out
    /\ (Bedrock.analysis out, Bedrock.reasoning out) = (Bedrock.emptyAnalysis, "").
Proof.
  destruct (Bedrock.analyzeWithTools Samples.neverReports "analyse") as [out|e] eqn:Hout.
  - exists out. split; [reflexivity|].
    exact (analysis_is_last_report Samples.neverReports "analyse" out Hout).
  - vm_compute in Hout. discriminate Hout.
Defined.

(** ** Persisting a collection (collector/scheduler.ts) *)

Section Collection.
Import Js Types Outside SourceConfigService Scheduler Spec SpecMore.
Context `{JsEngine}.

Variable env : ProcessEnv.
Variable sourceConfig : SourceConfig.

(** What handling one item does to the state. *)
Lemma processItem_effect item (st : State) :
  let r := (processItem env sourceConfig item st).1 in
  let st' := (processItem env sourceConfig item st).2 in
  sourceConfigTable st' = sourceConfigTable st
  /\ queue st'
     = app (queue st)
           (if r && queueConfigured env
            then [{| msg_type := messageKind sourceConfig; infoId := itemId item |}]
            else [])
  /\ (forall id stored,
        marketInfoTable st !! id = Some stored -> marketInfoTable st' !! id = Some stored)
  /\ (forall id stored,
        projectInfoTable st !! id = Some stored ->
        projectInfoTable st' !! id = Some stored
        \/ (projectInfoTable st' !! id = Some item /\ itemId item = id
            /\ itemDataHash item <> itemDataHash stored)).
Proof.
  unfold processItem, saveProjectInfo, saveMarketInfo, messageKind.
  destruct (String.eqb (sc_type sourceConfig) "project_info").
  - destruct (isDuplicateProjectInfo st item) eqn:Hdup; cbn [fst snd andb].
    + rewrite app_nil_r. auto.
    + unfold sendToQueue. destruct (queueConfigured env); cbn [negb];
        cbn [sourceConfigTable queue marketInfoTable projectInfoTable putProjectInfo];
        rewrite ?app_nil_r; (split; [reflexivity|]); (split; [reflexivity|]);
        (split; [auto|]); intros id stored Hstored;
        (destruct (decide (itemId item = id)) as [Heq|Hne];
         [right; subst id; rewrite lookup_insert_eq; split; [reflexivity|];
          split; [reflexivity|];
          unfold isDuplicateProjectInfo, GetCommand in Hdup; rewrite Hstored in Hdup;
          apply bool_decide_eq_false in Hdup; congruence
         |left; rewrite lookup_insert_ne by exact Hne; exact Hstored]).
  - destruct (isDuplicateMarketInfo st item) eqn:Hdup; cbn [fst snd andb].
    + rewrite app_nil_r. auto.
    + unfold sendToQueue. destruct (queueConfigured env); cbn [negb];
        cbn [sourceConfigTable queue marketInfoTable projectInfoTable putMarketInfo];
        rewrite ?app_nil_r; (split; [reflexivity|]); (split; [reflexivity|]);
        (split; [|auto]); intros id stored Hstored;
        (destruct (decide (itemId item = id)) as [Heq|Hne];
         [subst id; unfold isDuplicateMarketInfo, GetCommand in Hdup;
          rewrite Hstored in Hdup; apply bool_decide_eq_false in Hdup;
          exfalso; apply Hdup; eexists; reflexivity
         |rewrite lookup_insert_ne by exact Hne; exact Hstored]).
Qed.

(** The messages a list of verdicts sends for a list of items. *)
Lemma processBatch_effect batch (st : State) :
  let results := (processBatch env sourceConfig batch st).1 in
  let st' := (processBatch env sourceConfig batch st).2 in
  length results = length batch
  /\ sourceConfigTable st' = sourceConfigTable st
  /\ (exists sent,
        queue st' = app (queue st) sent
        /\ Z.of_nat (length sent) = (if queueConfigured env then countTrue results else 0)
        /\ Forall (fun message =>
                     msg_type message = messageKind sourceConfig
                     /\ infoId message ∈ map itemId batch) sent)
  /\ (forall id stored,
        marketInfoTable st !! id = Some stored -> marketInfoTable st' !! id = Some stored)
  /\ (forall id stored,
        projectInfoTable st !! id = Some stored ->
        exists stored',
          projectInfoTable st' !! id = Some stored'
          /\ (stored' = stored \/ stored' ∈ batch /\ itemId stored' = id)).
Proof.
  revert st. induction batch as [|item batch IH]; intros st.
  - cbn. split; [reflexivity|]. split; [reflexivity|]. split.
    + exists []. rewrite app_nil_r. split; [reflexivity|].
      split; [destruct (queueConfigured env); reflexivity | constructor].
    + split; [auto|]. intros id stored Hs. exists stored. auto.
  - cbn [processBatch].
    destruct (processItem_effect item st) as (Hsrc1 & Hq1 & Hm1 & Hp1).
    destruct (processItem env sourceConfig item st) as [r st1]. cbn [fst snd] in *.
    destruct (IH st1) as (Hlen & Hsrc & (sent & Hq & Hn & Hall) & Hm & Hp).
    destruct (processBatch env sourceConfig batch st1) as [rs st2]. cbn [fst snd] in *.
    split; [cbn [length]; congruence|]. split; [congruence|]. split; [|split].
    + eexists. split; [rewrite Hq, Hq1, <- app_assoc; reflexivity|].
      assert (Hcount : countTrue (r :: rs) = (if r then 1 else 0) + countTrue rs).
      { change (r :: rs) with (app [r] rs). rewrite countTrue_app. f_equal.
        destruct r; reflexivity. }
      rewrite Hcount, length_app. split.
      * destruct r, (queueConfigured env); cbn [andb length]; lia.
      * apply Forall_app. split.
        -- destruct (r && queueConfigured env); constructor; [|constructor].
           split; [reflexivity|]. cbn [map msg_type infoId]. apply elem_of_cons. auto.
        -- eapply Forall_impl; [exact Hall|]. intros message [Hk Hin].
           split; [exact Hk|]. cbn [map]. apply elem_of_cons. auto.
    + intros id stored Hs. apply Hm, Hm1, Hs.
    + intros id stored Hs.
      destruct (Hp1 id stored Hs) as [Hsame | (Hnew & Hid & _)].
      * destruct (Hp id stored Hsame) as (stored' & Hs' & [-> | [Hin Hid]]).
        -- exists stored. auto.
        -- exists stored'. split; [exact Hs'|]. right. split; [|exact Hid].
           apply elem_of_cons. auto.
      * destruct (Hp id item Hnew) as (stored' & Hs' & [-> | [Hin Hid']]).
        -- exists item. split; [exact Hs'|]. right. split; [|exact Hid].
           apply elem_of_cons. auto.
        -- exists stored'. split; [exact Hs'|]. right. split; [|exact Hid'].
           apply elem_of_cons. auto.
Qed.

Lemma count_verdicts results :
  countTrue results + countFalse results = Z.of_nat (length results)
  /\ 0 <= countTrue results /\ 0 <= countFalse results.
Proof.
  unfold countTrue, countFalse. split; [|lia].
  induction results as [|r results IH]; [reflexivity|].
  rewrite !filter_cons. destruct r; repeat case_decide; try congruence;
    cbn [length]; lia.
Qed.

Lemma processCollectorResult_effect (result : CollectorResult) (st : State) :
  let saved := (processCollectorResult env sourceConfig result st).1.1 in
  let skipped := (processCollectorResult env sourceConfig result st).1.2 in
  let st' := (processCollectorResult env sourceConfig result st).2 in
  saved + skipped = Z.of_nat (length (items result))
  /\ 0 <= saved /\ 0 <= skipped
  /\ sourceConfigTable st' = sourceConfigTable st
  /\ (exists sent,
        queue st' = app (queue st) sent
        /\ Z.of_nat (length sent) = (if queueConfigured env then saved else 0)
        /\ Forall (fun message =>
                     msg_type message = messageKind sourceConfig
                     /\ infoId message ∈ map itemId (items result)) sent)
  /\ (forall id stored,
        marketInfoTable st !! id = Some stored -> marketInfoTable st' !! id = Some stored)
  /\ (forall id stored,
        projectInfoTable st !! id = Some stored ->
        exists stored',
          projectInfoTable st' !! id = Some stored'
          /\ (stored' = stored \/ stored' ∈ items result /\ itemId stored' = id)).
Proof.
  unfold processCollectorResult. rewrite processBatches_flat by lia.
  destruct (processBatch_effect (items result) st) as (Hlen & Hsrc & Hsent & Hm & Hp).
  destruct (processBatch env sourceConfig (items result) st) as [results st'].
  cbn [fst snd] in *.
  destruct (count_verdicts results) as (Hsum & Htrue & Hfalse).
  rewrite !Z.add_0_l. repeat split; try assumption; lia.
Qed.

End Collection.

(** X12. Persisting a collector result accounts for every item: each is saved
    or skipped; when the queue is configured, one message of the type of
    the source is sent per saved item, and none otherwise. The source
    table is not touched.  No stored record is ever removed; a stored
    MarketInfo record is never replaced, and a stored ProjectInfo record
    is replaced only by a collected item of the same id. *)
Theorem processCollectorResult_accounts_for_every_item :
  forall (engine : Js.JsEngine) (env : Scheduler.ProcessEnv)
         (sourceConfig : Types.SourceConfig) (result : Types.CollectorResult)
         (st : Scheduler.State),
    let saved := (Scheduler.processCollectorResult env sourceConfig result st).1.1 in
    let skipped := (Scheduler.processCollectorResult env sourceConfig result st).1.2 in
    let st' := (Scheduler.processCollectorResult env sourceConfig result st).2 in
    saved + skipped = Z.of_nat (length (Types.items result))
    /\ 0 <= saved /\ 0 <= skipped
    /\ Scheduler.sourceConfigTable st' = Scheduler.sourceConfigTable st
    /\ (exists sent,
          Scheduler.queue st' = app (Scheduler.queue st) sent
          /\ Z.of_nat (length sent) = (if Scheduler.queueConfigured env then saved else 0)
          /\ Forall (fun message =>
                       Scheduler.msg_type message = SpecMore.messageKind sourceConfig
                       /\ Scheduler.infoId message ∈ map Types.itemId (Types.items result))
                    sent)
    /\ (forall id stored,
          Scheduler.marketInfoTable st !! id = Some stored ->
          Scheduler.marketInfoTable st' !! id = Some stored)
    /\ (forall id stored,
          Scheduler.projectInfoTable st !! id = Some stored ->
          exists stored',
            Scheduler.projectInfoTable st' !! id = Some stored'
            /\ (stored' = stored
                \/ stored' ∈ Types.items result /\ Types.itemId stored' = id)).
Proof.
  intros engine env sourceConfig result st.
  exact (processCollectorResult_effect env sourceConfig result st).
Qed.

(** ** Recording a run (collector/services/source-config.ts, scheduler.ts) *)

Section Runs.
Import Js Types Outside SourceConfigService Scheduler Spec SpecMore.
Context `{JsEngine}.

(** The source that [updateSourceCollectionStatus] stores. *)
Lemma updateSourceCollectionStatus_stored now id status error itemCount table stored :
  table !! id = Some stored ->
  exists stored',
    updateSourceCollectionStatus now id status error itemCount table !! id = Some stored'
    /\ lastCollectedAt stored' = Some now
    /\ lastCollectStatus stored' = Some status
    /\ enabled stored' = enabled stored
    /\ intervalMinutes stored' = intervalMinutes stored
    /\ lastCollectError stored'
       = (if String.eqb status "failed"
          then Some (match error with
                     | Some e => if String.eqb e "" then "Unknown error" else e
                     | None => "Unknown error"
                     end)
          else None)
    /\ stats stored'
       = Some {| totalCollected :=
                   totalCollected (default zeroStats (stats stored)) + default 0 itemCount;
                 successCount :=
                   successCount (default zeroStats (stats stored))
                   + (if String.eqb status "success" then 1 else 0);
                 failedCount :=
                   failedCount (default zeroStats (stats stored))
                   + (if String.eqb status "failed" then 1 else 0);
                 lastItemCount := default 0 itemCount |}.
Proof.
  intros Hstored. unfold updateSourceCollectionStatus, getSourceConfig. rewrite Hstored.
  eexists. split; [apply lookup_insert_eq|]. repeat split; reflexivity.
Qed.

Lemma updateSourceCollectionStatus_other now id status error itemCount table j :
  j <> id ->
  updateSourceCollectionStatus now id status error itemCount table !! j = table !! j.
Proof.
  intros Hne. unfold updateSourceCollectionStatus, getSourceConfig.
  destruct (table !! id); [|reflexivity]. apply lookup_insert_ne. congruence.
Qed.

(** A source collected at [now] is due again when its interval has
    passed. *)
Lemma due_after_interval now t config :
  lastCollectedAt config = Some now ->
  shouldCollect t config = true
  <-> enabled config = true /\ intervalMinutes config * 60000 <= t - now.
Proof.
  intros Hlast. rewrite shouldCollect_spec, intervalElapsed_ms, Hlast. split.
  - intros [Hon [Hnone | (l & [= <-] & Hle)]]; [discriminate | auto].
  - intros [Hon Hle]. split; [exact Hon|]. right. exists now. auto.
Qed.

Variable rssCollector restApiCollector : Collector.

Lemma collectFromSource_unsupported env E sourceConfig w (st : State) :
  getCollector rssCollector restApiCollector (collectorType sourceConfig) = None ->
  collectFromSource rssCollector restApiCollector env E sourceConfig w st
  = ({| collected := 0; saved := 0; skipped := 0;
        summary_error :=
          Some ("Unsupported collector type: " +:+ collectorType sourceConfig) |},
     w, announce (sc_id sourceConfig) st).
Proof. intros Hnone. unfold collectFromSource. rewrite Hnone. reflexivity. Qed.

Lemma collectFromSource_supported env E sourceConfig w (st : State) collector stored :
  sourceConfigTable st !! sc_id sourceConfig = Some stored ->
  getCollector rssCollector restApiCollector (collectorType sourceConfig)
  = Some collector ->
  let result := (collector E sourceConfig w).1 in
  let now := clock E (ticks (collector E sourceConfig w).2) in
  let summary :=
    (collectFromSource rssCollector restApiCollector env E sourceConfig w st).1.1 in
  let st' := (collectFromSource rssCollector restApiCollector env E sourceConfig w st).2 in
  exists stored',
    sourceConfigTable st' !! sc_id sourceConfig = Some stored'
    /\ lastCollectedAt stored' = Some now
    /\ lastCollectStatus stored' = Some (if success result then "success" else "failed")
    /\ (forall t, shouldCollect t stored' = true
                  <-> enabled stored = true /\ intervalMinutes stored * 60000 <= t - now)
    /\ stats stored'
       = Some {| totalCollected :=
                   totalCollected (default zeroStats (stats stored)) + saved summary;
                 successCount :=
                   successCount (default zeroStats (stats stored))
                   + (if success result then 1 else 0);
                 failedCount :=
                   failedCount (default zeroStats (stats stored))
                   + (if success result then 0 else 1);
                 lastItemCount := saved summary |}
    /\ collected summary = saved summary + skipped summary
    /\ (forall j, j <> sc_id sourceConfig ->
                  sourceConfigTable st' !! j = sourceConfigTable st !! j)
    /\ (success result = false ->
        collected summary = 0
        /\ summary_error summary = cr_error result
        /\ is_Some (lastCollectError stored')
        /\ projectInfoTable st' = projectInfoTable st
        /\ marketInfoTable st' = marketInfoTable st
        /\ queue st' = queue st)
    /\ (success result = true ->
        collected summary = Z.of_nat (length (items result))
        /\ summary_error summary = None
        /\ lastCollectError stored' = None).
Proof.
  intros Hstored Hcollector. unfold collectFromSource. rewrite Hcollector.
  destruct (collector E sourceConfig w) as [result w1]. cbn [fst snd].
  destruct (success result) eqn:Hsuccess; cbn [negb].
  - pose proof (processCollectorResult_effect env sourceConfig result
                  (announce (sc_id sourceConfig) st))
      as (Hsum & _ & _ & Hsrc & _).
    destruct (processCollectorResult env sourceConfig result
                (announce (sc_id sourceConfig) st)) as [[nsaved nskipped] st1].
    cbn [fst snd sourceConfigTable withSourceConfigTable collected saved skipped
         summary_error announce] in *.
    rewrite Hsrc.
    destruct (updateSourceCollectionStatus_stored (clock E (ticks w1))
                (sc_id sourceConfig) "success" None (Some nsaved)
                (sourceConfigTable st) stored Hstored)
      as (stored' & Hs' & Hlast & Hstatus & Hon & Hint & Herr & Hstats).
    exists stored'. split; [exact Hs'|]. split; [exact Hlast|]. split; [exact Hstatus|].
    split; [intros t; rewrite (due_after_interval _ _ _ Hlast), Hon, Hint; reflexivity|].
    split; [rewrite Hstats; cbn; rewrite !Z.add_0_r; reflexivity|].
    split; [lia|].
    split; [intros j Hj; apply updateSourceCollectionStatus_other; exact Hj|].
    split; [discriminate|]. intros _. repeat split. exact Herr.
  - cbn [fst snd sourceConfigTable withSourceConfigTable collected saved skipped
         summary_error announce projectInfoTable marketInfoTable queue].
    destruct (updateSourceCollectionStatus_stored (clock E (ticks w1))
                (sc_id sourceConfig) "failed" (cr_error result) None
                (sourceConfigTable st) stored Hstored)
      as (stored' & Hs' & Hlast & Hstatus & Hon & Hint & Herr & Hstats).
    exists stored'. split; [exact Hs'|]. split; [exact Hlast|]. split; [exact Hstatus|].
    split; [intros t; rewrite (due_after_interval _ _ _ Hlast), Hon, Hint; reflexivity|].
    split; [rewrite Hstats; cbn; rewrite !Z.add_0_r; reflexivity|].
    split; [reflexivity|].
    split; [intros j Hj; apply updateSourceCollectionStatus_other; exact Hj|].
    split; [|discriminate]. intros _. repeat split.
    rewrite Herr. eexists. reflexivity.
Qed.

End Runs.

(** X13. A run of a stored source with a supported collector is recorded,
    whether it succeeds or fails: the time of the run, its status, the
    counters of successes and failures, and the number of items saved.
    The source is due again exactly when it is enabled and its interval
    has passed since the run, so a failed source is not retried sooner.  A
    failed run writes no item and sends no message.  The summary counts
    every collected item as saved or skipped.  A source whose collector
    type is not supported is reported with an error and nothing is
    recorded for it. *)
Theorem collectFromSource_records_the_run :
  forall (engine : Js.JsEngine) (rssCollector restApiCollector : Scheduler.Collector)
         (env : Scheduler.ProcessEnv) (E : Outside.Env) (sourceConfig : Types.SourceConfig)
         (w : Outside.World) (st : Scheduler.State) (stored : Types.SourceConfig),
    Scheduler.sourceConfigTable st !! Types.sc_id sourceConfig = Some stored ->
    let run :=
      Scheduler.collectFromSource rssCollector restApiCollector env E sourceConfig w st in
    (Scheduler.getCollector rssCollector restApiCollector (Types.collectorType sourceConfig)
     = None ->
     run = ({| Scheduler.collected := 0; Scheduler.saved := 0; Scheduler.skipped := 0;
               Scheduler.summary_error :=
                 Some ("Unsupported collector type: "
                       +:+ Types.collectorType sourceConfig) |},
            w, Scheduler.announce (Types.sc_id sourceConfig) st))
    /\ (forall collector,
          Scheduler.getCollector rssCollector restApiCollector
            (Types.collectorType sourceConfig) = Some collector ->
          let result := (collector E sourceConfig w).1 in
          let now := Outside.clock E (Outside.ticks (collector E sourceConfig w).2) in
          exists stored',
            Scheduler.sourceConfigTable run.2 !! Types.sc_id sourceConfig = Some stored'
            /\ Types.lastCollectedAt stored' = Some now
            /\ Types.lastCollectStatus stored'
               = Some (if Types.success result then "success" else "failed")
            /\ (forall t, SourceConfigService.shouldCollect t stored' = true
                          <-> Types.enabled stored = true
                              /\ Types.intervalMinutes stored * 60000 <= t - now)
            /\ Types.stats stored'
               = Some {| Types.totalCollected :=
                           Types.totalCollected
                             (default SourceConfigService.zeroStats (Types.stats stored))
                           + Scheduler.saved run.1.1;
                         Types.successCount :=
                           Types.successCount
                             (default SourceConfigService.zeroStats (Types.stats stored))
                           + (if Types.success result then 1 else 0);
                         Types.failedCount :=
                           Types.failedCount
                             (default SourceConfigService.zeroStats (Types.stats stored))
                           + (if Types.success result then 0 else 1);
                         Types.lastItemCount := Scheduler.saved run.1.1 |}
            /\ Scheduler.collected run.1.1
               = Scheduler.saved run.1.1 + Scheduler.skipped run.1.1
            /\ (forall j, j <> Types.sc_id sourceConfig ->
                          Scheduler.sourceConfigTable run.2 !! j
                          = Scheduler.sourceConfigTable st !! j)
            /\ (Types.success result = false ->
                Scheduler.collected run.1.1 = 0
                /\ Scheduler.summary_error run.1.1 = Types.cr_error result
                /\ is_Some (Types.lastCollectError stored')
                /\ Scheduler.projectInfoTable run.2 = Scheduler.projectInfoTable st
                /\ Scheduler.marketInfoTable run.2 = Scheduler.marketInfoTable st
                /\ Scheduler.queue run.2 = Scheduler.queue st)
            /\ (Types.success result = true ->
                Scheduler.collected run.1.1 = Z.of_nat (length (Types.items result))
                /\ Scheduler.summary_error run.1.1 = None
                /\ Types.lastCollectError stored' = None)).
Proof.
  intros engine rssCollector restApiCollector env E sourceConfig w st stored Hstored run.
  subst run. split.
  - apply collectFromSource_unsupported.
  - intros collector Hcollector.
    exact (collectFromSource_supported rssCollector restApiCollector env E sourceConfig w
             st collector stored Hstored Hcollector).
Qed.

Lemma collectFromSource_records_the_run_witness :
  exists stored',
    Scheduler.sourceConfigTable
      (Scheduler.collectFromSource SamplesMore.unreachable SamplesMore.unreachable
         Samples.noQueue Samples.networkDown Samples.coindesk Samples.start
         SamplesMore.coindeskStored).2 !! "market_info:rss:coindesk" = Some stored'
    /\ Types.lastCollectStatus stored' = Some "failed".
Proof.
  destruct (proj2 (collectFromSource_records_the_run Reference.engine
                     SamplesMore.unreachable SamplesMore.unreachable
                     Samples.noQueue Samples.networkDown Samples.coindesk Samples.start
                     SamplesMore.coindeskStored Samples.coindesk
                     (lookup_singleton_eq _ _))
                  SamplesMore.unreachable eq_refl)
    as (stored' & Hstored & _ & Hstatus & _).
  exists stored'. split; [exact Hstored | exact Hstatus].
Defined.

(** ** The catalogue of sources (collector/services/source-config.ts) *)

Section Catalogue.
Import Js Types SourceConfigService Spec SpecMore.
Context `{JsEngine}.

Lemma getAllSourceConfigs_nil (table : gmap string SourceConfig) :
  getAllSourceConfigs table = [] <-> table = ∅.
Proof.
  unfold getAllSourceConfigs. rewrite <- map_to_list_empty_iff.
  destruct (map_to_list table); simpl; split; congruence.
Qed.

Lemma fold_save_keeps now defaults (table : gmap string SourceConfig) k :
  is_Some (table !! k) ->
  is_Some (fold_left (fun t source => saveSourceConfig now (createSourceConfig now source) t)
                     defaults table !! k).
Proof.
  revert table. induction defaults as [|source defaults IH]; intros table Hk; [exact Hk|].
  cbn [fold_left]. apply IH. unfold saveSourceConfig. rewrite lookup_insert.
  case_decide; [eexists; reflexivity | exact Hk].
Qed.

Lemma fold_save_stores now defaults (table : gmap string SourceConfig) params :
  params ∈ defaults ->
  is_Some (fold_left (fun t source => saveSourceConfig now (createSourceConfig now source) t)
                     defaults table
           !! generateSourceConfigId (p_type params) (p_sourceId params)).
Proof.
  revert table. induction defaults as [|source defaults IH]; intros table Hin.
  - apply elem_of_nil in Hin. contradiction.
  - cbn [fold_left]. apply elem_of_cons in Hin as [-> | Hin]; [|apply IH, Hin].
    apply fold_save_keeps. unfold saveSourceConfig. cbn [sc_id createSourceConfig].
    rewrite lookup_insert_eq. eexists. reflexivity.
Qed.

End Catalogue.

(** X14. The default catalogue is installed in an empty table only, every
    default source under the id of its type and source id; a table that
    holds any source is left as it is, so that installing the defaults a
    second time changes nothing. *)
Theorem initializeDefaultSources_only_when_empty :
  forall (engine : Js.JsEngine) (now now' : Z)
         (defaults : list SourceConfigService.SourceParams)
         (table : gmap string Types.SourceConfig),
    (table <> ∅ -> SourceConfigService.initializeDefaultSources now defaults table = table)
    /\ (table = ∅ ->
        forall params, params ∈ defaults ->
          is_Some (SourceConfigService.initializeDefaultSources now defaults table
                   !! SourceConfigService.generateSourceConfigId
                        (SourceConfigService.p_type params)
                        (SourceConfigService.p_sourceId params)))
    /\ SourceConfigService.initializeDefaultSources now' defaults
         (SourceConfigService.initializeDefaultSources now defaults table)
       = SourceConfigService.initializeDefaultSources now defaults table.
Proof.
  intros engine now now' defaults table.
  assert (Hfull : forall t : gmap string Types.SourceConfig,
             t <> ∅ -> forall n, SourceConfigService.initializeDefaultSources n defaults t = t).
  { intros t Hne n. unfold SourceConfigService.initializeDefaultSources.
    destruct (SourceConfigService.getAllSourceConfigs t) eqn:Hall; [|reflexivity].
    apply getAllSourceConfigs_nil in Hall. contradiction. }
  split; [intros Hne; apply Hfull, Hne|]. split.
  - intros -> params Hin. unfold SourceConfigService.initializeDefaultSources.
    replace (SourceConfigService.getAllSourceConfigs ∅) with (@nil Types.SourceConfig)
      by (symmetry; apply getAllSourceConfigs_nil; reflexivity).
    apply fold_save_stores, Hin.
  - destruct (decide (table = ∅)) as [->|Hne];
      [|rewrite (Hfull table Hne now); apply Hfull, Hne].
    destruct defaults as [|source defaults].
    + unfold SourceConfigService.initializeDefaultSources.
      replace (SourceConfigService.getAllSourceConfigs ∅) with (@nil Types.SourceConfig)
        by (symmetry; apply getAllSourceConfigs_nil; reflexivity).
      cbn [fold_left].
      replace (SourceConfigService.getAllSourceConfigs ∅) with (@nil Types.SourceConfig)
        by (symmetry; apply getAllSourceConfigs_nil; reflexivity).
      reflexivity.
    + apply Hfull. intros Hempty.
      assert (Hsome : is_Some
                (SourceConfigService.initializeDefaultSources now (source :: defaults) ∅
                 !! SourceConfigService.generateSourceConfigId
                      (SourceConfigService.p_type source)
                      (SourceConfigService.p_sourceId source))).
      { unfold SourceConfigService.initializeDefaultSources.
        replace (SourceConfigService.getAllSourceConfigs ∅) with (@nil Types.SourceConfig)
          by (symmetry; apply getAllSourceConfigs_nil; reflexivity).
        apply fold_save_stores. apply elem_of_cons. left. reflexivity. }
      rewrite Hempty, lookup_empty in Hsome. destruct Hsome as [x Hx]. discriminate.
Qed.

(** X15. Toggling a source flips [enabled] and keeps [enabledStr] with it, so
    the source is in the query of the enabled sources exactly when it was
    disabled before; toggling twice gives the source as it was, saved
    again; toggling an id that is not stored changes nothing. *)
Theorem toggleSourceConfig_flips :
  forall (engine : Js.JsEngine) (now now' : Z) (id : string)
         (table : gmap string Types.SourceConfig),
    match table !! id with
    | None => SourceConfigService.toggleSourceConfig now id table = table
    | Some config =>
        let toggled := SourceConfigService.withEnabled config (negb (Types.enabled config)) now in
        SourceConfigService.toggleSourceConfig now id table = <[id := toggled]> table
        /\ (toggled ∈ SourceConfigService.getEnabledSourceConfigs
                        (SourceConfigService.toggleSourceConfig now id table)
            <-> Types.enabled config = false)
        /\ SourceConfigService.toggleSourceConfig now' id
             (SourceConfigService.toggleSourceConfig now id table)
           = <[id := SourceConfigService.withEnabled config (Types.enabled config) now']> table
    end.
Proof.
  intros engine now now' id table.
  assert (Hmissing : table !! id = None ->
                     SourceConfigService.toggleSourceConfig now id table = table).
  { intros Hnone. unfold SourceConfigService.toggleSourceConfig,
      SourceConfigService.getSourceConfig. rewrite Hnone. reflexivity. }
  assert (Hstored : forall n config (t : gmap string Types.SourceConfig),
             t !! id = Some config ->
             SourceConfigService.toggleSourceConfig n id t
             = <[id := SourceConfigService.withEnabled config
                         (negb (Types.enabled config)) n]> t).
  { intros n config t Hconfig. unfold SourceConfigService.toggleSourceConfig,
      SourceConfigService.getSourceConfig. rewrite Hconfig. reflexivity. }
  destruct (table !! id) as [config|] eqn:Hconfig; [|apply Hmissing; reflexivity].
  cbn zeta. rewrite (Hstored now config table Hconfig).
  split; [reflexivity|]. split.
  - unfold SourceConfigService.getEnabledSourceConfigs,
      SourceConfigService.getAllSourceConfigs.
    rewrite list_elem_of_filter. cbn [Types.enabledStr SourceConfigService.withEnabled].
    split.
    + intros [Hstr _]. destruct (Types.enabled config); [discriminate | reflexivity].
    + intros ->. split; [reflexivity|].
      apply list_elem_of_fmap. eexists (id, _). split; [reflexivity|].
      apply elem_of_map_to_list. apply lookup_insert_eq.
  - rewrite (Hstored now' _ _ (lookup_insert_eq _ _ _)), insert_insert_eq.
    cbn [Types.enabled SourceConfigService.withEnabled]. rewrite negb_involutive.
    reflexivity.
Qed.

(** ** Source ids and risk flags (packages/shared) *)

Section SharedUtilities.
Import Shared SharedMore Spec.

Lemma splitOn_nonempty sep s : splitOn sep s <> [].
Proof.
  destruct s as [|c rest]; cbn [splitOn]; [discriminate|].
  destruct (Ascii.eqb c sep); [discriminate|]. destruct (splitOn sep rest); discriminate.
Qed.

Lemma joinWith_cons sep p parts :
  parts <> [] -> joinWith sep (p :: parts) = p +:+ sep +:+ joinWith sep parts.
Proof. destruct parts; [congruence | reflexivity]. Qed.

(** Joining the segments of a string gives the string back. *)
Lemma joinWith_splitOn sep s : joinWith (String sep "") (splitOn sep s) = s.
Proof.
  induction s as [|c rest IH]; [reflexivity|]. cbn [splitOn].
  destruct (Ascii.eqb_spec c sep) as [->|Hne].
  - rewrite joinWith_cons by apply splitOn_nonempty. rewrite IH. reflexivity.
  - pose proof (splitOn_nonempty sep rest) as Hrest.
    destruct (splitOn sep rest) as [|seg segs]; [congruence|].
    destruct segs as [|seg' segs].
    + cbn [joinWith] in *. rewrite IH. reflexivity.
    + rewrite joinWith_cons in * by discriminate.
      change (String c seg +:+ ?x) with (String c (seg +:+ x)). rewrite IH. reflexivity.
Qed.

(** A prefix without the separator is the first segment. *)
Lemma splitOn_prefix sep prefix rest :
  forallb (fun c => negb (Ascii.eqb c sep)) (list_ascii_of_string prefix) = true ->
  splitOn sep (prefix +:+ String sep rest) = prefix :: splitOn sep rest.
Proof.
  induction prefix as [|c prefix IH]; cbn [list_ascii_of_string forallb]; intros Hfree.
  - change ("" +:+ String sep rest) with (String sep rest). cbn [splitOn].
    rewrite Ascii.eqb_refl. reflexivity.
  - apply andb_true_iff in Hfree as [Hc Hfree].
    change (String c prefix +:+ ?x) with (String c (prefix +:+ x)). cbn [splitOn].
    apply negb_true_iff in Hc. rewrite Hc, (IH Hfree). reflexivity.
Qed.

(** The most severe of the flags seen so far, with the flags before and
    after it. *)
Lemma fold_most_severe rest :
  forall before most seen,
    (forall g, g ∈ before -> severityIndex (severity most) < severityIndex (severity g)) ->
    (forall g, g ∈ seen -> severityIndex (severity most) <= severityIndex (severity g)) ->
    exists before' after',
      app before (most :: app seen rest)
      = app before'
          (fold_left
             (fun most current =>
                if severityIndex (severity current) <? severityIndex (severity most)
                then current else most) rest most :: after')
      /\ (forall g, g ∈ before' ->
            severityIndex
              (severity (fold_left
                 (fun most current =>
                    if severityIndex (severity current) <? severityIndex (severity most)
                    then current else most) rest most))
            < severityIndex (severity g))
      /\ (forall g, g ∈ after' ->
            severityIndex
              (severity (fold_left
                 (fun most current =>
                    if severityIndex (severity current) <? severityIndex (severity most)
                    then current else most) rest most))
            <= severityIndex (severity g)).
Proof.
  induction rest as [|current rest IH]; intros before most seen Hbefore Hseen.
  - exists before, seen. rewrite app_nil_r. auto.
  - cbn [fold_left].
    destruct (severityIndex (severity current) <? severityIndex (severity most)) eqn:Hlt.
    + apply Z.ltb_lt in Hlt.
      destruct (IH (app before (most :: seen)) current []) as (b & a & Heq & Hb & Ha).
      * intros g Hg. apply elem_of_app in Hg as [Hg | Hg].
        -- specialize (Hbefore g Hg). lia.
        -- apply elem_of_cons in Hg as [-> | Hg]; [lia|]. specialize (Hseen g Hg). lia.
      * intros g Hg. apply elem_of_nil in Hg. contradiction.
      * exists b, a. split; [|auto]. rewrite <- Heq, <- app_assoc. reflexivity.
    + apply Z.ltb_ge in Hlt.
      destruct (IH before most (app seen [current])) as (b & a & Heq & Hb & Ha).
      * exact Hbefore.
      * intros g Hg. apply elem_of_app in Hg as [Hg | Hg]; [apply Hseen, Hg|].
        apply list_elem_of_singleton in Hg as ->. exact Hlt.
      * exists b, a. split; [|auto]. rewrite <- Heq, <- app_assoc. reflexivity.
Qed.

End SharedUtilities.

(** X16. The id of a source is its type and its source id, and parsing it
    gives both back, whatever colons the source id has; an id parses
    only if it is the id of a [project_info] or a [market_info] source. *)
Theorem parseSourceConfigId_inverts_generate :
  forall type sourceId : string,
    type = "project_info" \/ type = "market_info" ->
    SharedMore.parseSourceConfigId
      (SourceConfigService.generateSourceConfigId type sourceId)
    = Some (type, sourceId)
    /\ (forall id type' sourceId',
          SharedMore.parseSourceConfigId id = Some (type', sourceId') ->
          id = SourceConfigService.generateSourceConfigId type' sourceId'
          /\ (type' = "project_info" \/ type' = "market_info")).
Proof.
  intros type sourceId Htype. split.
  - unfold SharedMore.parseSourceConfigId, SourceConfigService.generateSourceConfigId.
    change (":" +:+ sourceId) with (String ":" sourceId).
    rewrite splitOn_prefix by (destruct Htype as [-> | ->]; reflexivity).
    pose proof (splitOn_nonempty ":" sourceId) as Hne.
    rewrite (joinWith_splitOn ":" sourceId).
    destruct (SharedMore.splitOn ":" sourceId) as [|seg segs]; [congruence|].
    cbn [length Nat.ltb Nat.leb].
    destruct Htype as [-> | ->]; reflexivity.
  - intros id type' sourceId'. unfold SharedMore.parseSourceConfigId.
    pose proof (joinWith_splitOn ":" id) as Hjoin.
    destruct (SharedMore.splitOn ":" id) as [|first rest]; [discriminate|].
    destruct rest as [|second rest]; [discriminate|]. cbn [length Nat.ltb Nat.leb].
    destruct (String.eqb_spec first "project_info") as [->|Hp];
      [|destruct (String.eqb_spec first "market_info") as [->|Hm]]; cbn [negb andb];
      try discriminate; intros [= <- <-];
      (split; [|auto]); rewrite <- Hjoin;
      rewrite joinWith_cons by discriminate; reflexivity.
Qed.

Lemma parseSourceConfigId_inverts_generate_witness :
  SharedMore.parseSourceConfigId
    (SourceConfigService.generateSourceConfigId "market_info" "rss:coindesk")
  = Some ("market_info", "rss:coindesk").
Proof.
  exact (proj1 (parseSourceConfigId_inverts_generate "market_info" "rss:coindesk"
                  (or_intror eq_refl))).
Defined.

(** X17. [getMostSevereRisk] returns nothing for no flags; otherwise a flag of
    the list whose severity comes first in the order critical, high,
    medium, low, and the first such flag of the list.  A flag whose
    severity is none of the four comes before a critical one. *)
Theorem getMostSevereRisk_first_of_least_index :
  forall riskFlags : list Shared.RiskFlag,
    match SharedMore.getMostSevereRisk riskFlags with
    | None => riskFlags = []
    | Some most =>
        exists before after,
          riskFlags = app before (most :: after)
          /\ (forall g, g ∈ before ->
                SharedMore.severityIndex (Shared.severity most)
                < SharedMore.severityIndex (Shared.severity g))
          /\ (forall g, g ∈ after ->
                SharedMore.severityIndex (Shared.severity most)
                <= SharedMore.severityIndex (Shared.severity g))
          /\ (forall g, g ∈ riskFlags ->
                SharedMore.severityIndex (Shared.severity g) = -1 ->
                SharedMore.severityIndex (Shared.severity most) = -1
                /\ Shared.severity most <> "critical")
    end.
Proof.
  intros [|first rest]; [reflexivity|]. cbn [SharedMore.getMostSevereRisk].
  destruct (fold_most_severe rest [] first []) as (before & after & Heq & Hb & Ha).
  - intros g Hg. apply elem_of_nil in Hg. contradiction.
  - intros g Hg. apply elem_of_nil in Hg. contradiction.
  - exists before, after. cbn [app] in Heq. split; [exact Heq|].
    split; [exact Hb|]. split; [exact Ha|].
    intros g Hg Hunknown. rewrite Heq in Hg.
    set (most := fold_left _ rest first) in *.
    assert (Hmost : SharedMore.severityIndex (Shared.severity most) = -1).
    { assert (Hlow : -1 <= SharedMore.severityIndex (Shared.severity most)).
      { unfold SharedMore.severityIndex.
        repeat match goal with |- context [String.eqb ?a ?b] => destruct (String.eqb a b) end;
          lia. }
      apply elem_of_app in Hg as [Hg | Hg].
      - specialize (Hb g Hg). lia.
      - apply elem_of_cons in Hg as [-> | Hg]; [exact Hunknown|].
        specialize (Ha g Hg). lia. }
    split; [exact Hmost|]. intros Hcritical. rewrite Hcritical in Hmost. discriminate.
Qed.



(** ** The RSS collector (collectors/rss.ts) *)

Section Feeds.
Import Js Types Outside RssCollector RssMore Scheduler SpecMore.
Context `{JsEngine}.
Variable parseFeedItems : string -> list FeedItem.

Lemma itemCap_valid config :
  validateConfig config = [] ->
  (itemCap config <= 100)%nat
  /\ (forall n, maxItems config = Some n -> itemCap config = n).
Proof.
  unfold validateConfig, itemCap.
  destruct (String.eqb (url config) ""); [destruct (maxItems config) as [n|];
    [destruct ((n <? 1)%nat || (100 <? n)%nat)|]; discriminate|].
  destruct (negb _ && negb _); [destruct (maxItems config) as [n|];
    [destruct ((n <? 1)%nat || (100 <? n)%nat)|]; discriminate|].
  destruct (maxItems config) as [n|]; [|intros _; split; [lia | discriminate]].
  destruct ((n <? 1)%nat || (100 <? n)%nat) eqn:Hrange; [discriminate|]. intros _.
  apply orb_false_iff in Hrange as [Hlow Hhigh].
  apply Nat.ltb_ge in Hlow, Hhigh.
  destruct n as [|n]; [lia|]. split; [lia|]. intros m [= <-]. reflexivity.
Qed.

Lemma rss_collect_outcome E sourceConfig config w :
  Types.config sourceConfig = Rss config ->
  let result := (collect parseFeedItems E sourceConfig w).1 in
  let w' := (collect parseFeedItems E sourceConfig w).2 in
  requests w' = S (requests w)
  /\ draws w' = draws w
  /\ match net E (requests w) with
     | NetworkFailure e =>
         success result = false /\ items result = []
         /\ cr_error result = Some (errorMessage e)
     | HttpResponse status statusText xml _ =>
         if response_ok status then
           success result = true
           /\ cr_error result = None
           /\ length (items result)
              = Nat.min (itemCap config) (length (parseFeedItems xml))
           /\ totalFetched (result_stats result) + skippedCount (result_stats result)
              = Z.of_nat (length (parseFeedItems xml))
           /\ 0 <= skippedCount (result_stats result)
           /\ Forall (fun item =>
                        processedStatusOf item = "pending"
                        /\ collectedAtOf item = toISOString (clock E (ticks w))
                        /\ exists info, item = MarketInfoItem info
                             /\ mi_ttl info = Some (clock E (S (ticks w)) / 1000 + 2592000))
                     (items result)
           /\ (validateConfig config = [] -> (length (items result) <= 100)%nat)
         else
           success result = false /\ items result = []
           /\ cr_error result
              = Some ("HTTP " +:+ NumberToString (numOfZ status) +:+ ": " +:+ statusText)
     end.
Proof.
  intros Hconfig. unfold collect. rewrite Hconfig.
  destruct (net E (requests w)) as [e|status statusText xml json]; cbn [fst snd].
  - repeat split; reflexivity.
  - destruct (response_ok status); cbn [negb fst snd].
    + fold (itemCap config).
      cbn [requests draws tick request ticks RestApiCollector.successResult success
           cr_error items result_stats totalFetched skippedCount].
      rewrite !length_map, length_take.
      split; [reflexivity|]. split; [reflexivity|]. split; [reflexivity|].
      split; [reflexivity|]. split; [reflexivity|]. split; [lia|]. split; [lia|]. split.
      * apply Forall_fmap, Forall_fmap, Forall_forall. intros item _.
        cbn. split; [reflexivity|]. split; [reflexivity|].
        eexists. split; [reflexivity|]. cbn [mi_ttl toMarketInfo].
        unfold calculateTTL. f_equal; lia.
      * intros Hvalid. destruct (itemCap_valid config Hvalid) as [Hcap _]. lia.
    + repeat split; reflexivity.
Qed.

(** Two feed items of the same title and link have the same id. *)
Lemma toMarketInfo_id sourceConfig config config' now now' ttl ttl' item item' :
  title item' = title item -> link item' = link item ->
  mi_id (toMarketInfo sourceConfig config' now' ttl' item')
  = mi_id (toMarketInfo sourceConfig config now ttl item).
Proof. intros Htitle Hlink. cbn. rewrite Htitle, Hlink. reflexivity. Qed.

Lemma seen_item_is_skipped env sourceConfig (st : State) info info' :
  sc_type sourceConfig <> "project_info" ->
  mi_id info' = mi_id info ->
  let st1 := (processItem env sourceConfig (MarketInfoItem info) st).2 in
  processItem env sourceConfig (MarketInfoItem info') st1 = (false, st1).
Proof.
  intros Htype Hid st1. subst st1. unfold processItem.
  apply String.eqb_neq in Htype. rewrite Htype.
  assert (Hstored : is_Some (marketInfoTable (saveMarketInfo (MarketInfoItem info) st).2
                             !! mi_id info)).
  { unfold saveMarketInfo.
    destruct (isDuplicateMarketInfo st (MarketInfoItem info)) eqn:Hdup; cbn [snd].
    - unfold isDuplicateMarketInfo, GetCommand in Hdup.
      apply bool_decide_eq_true in Hdup. exact Hdup.
    - cbn. rewrite lookup_insert_eq. eexists. reflexivity. }
  destruct (saveMarketInfo (MarketInfoItem info) st) as [wasSaved st0]. cbn [snd] in *.
  assert (Hdup : forall s : State,
             marketInfoTable s = marketInfoTable st0 ->
             saveMarketInfo (MarketInfoItem info') s = (false, s)).
  { intros s Hs. unfold saveMarketInfo, isDuplicateMarketInfo, GetCommand.
    cbn [itemId]. rewrite Hid, Hs, bool_decide_eq_true_2 by exact Hstored. reflexivity. }
  destruct wasSaved; cbn [snd].
  - rewrite Hdup; [reflexivity|]. unfold sendToQueue. destruct (negb _); reflexivity.
  - rewrite Hdup; reflexivity.
Qed.

End Feeds.

(** X19. The RSS collector makes one request, without retry.  A response that
    is ok gives a successful result, whatever its body: one pending item
    per parsed feed item up to the cap ([maxItems], 20 when it is not set
    or zero), all with the same collection time and a time to live of 30
    days; the items beyond the cap are counted as skipped; a valid
    configuration never gives more than 100 items.  A response that is not
    ok, or no response, gives a failed result with the reason and no
    item. *)
Theorem rss_collect_one_request :
  forall (engine : Js.JsEngine) (parseFeedItems : string -> list RssCollector.FeedItem)
         (E : Outside.Env) (sourceConfig : Types.SourceConfig) (config : Types.RssConfig)
         (w : Outside.World),
    Types.config sourceConfig = Types.Rss config ->
    let result := (RssCollector.collect parseFeedItems E sourceConfig w).1 in
    let w' := (RssCollector.collect parseFeedItems E sourceConfig w).2 in
    Outside.requests w' = S (Outside.requests w)
    /\ Outside.draws w' = Outside.draws w
    /\ match Outside.net E (Outside.requests w) with
       | Outside.NetworkFailure e =>
           Types.success result = false /\ Types.items result = []
           /\ Types.cr_error result = Some (errorMessage e)
       | Outside.HttpResponse status statusText xml _ =>
           if Outside.response_ok status then
             Types.success result = true
             /\ Types.cr_error result = None
             /\ length (Types.items result)
                = Nat.min (RssMore.itemCap config) (length (parseFeedItems xml))
             /\ Types.totalFetched (Types.result_stats result)
                + Types.skippedCount (Types.result_stats result)
                = Z.of_nat (length (parseFeedItems xml))
             /\ 0 <= Types.skippedCount (Types.result_stats result)
             /\ Forall (fun item =>
                          SpecMore.processedStatusOf item = "pending"
                          /\ SpecMore.collectedAtOf item
                             = Js.toISOString (Outside.clock E (Outside.ticks w))
                          /\ exists info,
                               item = Types.MarketInfoItem info
                               /\ Types.mi_ttl info
                                  = Some (Outside.clock E (S (Outside.ticks w)) / 1000
                                          + 2592000))
                       (Types.items result)
             /\ (RssMore.validateConfig config = [] ->
                 (length (Types.items result) <= 100)%nat)
           else
             Types.success result = false /\ Types.items result = []
             /\ Types.cr_error result
                = Some ("HTTP " +:+ Js.NumberToString (Js.numOfZ status)
                        +:+ ": " +:+ statusText)
       end.
Proof.
  intros engine parseFeedItems E sourceConfig config w Hconfig.
  exact (rss_collect_outcome parseFeedItems E sourceConfig config w Hconfig).
Qed.

Lemma rss_collect_one_request_witness :
  Outside.requests
    (RssCollector.collect (fun _ => [SamplesMore.headline]) SamplesMore.feedUp
       Samples.coindesk Samples.start).2 = 1%nat.
Proof.
  exact (proj1 (rss_collect_one_request Reference.engine (fun _ => [SamplesMore.headline])
                  SamplesMore.feedUp Samples.coindesk SamplesMore.coindeskFeed
                  Samples.start eq_refl)).
Defined.

(** X20. A feed item is known by its title and link: once an item is stored,
    an item of the same feed with the same title and link is skipped, with
    nothing written and nothing sent, even when its description or its
    date has changed. *)
Theorem rss_item_known_by_title_and_link :
  forall (engine : Js.JsEngine) (env : Scheduler.ProcessEnv)
         (sourceConfig : Types.SourceConfig) (config config' : Types.RssConfig)
         (now now' : string) (ttl ttl' : Z) (item item' : RssCollector.FeedItem)
         (st : Scheduler.State),
    Types.sc_type sourceConfig <> "project_info" ->
    RssCollector.title item' = RssCollector.title item ->
    RssCollector.link item' = RssCollector.link item ->
    let st1 :=
      (Scheduler.processItem env sourceConfig
         (Types.MarketInfoItem (RssCollector.toMarketInfo sourceConfig config now ttl item))
         st).2 in
    Scheduler.processItem env sourceConfig
      (Types.MarketInfoItem (RssCollector.toMarketInfo sourceConfig config' now' ttl' item'))
      st1
    = (false, st1).
Proof.
  intros engine env sourceConfig config config' now now' ttl ttl' item item' st
    Htype Htitle Hlink.
  apply seen_item_is_skipped; [exact Htype|].
  apply toMarketInfo_id; assumption.
Qed.

Lemma rss_item_known_by_title_and_link_witness :
  let st1 :=
    (Scheduler.processItem Samples.withQueue Samples.coindesk
       (Types.MarketInfoItem
          (RssCollector.toMarketInfo Samples.coindesk SamplesMore.coindeskFeed
             "2025-01-01T12:00:00.000Z" 1738324800 SamplesMore.headline))
       Samples.emptyState).2 in
  Scheduler.processItem Samples.withQueue Samples.coindesk
    (Types.MarketInfoItem
       (RssCollector.toMarketInfo Samples.coindesk SamplesMore.coindeskFeed
          "2025-01-01T12:15:00.000Z" 1738325700 SamplesMore.headlineUpdated))
    st1
  = (false, st1).
Proof.
  apply (rss_item_known_by_title_and_link Reference.engine).
  - discriminate.
  - reflexivity.
  - reflexivity.
Defined.

(** ** Processing a message (ai-agent/services/processor.ts) *)

Section Processing.
Import Js Types Bedrock Processor Pipeline Scheduler SpecMore.
Context `{JsEngine}.

Variable stampAt : nat -> Stamp.
Variable invoke : list Message -> Result BedrockResponse.
Variable buildUserPrompt : string -> Item -> list Project -> string.

Lemma execute_frame operation (st : Store) :
  store_projectInfo (execute stampAt operation st).2 = store_projectInfo st
  /\ store_marketInfo (execute stampAt operation st).2 = store_marketInfo st
  /\ readings (execute stampAt operation st).2 = S (readings st)
  /\ store_projects (execute stampAt operation st).2
     = (executeOperation (stampAt (readings st)) operation (store_projects st)).2.
Proof.
  unfold execute. destruct (executeOperation _ operation _). repeat split; reflexivity.
Qed.

Lemma executeEach_frame ops (st : Store) :
  store_projectInfo (executeEach stampAt ops st) = store_projectInfo st
  /\ store_marketInfo (executeEach stampAt ops st) = store_marketInfo st
  /\ store_projects (executeEach stampAt ops st)
     = executeOperations (stamped stampAt (readings st) ops) (store_projects st).
Proof.
  revert st. induction ops as [|operation ops IH]; intros st; [repeat split; reflexivity|].
  cbn [executeEach]. destruct (execute_frame operation st) as (Hp & Hm & Hr & Ht).
  destruct (IH (execute stampAt operation st).2) as (-> & -> & ->).
  split; [exact Hp|]. split; [exact Hm|].
  unfold stamped. cbn [imap]. rewrite executeOperations_cons, Nat.add_0_r, Ht, Hr.
  f_equal. apply imap_ext. intros i x _. cbn. f_equal. f_equal. lia.
Qed.

Lemma executeTracking_store ops entityId (st : Store) :
  (executeTracking stampAt ops entityId st).2 = executeEach stampAt ops st.
Proof.
  revert entityId st. induction ops as [|operation ops IH]; intros entityId st;
    [reflexivity|].
  cbn [executeTracking executeEach]. destruct (execute stampAt operation st). apply IH.
Qed.



(** The three ways [processMarketInfo] goes. *)
Lemma processMarketInfo_cases infoId (st : Store) :
  (processMarketInfo stampAt invoke buildUserPrompt infoId st = (Ok tt, st)
   /\ (store_marketInfo st !! infoId = None
       \/ exists row, store_marketInfo st !! infoId = Some row
                      /\ mi_processedStatus (mrow_info row) = "processed"))
  \/ exists row st1,
       store_marketInfo st !! infoId = Some row
       /\ mi_processedStatus (mrow_info row) <> "processed"
       /\ st1 = updateMarketInfoStatus stampAt infoId "processing" None None st
       /\ ((exists output,
              analyzeMarketInfo invoke buildUserPrompt (mrow_info row)
                (getExistingProjectsSummary (store_projects st1)) = Ok output
              /\ processMarketInfo stampAt invoke buildUserPrompt infoId st
                 = (Ok tt,
                    updateMarketInfoStatus stampAt infoId "processed"
                      (Some {| mar_relatedProjectIds :=
                                 Some (relatedIds (identifiedProjects (analysis output)));
                               mar_sentiment := sentiment (analysis output);
                               mar_eventType := eventType (analysis output);
                               mar_aiSummary :=
                                 SharedMore.joinWith "; " <$> keyInsights (analysis output);
                               mar_importanceScore := Some (calculateImportanceScore output);
                               mar_reasoning := Some (reasoning output) |})
                      None (executeEach stampAt (operations output) st1)))
           \/ (exists e,
                 analyzeMarketInfo invoke buildUserPrompt (mrow_info row)
                   (getExistingProjectsSummary (store_projects st1)) = Throw e
                 /\ processMarketInfo stampAt invoke buildUserPrompt infoId st
                    = (Throw e,
                       updateMarketInfoStatus stampAt infoId "failed" None
                         (Some (errorMessage e)) st1))).
Proof.
  unfold processMarketInfo, getMarketInfo.
  destruct (store_marketInfo st !! infoId) as [row|] eqn:Hrow; [|left; auto].
  destruct (String.eqb_spec (mi_processedStatus (mrow_info row)) "processed") as [Hp|Hp].
  - left. split; [reflexivity|]. right. exists row. auto.
  - right. exists row, (updateMarketInfoStatus stampAt infoId "processing" None None st).
    split; [reflexivity|]. split; [exact Hp|]. split; [reflexivity|].
    destruct (analyzeMarketInfo invoke buildUserPrompt (mrow_info row) _) as [output|e].
    + left. exists output. split; reflexivity.
    + right. exists e. split; reflexivity.
Qed.

Lemma processProjectInfo_cases infoId (st : Store) :
  (processProjectInfo stampAt invoke buildUserPrompt infoId st = (Ok tt, st)
   /\ (store_projectInfo st !! infoId = None
       \/ exists row, store_projectInfo st !! infoId = Some row
                      /\ pi_processedStatus (prow_info row) = "processed"))
  \/ exists row st1,
       store_projectInfo st !! infoId = Some row
       /\ pi_processedStatus (prow_info row) <> "processed"
       /\ st1 = updateProjectInfoStatus stampAt infoId "processing" None None st
       /\ ((exists output,
              analyzeProjectInfo invoke buildUserPrompt (prow_info row)
                (getExistingProjectsSummary (store_projects st1)) = Ok output
              /\ processProjectInfo stampAt invoke buildUserPrompt infoId st
                 = (Ok tt,
                    updateProjectInfoStatus stampAt infoId "processed"
                      (Some {| par_entityId :=
                                 (executeTracking stampAt (operations output) None st1).1;
                               par_reasoning := Some (reasoning output) |})
                      None (executeEach stampAt (operations output) st1)))
           \/ (exists e,
                 analyzeProjectInfo invoke buildUserPrompt (prow_info row)
                   (getExistingProjectsSummary (store_projects st1)) = Throw e
                 /\ processProjectInfo stampAt invoke buildUserPrompt infoId st
                    = (Throw e,
                       updateProjectInfoStatus stampAt infoId "failed" None
                         (Some (errorMessage e)) st1))).
Proof.
  unfold processProjectInfo, getProjectInfo.
  destruct (store_projectInfo st !! infoId) as [row|] eqn:Hrow; [|left; auto].
  destruct (String.eqb_spec (pi_processedStatus (prow_info row)) "processed") as [Hp|Hp].
  - left. split; [reflexivity|]. right. exists row. auto.
  - right. exists row, (updateProjectInfoStatus stampAt infoId "processing" None None st).
    split; [reflexivity|]. split; [exact Hp|]. split; [reflexivity|].
    destruct (analyzeProjectInfo invoke buildUserPrompt (prow_info row) _) as [output|e].
    + left. exists output. split; [reflexivity|].
      rewrite <- executeTracking_store with (entityId := None).
      destruct (executeTracking stampAt (operations output) None _). reflexivity.
    + right. exists e. split; reflexivity.
Qed.

Lemma updateMarketInfoStatus_status id status results error (st : Store) row :
  store_marketInfo st !! id = Some row ->
  exists row',
    store_marketInfo (updateMarketInfoStatus stampAt id status results error st) !! id
    = Some row'
    /\ mi_processedStatus (mrow_info row') = status
    /\ mrow_processError row' = setIfTruthy error (mrow_processError row)
    /\ importanceScore row'
       = match results ≫= mar_importanceScore with
         | Some score => Some score
         | None => importanceScore row
         end
    /\ relatedProjectIds row'
       = match results ≫= mar_relatedProjectIds with
         | Some ids => Some ids
         | None => relatedProjectIds row
         end.
Proof.
  intros Hrow. cbn [updateMarketInfoStatus store_marketInfo].
  rewrite lookup_alter_eq, Hrow. eexists. split; [reflexivity|]. repeat split.
Qed.

Lemma updateProjectInfoStatus_status id status results error (st : Store) row :
  store_projectInfo st !! id = Some row ->
  exists row',
    store_projectInfo (updateProjectInfoStatus stampAt id status results error st) !! id
    = Some row'
    /\ pi_processedStatus (prow_info row') = status
    /\ prow_processError row' = setIfTruthy error (prow_processError row).
Proof.
  intros Hrow. cbn [updateProjectInfoStatus store_projectInfo].
  rewrite lookup_alter_eq, Hrow. eexists. split; [reflexivity|]. repeat split.
Qed.

End Processing.

Section Redelivery.
Import Js Types Bedrock Processor Pipeline Scheduler SpecMore.
Context `{JsEngine}.

Lemma processMarketInfo_skips stampAt invoke buildUserPrompt infoId (st : Store) :
  store_marketInfo st !! infoId = None
  \/ (exists row, store_marketInfo st !! infoId = Some row
                  /\ mi_processedStatus (mrow_info row) = "processed") ->
  processMarketInfo stampAt invoke buildUserPrompt infoId st = (Ok tt, st).
Proof.
  unfold processMarketInfo, getMarketInfo.
  intros [-> | (row & -> & Hp)]; [reflexivity|]. rewrite Hp. reflexivity.
Qed.

Lemma processProjectInfo_skips stampAt invoke buildUserPrompt infoId (st : Store) :
  store_projectInfo st !! infoId = None
  \/ (exists row, store_projectInfo st !! infoId = Some row
                  /\ pi_processedStatus (prow_info row) = "processed") ->
  processProjectInfo stampAt invoke buildUserPrompt infoId st = (Ok tt, st).
Proof.
  unfold processProjectInfo, getProjectInfo.
  intros [-> | (row & -> & Hp)]; [reflexivity|]. rewrite Hp. reflexivity.
Qed.

Lemma processMarketInfo_redelivered stampAt invoke buildUserPrompt
    stampAt' invoke' buildUserPrompt' infoId (st : Store) :
  (processMarketInfo stampAt invoke buildUserPrompt infoId st).1 = Ok tt ->
  processMarketInfo stampAt' invoke' buildUserPrompt' infoId
    (processMarketInfo stampAt invoke buildUserPrompt infoId st).2
  = (Ok tt, (processMarketInfo stampAt invoke buildUserPrompt infoId st).2).
Proof.
  intros Hok.
  destruct (processMarketInfo_cases stampAt invoke buildUserPrompt infoId st)
    as [[Hrun Hwhy] | (row & st1 & Hrow & Hpending & Hst1 & [(output & _ & Hrun)
                                                           | (e & _ & Hrun)])];
    rewrite Hrun in *; cbn [fst snd] in *; [| |discriminate].
  - apply processMarketInfo_skips, Hwhy.
  - apply processMarketInfo_skips. right.
    destruct (updateMarketInfoStatus_status stampAt infoId "processing" None None st row Hrow)
      as (row1 & Hrow1 & _).
    rewrite <- Hst1 in Hrow1.
    destruct (executeEach_frame stampAt (operations output) st1) as (_ & Hm & _).
    rewrite <- Hm in Hrow1.
    edestruct updateMarketInfoStatus_status as (row2 & Hrow2 & Hstatus & _);
      [exact Hrow1|].
    exists row2. split; [exact Hrow2 | exact Hstatus].
Qed.

Lemma processProjectInfo_redelivered stampAt invoke buildUserPrompt
    stampAt' invoke' buildUserPrompt' infoId (st : Store) :
  (processProjectInfo stampAt invoke buildUserPrompt infoId st).1 = Ok tt ->
  processProjectInfo stampAt' invoke' buildUserPrompt' infoId
    (processProjectInfo stampAt invoke buildUserPrompt infoId st).2
  = (Ok tt, (processProjectInfo stampAt invoke buildUserPrompt infoId st).2).
Proof.
  intros Hok.
  destruct (processProjectInfo_cases stampAt invoke buildUserPrompt infoId st)
    as [[Hrun Hwhy] | (row & st1 & Hrow & Hpending & Hst1 & [(output & _ & Hrun)
                                                           | (e & _ & Hrun)])];
    rewrite Hrun in *; cbn [fst snd] in *; [| |discriminate].
  - apply processProjectInfo_skips, Hwhy.
  - apply processProjectInfo_skips. right.
    destruct (updateProjectInfoStatus_status stampAt infoId "processing" None None st row
                Hrow) as (row1 & Hrow1 & _).
    rewrite <- Hst1 in Hrow1.
    destruct (executeEach_frame stampAt (operations output) st1) as (Hp & _ & _).
    rewrite <- Hp in Hrow1.
    edestruct updateProjectInfoStatus_status as (row2 & Hrow2 & Hstatus & _);
      [exact Hrow1|].
    exists row2. split; [exact Hrow2 | exact Hstatus].
Qed.



End Redelivery.

(** X21. A message that was processed without an exception can be delivered
    again, to any model, at any time: the second delivery changes nothing;
    it reads the record, finds it processed or missing, and stops.
    A message of an unknown type changes nothing either. *)
Theorem processInfo_redelivery_changes_nothing :
  forall (engine : Js.JsEngine)
         (stampAt stampAt' : nat -> Processor.Stamp)
         (invoke invoke' : list Bedrock.Message -> Result Bedrock.BedrockResponse)
         (buildUserPrompt buildUserPrompt' :
            string -> Types.Item -> list Processor.Project -> string)
         (message : Scheduler.SQSMessage) (st : Pipeline.Store),
    (Pipeline.processInfo stampAt invoke buildUserPrompt message st).1 = Ok tt ->
    let st' := (Pipeline.processInfo stampAt invoke buildUserPrompt message st).2 in
    Pipeline.processInfo stampAt' invoke' buildUserPrompt' message st' = (Ok tt, st').
Proof.
  intros engine stampAt stampAt' invoke invoke' buildUserPrompt buildUserPrompt'
    message st. unfold Pipeline.processInfo.
  destruct (String.eqb (Scheduler.msg_type message) "project_info").
  - apply processProjectInfo_redelivered.
  - destruct (String.eqb (Scheduler.msg_type message) "market_info"); [|reflexivity].
    apply processMarketInfo_redelivered.
Qed.

Lemma processInfo_redelivery_changes_nothing_witness :
  let st' :=
    (Pipeline.processInfo SamplesMore.atNoon Samples.reportsAndEnds SamplesMore.fixedPrompt
       SamplesMore.exploitMessage SamplesMore.agentStore).2 in
  Pipeline.processInfo SamplesMore.atNoon Samples.neverReports SamplesMore.fixedPrompt
    SamplesMore.exploitMessage st'
  = (Ok tt, st').
Proof.
  apply (processInfo_redelivery_changes_nothing Reference.engine).
  unfold Pipeline.processInfo. cbn [Scheduler.msg_type SamplesMore.exploitMessage].
  change (String.eqb "market_info" "project_info") with false.
  change (String.eqb "market_info" "market_info") with true. cbn iota.
  unfold Pipeline.processMarketInfo, Pipeline.getMarketInfo.
  cbn [Scheduler.infoId SamplesMore.exploitMessage Pipeline.store_marketInfo
       SamplesMore.agentStore].
  rewrite lookup_singleton_eq. reflexivity.
Defined.



Section Outcome.
Import Js Types Bedrock Processor Pipeline Scheduler SpecMore.
Context `{JsEngine}.

Lemma calculateImportanceScore_at_least_50 output :
  50 <= calculateImportanceScore output <= 100.
Proof.
  unfold calculateImportanceScore.
  destruct (identifiedProjects (analysis output));
    repeat case_bool_decide; lia.
Qed.

Lemma relatedIds_elem identified id :
  id ∈ relatedIds identified
  <-> exists projects p,
        identified = Some projects /\ p ∈ projects
        /\ ip_entityId p = Some id /\ id <> ""
        /\ (7 # 10 < ip_confidence p)%Q.
Proof.
  unfold relatedIds. destruct identified as [projects|].
  - rewrite list_elem_of_omap. split.
    + intros (p & Hin & Hp). exists projects, p. split; [reflexivity|]. split; [exact Hin|].
      unfold RssCollector.nonEmpty in Hp.
      destruct (ip_entityId p) as [entityId|]; [|discriminate].
      destruct (String.eqb_spec entityId ""); [discriminate|].
      destruct (Qle_bool (ip_confidence p) (7 # 10)) eqn:Hle; [discriminate|].
      injection Hp as <-. split; [reflexivity|]. split; [assumption|].
      apply Qnot_le_lt. intros Hq. apply Qle_bool_iff in Hq. congruence.
    + intros (projects' & p & [= <-] & Hin & Hid & Hne & Hlt).
      exists p. split; [exact Hin|]. unfold RssCollector.nonEmpty. rewrite Hid.
      apply String.eqb_neq in Hne. rewrite Hne.
      destruct (Qle_bool (ip_confidence p) (7 # 10)) eqn:Hle; [|reflexivity].
      apply Qle_bool_iff in Hle. apply Qlt_not_le in Hlt. contradiction.
  - split; [intros Hin; apply elem_of_nil in Hin; contradiction|].
    intros (projects & p & Hnone & _). discriminate.
Qed.

Lemma processMarketInfo_processed stampAt invoke buildUserPrompt infoId (st : Store)
    row output :
  store_marketInfo st !! infoId = Some row ->
  mi_processedStatus (mrow_info row) <> "processed" ->
  analyzeMarketInfo invoke buildUserPrompt (mrow_info row)
    (getExistingProjectsSummary (store_projects st)) = Ok output ->
  let st' := (processMarketInfo stampAt invoke buildUserPrompt infoId st).2 in
  (processMarketInfo stampAt invoke buildUserPrompt infoId st).1 = Ok tt
  /\ store_projects st'
     = executeOperations (stamped stampAt (S (readings st)) (operations output))
         (store_projects st)
  /\ store_projectInfo st' = store_projectInfo st
  /\ (exists row',
        store_marketInfo st' !! infoId = Some row'
        /\ mi_processedStatus (mrow_info row') = "processed"
        /\ importanceScore row' = Some (calculateImportanceScore output)
        /\ relatedProjectIds row'
           = Some (relatedIds (identifiedProjects (analysis output))))
  /\ (forall j, j <> infoId -> store_marketInfo st' !! j = store_marketInfo st !! j).
Proof.
  intros Hrow Hpending Hout.
  destruct (processMarketInfo_cases stampAt invoke buildUserPrompt infoId st)
    as [[Hrun [Hnone | (row0 & Hrow0 & Hp)]]
       | (row0 & st1 & Hrow0 & _ & Hst1 & Hcase)];
    [congruence | congruence |].
  assert (row0 = row) as -> by congruence.
  assert (Hprojects1 : store_projects st1 = store_projects st) by (subst st1; reflexivity).
  rewrite Hprojects1, Hout in Hcase.
  destruct Hcase as [(output' & [= <-] & Hrun) | (e & Habs & _)]; [|discriminate].
  rewrite Hrun. cbn [fst snd].
  destruct (executeEach_frame stampAt (operations output) st1) as (Hp & Hm & Ht).
  split; [reflexivity|]. split; [|split; [|split]].
  - cbn [updateMarketInfoStatus store_projects]. rewrite Ht. subst st1. reflexivity.
  - cbn [updateMarketInfoStatus store_projectInfo]. rewrite Hp. subst st1. reflexivity.
  - destruct (updateMarketInfoStatus_status stampAt infoId "processing" None None st row Hrow)
      as (row1 & Hrow1 & _).
    rewrite <- Hst1, <- Hm in Hrow1.
    edestruct updateMarketInfoStatus_status as (row2 & Hrow2 & Hstatus & _ & Hscore & Hids);
      [exact Hrow1|].
    exists row2. split; [exact Hrow2|]. split; [exact Hstatus|].
    split; [exact Hscore | exact Hids].
  - intros j Hj. cbn [updateMarketInfoStatus store_marketInfo].
    rewrite lookup_alter_ne by congruence. rewrite Hm. subst st1.
    cbn [updateMarketInfoStatus store_marketInfo]. apply lookup_alter_ne. congruence.
Qed.

End Outcome.

(** X23. A news item that is analysed is marked processed, with an importance
    score between 50 and 100 and, as related projects, the entity ids the
    model identified with a confidence above 0.7; the entities are what
    the operations of the analysis make of them, executed in order after
    the whole conversation; no other record is touched. *)
Theorem processMarketInfo_records_the_analysis :
  forall (engine : Js.JsEngine) (stampAt : nat -> Processor.Stamp)
         (invoke : list Bedrock.Message -> Result Bedrock.BedrockResponse)
         (buildUserPrompt : string -> Types.Item -> list Processor.Project -> string)
         (infoId : string) (st : Pipeline.Store) (row : Pipeline.MarketInfoRow)
         (output : Bedrock.AIAgentOutput),
    Pipeline.store_marketInfo st !! infoId = Some row ->
    Types.mi_processedStatus (Pipeline.mrow_info row) <> "processed" ->
    Pipeline.analyzeMarketInfo invoke buildUserPrompt (Pipeline.mrow_info row)
      (Pipeline.getExistingProjectsSummary (Pipeline.store_projects st)) = Ok output ->
    let run := Pipeline.processMarketInfo stampAt invoke buildUserPrompt infoId st in
    run.1 = Ok tt
    /\ Pipeline.store_projects run.2
       = Processor.executeOperations
           (SpecMore.stamped stampAt (S (Pipeline.readings st)) (Bedrock.operations output))
           (Pipeline.store_projects st)
    /\ Pipeline.store_projectInfo run.2 = Pipeline.store_projectInfo st
    /\ (forall j, j <> infoId ->
          Pipeline.store_marketInfo run.2 !! j = Pipeline.store_marketInfo st !! j)
    /\ exists row' score ids,
         Pipeline.store_marketInfo run.2 !! infoId = Some row'
         /\ Types.mi_processedStatus (Pipeline.mrow_info row') = "processed"
         /\ Pipeline.importanceScore row' = Some score
         /\ score = Processor.calculateImportanceScore output
         /\ 50 <= score <= 100
         /\ Pipeline.relatedProjectIds row' = Some ids
         /\ (forall id, id ∈ ids
               <-> exists projects p,
                     Bedrock.identifiedProjects (Bedrock.analysis output) = Some projects
                     /\ p ∈ projects
                     /\ Bedrock.ip_entityId p = Some id /\ id <> ""
                     /\ (7 # 10 < Bedrock.ip_confidence p)%Q).
Proof.
  intros engine stampAt invoke buildUserPrompt infoId st row output Hrow Hpending Hout run.
  subst run.
  destruct (processMarketInfo_processed stampAt invoke buildUserPrompt infoId st row output
              Hrow Hpending Hout)
    as (Hok & Hprojects & Hinfo & (row' & Hrow' & Hstatus & Hscore & Hids) & Hother).
  split; [exact Hok|]. split; [exact Hprojects|]. split; [exact Hinfo|].
  split; [exact Hother|].
  exists row', (Processor.calculateImportanceScore output),
    (Pipeline.relatedIds (Bedrock.identifiedProjects (Bedrock.analysis output))).
  split; [exact Hrow'|]. split; [exact Hstatus|]. split; [exact Hscore|].
  split; [reflexivity|]. split; [apply calculateImportanceScore_at_least_50|].
  split; [exact Hids|]. intros id. apply relatedIds_elem.
Qed.

Lemma processMarketInfo_records_the_analysis_witness :
  (Pipeline.processMarketInfo SamplesMore.atNoon Samples.reportsAndEnds
     SamplesMore.fixedPrompt "coindesk-1x2y3z" SamplesMore.agentStore).1 = Ok tt.
Proof.
  refine (proj1 (processMarketInfo_records_the_analysis Reference.engine SamplesMore.atNoon
                   Samples.reportsAndEnds SamplesMore.fixedPrompt "coindesk-1x2y3z"
                   SamplesMore.agentStore _
                   {| Bedrock.operations :=
                        [Bedrock.add_risk_flag "acme" Samples.sampleFlag];
                      Bedrock.analysis := Spec.reportedAnalysis Samples.sampleReport;
                      Bedrock.reasoning := "exploit" |}
                   (lookup_singleton_eq _ _) _ eq_refl)).
  discriminate.
Defined.

Section Entity.
Import Js Types Bedrock Processor Pipeline Scheduler SpecMore.
Context `{JsEngine}.

Lemma createdIds_cons operation ops :
  createdIds (operation :: ops)
  = match operation with
    | create entity =>
        match RssCollector.nonEmpty (Some (entity_id entity)) with
        | Some id => id :: createdIds ops
        | None => createdIds ops
        end
    | _ => createdIds ops
    end.
Proof. destruct operation; reflexivity. Qed.

Lemma executeTracking_entityId stampAt ops entityId (st : Store) :
  (executeTracking stampAt ops entityId st).1
  = match last (createdIds ops) with
    | Some id => Some id
    | None => entityId
    end.
Proof.
  revert entityId st. induction ops as [|operation ops IH]; intros entityId st;
    [reflexivity|].
  cbn [executeTracking]. unfold execute.
  destruct (executeOperation (stampAt (readings st)) operation (store_projects st))
    as [result table] eqn:Hop.
  rewrite IH, createdIds_cons.
  destruct operation as [entity|entityId0 updates reason|entityId0 event
                        |entityId0 flag|entityId0 flag]; cbn [operationType];
    try (cbn; reflexivity).
  assert (Hresult : result = Some (entity_id entity)).
  { cbn [executeOperation] in Hop.
    destruct (getProject (store_projects st) (entity_id entity)); injection Hop as <- _;
      reflexivity. }
  subst result. change (String.eqb "create" "create") with true. cbn [andb].
  destruct (RssCollector.nonEmpty (Some (entity_id entity))) as [id|] eqn:Hid.
  - rewrite bool_decide_eq_true_2 by (eexists; reflexivity).
    assert (id = entity_id entity) as ->.
    { cbn in Hid. destruct (String.eqb (entity_id entity) ""); congruence. }
    rewrite last_cons. destruct (last (createdIds ops)); reflexivity.
  - rewrite bool_decide_eq_false_2 by (intros [x Hx]; discriminate). reflexivity.
Qed.

Lemma processProjectInfo_processed stampAt invoke buildUserPrompt infoId (st : Store)
    row output :
  store_projectInfo st !! infoId = Some row ->
  pi_processedStatus (prow_info row) <> "processed" ->
  analyzeProjectInfo invoke buildUserPrompt (prow_info row)
    (getExistingProjectsSummary (store_projects st)) = Ok output ->
  let st' := (processProjectInfo stampAt invoke buildUserPrompt infoId st).2 in
  (processProjectInfo stampAt invoke buildUserPrompt infoId st).1 = Ok tt
  /\ store_projects st'
     = executeOperations (stamped stampAt (S (readings st)) (operations output))
         (store_projects st)
  /\ store_marketInfo st' = store_marketInfo st
  /\ (exists row',
        store_projectInfo st' !! infoId = Some row'
        /\ pi_processedStatus (prow_info row') = "processed"
        /\ projectEntityId row'
           = match last (createdIds (operations output)) with
             | Some id => Some id
             | None => projectEntityId row
             end)
  /\ (forall j, j <> infoId -> store_projectInfo st' !! j = store_projectInfo st !! j).
Proof.
  intros Hrow Hpending Hout.
  destruct (processProjectInfo_cases stampAt invoke buildUserPrompt infoId st)
    as [[Hrun [Hnone | (row0 & Hrow0 & Hp)]]
       | (row0 & st1 & Hrow0 & _ & Hst1 & Hcase)];
    [congruence | congruence |].
  assert (row0 = row) as -> by congruence.
  assert (Hprojects1 : store_projects st1 = store_projects st) by (subst st1; reflexivity).
  rewrite Hprojects1, Hout in Hcase.
  destruct Hcase as [(output' & [= <-] & Hrun) | (e & Habs & _)]; [|discriminate].
  rewrite Hrun. cbn [fst snd].
  destruct (executeEach_frame stampAt (operations output) st1) as (Hp & Hm & Ht).
  split; [reflexivity|]. split; [|split; [|split]].
  - cbn [updateProjectInfoStatus store_projects]. rewrite Ht. subst st1. reflexivity.
  - cbn [updateProjectInfoStatus store_marketInfo]. rewrite Hm. subst st1. reflexivity.
  - rewrite executeTracking_entityId.
    cbn [updateProjectInfoStatus store_projectInfo]. rewrite Hp. subst st1.
    cbn [updateProjectInfoStatus store_projectInfo].
    rewrite lookup_alter_eq, lookup_alter_eq, Hrow. eexists. split; [reflexivity|].
    split; [reflexivity|]. cbn.
    destruct (last (createdIds (operations output))) as [id|] eqn:Hlast; [|reflexivity].
    assert (Hne : id <> "").
    { apply last_Some_elem_of in Hlast. unfold createdIds in Hlast.
      apply list_elem_of_omap in Hlast as (operation & _ & Hid).
      destruct operation; try discriminate. cbn in Hid.
      destruct (String.eqb_spec (entity_id entity) ""); congruence. }
    unfold setIfTruthy. cbn. apply String.eqb_neq in Hne. rewrite Hne. reflexivity.
  - intros j Hj. cbn [updateProjectInfoStatus store_projectInfo].
    rewrite lookup_alter_ne by congruence. rewrite Hp. subst st1.
    cbn [updateProjectInfoStatus store_projectInfo]. apply lookup_alter_ne. congruence.
Qed.

End Entity.

(** X24. A project record that is analysed is marked processed; the entity it
    is linked to is the one of the last [create] operation of the
    analysis that has an id, whether that entity was new or not; an
    analysis that only updates entities links none, and the link the
    record had stays.  The entities are what the operations make of them,
    and no other record is touched. *)
Theorem processProjectInfo_links_the_created_entity :
  forall (engine : Js.JsEngine) (stampAt : nat -> Processor.Stamp)
         (invoke : list Bedrock.Message -> Result Bedrock.BedrockResponse)
         (buildUserPrompt : string -> Types.Item -> list Processor.Project -> string)
         (infoId : string) (st : Pipeline.Store) (row : Pipeline.ProjectInfoRow)
         (output : Bedrock.AIAgentOutput),
    Pipeline.store_projectInfo st !! infoId = Some row ->
    Types.pi_processedStatus (Pipeline.prow_info row) <> "processed" ->
    Pipeline.analyzeProjectInfo invoke buildUserPrompt (Pipeline.prow_info row)
      (Pipeline.getExistingProjectsSummary (Pipeline.store_projects st)) = Ok output ->
    let run := Pipeline.processProjectInfo stampAt invoke buildUserPrompt infoId st in
    run.1 = Ok tt
    /\ Pipeline.store_projects run.2
       = Processor.executeOperations
           (SpecMore.stamped stampAt (S (Pipeline.readings st)) (Bedrock.operations output))
           (Pipeline.store_projects st)
    /\ Pipeline.store_marketInfo run.2 = Pipeline.store_marketInfo st
    /\ (exists row',
          Pipeline.store_projectInfo run.2 !! infoId = Some row'
          /\ Types.pi_processedStatus (Pipeline.prow_info row') = "processed"
          /\ Pipeline.projectEntityId row'
             = match last (SpecMore.createdIds (Bedrock.operations output)) with
               | Some id => Some id
               | None => Pipeline.projectEntityId row
               end)
    /\ (forall j, j <> infoId ->
          Pipeline.store_projectInfo run.2 !! j = Pipeline.store_projectInfo st !! j).
Proof.
  intros engine stampAt invoke buildUserPrompt infoId st row output Hrow Hpending Hout.
  exact (processProjectInfo_processed stampAt invoke buildUserPrompt infoId st row output
           Hrow Hpending Hout).
Qed.

Lemma processProjectInfo_links_the_created_entity_witness :
  (Pipeline.processProjectInfo SamplesMore.atNoon Samples.reportsAndEnds
     SamplesMore.fixedPrompt "defillama:alpha" SamplesMore.agentStore).1 = Ok tt.
Proof.
  refine (proj1 (processProjectInfo_links_the_created_entity Reference.engine
                   SamplesMore.atNoon Samples.reportsAndEnds SamplesMore.fixedPrompt
                   "defillama:alpha" SamplesMore.agentStore _
                   {| Bedrock.operations :=
                        [Bedrock.add_risk_flag "acme" Samples.sampleFlag];
                      Bedrock.analysis := Spec.reportedAnalysis Samples.sampleReport;
                      Bedrock.reasoning := "exploit" |}
                   (lookup_singleton_eq _ _) _ eq_refl)).
  discriminate.
Defined.

(** ** Collecting one source on request (collector/scheduler.ts) *)

Section OnRequest.
Import Js Types Outside SourceConfigService Scheduler SchedulerMore SpecMore.
Context `{JsEngine}.
Variable rssCollector restApiCollector : Collector.

Lemma handleSingleSourceCollection_stored env E id w (st : State) sourceConfig :
  id <> "" ->
  sourceConfigTable st !! id = Some sourceConfig ->
  handleSingleSourceCollection rssCollector restApiCollector env E (Some id) w st
  = let run := collectFromSource rssCollector restApiCollector env E sourceConfig w st in
    (if bool_decide (is_Some (RssCollector.nonEmpty (summary_error run.1.1)))
     then 500 else 200, run.1.2, run.2).
Proof.
  intros Hid Hstored. unfold handleSingleSourceCollection, getSourceConfig.
  cbn [RssCollector.nonEmpty]. apply String.eqb_neq in Hid. rewrite Hid, Hstored.
  destruct (collectFromSource rssCollector restApiCollector env E sourceConfig w st)
    as [[result w'] st']. reflexivity.
Qed.

End OnRequest.

(** X25. A collection on request answers 400 without an id and 404 for an id
    that is not stored, and changes nothing then.  For a stored source it
    collects whether the source is enabled or not and whether it is due or
    not; the run is recorded as a scheduled one is, so that the source is
    next due an interval later; the answer is 500 exactly when the run
    reports an error message that is not empty, and 200 otherwise. *)
Theorem handleSingleSourceCollection_ignores_schedule :
  forall (engine : Js.JsEngine) (rssCollector restApiCollector : Scheduler.Collector)
         (env : Scheduler.ProcessEnv) (E : Outside.Env) (w : Outside.World)
         (st : Scheduler.State),
    SchedulerMore.handleSingleSourceCollection rssCollector restApiCollector env E None w st
    = (400, w, st)
    /\ SchedulerMore.handleSingleSourceCollection rssCollector restApiCollector env E
         (Some "") w st = (400, w, st)
    /\ (forall id,
          id <> "" -> Scheduler.sourceConfigTable st !! id = None ->
          SchedulerMore.handleSingleSourceCollection rssCollector restApiCollector env E
            (Some id) w st = (404, w, st))
    /\ (forall id sourceConfig collector,
          id <> "" ->
          Scheduler.sourceConfigTable st !! id = Some sourceConfig ->
          Types.sc_id sourceConfig = id ->
          Scheduler.getCollector rssCollector restApiCollector
            (Types.collectorType sourceConfig) = Some collector ->
          let result := (collector E sourceConfig w).1 in
          let now := Outside.clock E (Outside.ticks (collector E sourceConfig w).2) in
          let answer :=
            SchedulerMore.handleSingleSourceCollection rssCollector restApiCollector
              env E (Some id) w st in
          (answer.1.1 = 500
           <-> Types.success result = false
               /\ exists message, Types.cr_error result = Some message /\ message <> "")
          /\ (answer.1.1 = 200 \/ answer.1.1 = 500)
          /\ exists stored',
               Scheduler.sourceConfigTable answer.2 !! id = Some stored'
               /\ Types.lastCollectedAt stored' = Some now
               /\ (forall t, SourceConfigService.shouldCollect t stored' = true
                             <-> Types.enabled sourceConfig = true
                                 /\ Types.intervalMinutes sourceConfig * 60000 <= t - now)).
Proof.
  intros engine rssCollector restApiCollector env E w st.
  split; [reflexivity|]. split; [reflexivity|]. split.
  - intros id Hid Hnone. unfold SchedulerMore.handleSingleSourceCollection,
      SourceConfigService.getSourceConfig. cbn [RssCollector.nonEmpty].
    apply String.eqb_neq in Hid. rewrite Hid, Hnone. reflexivity.
  - intros id sourceConfig collector Hid Hstored Hkey Hcollector result now answer.
    subst answer.
    rewrite (handleSingleSourceCollection_stored rssCollector restApiCollector env E id w
               st sourceConfig Hid Hstored).
    cbn [fst snd]. rewrite <- Hkey in Hstored.
    destruct (collectFromSource_supported rssCollector restApiCollector env E sourceConfig
                w st collector sourceConfig Hstored Hcollector)
      as (stored' & Hstored' & Hlast & _ & Hdue & _ & _ & _ & Hfailed & Hsucceeded).
    fold result in Hfailed, Hsucceeded. fold now in Hlast, Hdue.
    set (run := Scheduler.collectFromSource rssCollector restApiCollector env E
                  sourceConfig w st) in *.
    split; [|split].
    + destruct (Types.success result) eqn:Hsuccess.
      * destruct (Hsucceeded eq_refl) as (_ & Herror & _). rewrite Herror.
        cbn [RssCollector.nonEmpty].
        rewrite bool_decide_eq_false_2 by (intros [x Hx]; discriminate).
        split; [discriminate | intros [Habs _]; discriminate].
      * destruct (Hfailed eq_refl) as (_ & Herror & _). rewrite Herror.
        destruct (Types.cr_error result) as [message|]; cbn [RssCollector.nonEmpty].
        -- destruct (String.eqb_spec message "") as [->|Hne].
           ++ rewrite bool_decide_eq_false_2 by (intros [x Hx]; discriminate).
              split; [discriminate|]. intros [_ (m & [= <-] & Hm)]. congruence.
           ++ rewrite bool_decide_eq_true_2 by (eexists; reflexivity).
              split; [|reflexivity]. intros _. split; [reflexivity|].
              exists message. auto.
        -- rewrite bool_decide_eq_false_2 by (intros [x Hx]; discriminate).
           split; [discriminate|]. intros [_ (m & Hm & _)]. discriminate.
    + destruct (bool_decide _); auto.
    + exists stored'. rewrite <- Hkey. auto.
Qed.

(** X26. The projects the model is told about are the stored entities whose
    category is one of the ten of the list; an entity of another category
    (the model names the category of an entity it creates) is never among
    them. *)
Theorem getExistingProjectsSummary_known_categories :
  forall (table : gmap string Processor.Project) (p : Processor.Project),
    p ∈ Pipeline.getExistingProjectsSummary table
    <-> (exists id, table !! id = Some p)
        /\ Processor.project_category p ∈ Pipeline.categories.
Proof.
  intros table p. unfold Pipeline.getExistingProjectsSummary.
  rewrite list_elem_of_In, in_concat. split.
  - intros (l & Hl & Hp). apply list_elem_of_In in Hl, Hp.
    apply list_elem_of_fmap in Hl as (category & -> & Hcat).
    unfold Pipeline.getProjectsByCategory in Hp.
    apply list_elem_of_filter in Hp as [Heq Hin].
    apply list_elem_of_fmap in Hin as ([id q] & -> & Hin).
    apply elem_of_map_to_list in Hin. cbn [snd] in *.
    split; [exists id; exact Hin|]. rewrite Heq. exact Hcat.
  - intros [(id & Hid) Hcat].
    exists (Pipeline.getProjectsByCategory table (Processor.project_category p)).
    rewrite <- !list_elem_of_In. split.
    + apply list_elem_of_fmap. eexists. split; [reflexivity | exact Hcat].
    + unfold Pipeline.getProjectsByCategory. apply list_elem_of_filter.
      split; [reflexivity|]. apply list_elem_of_fmap. exists (id, p).
      split; [reflexivity|]. apply elem_of_map_to_list. exact Hid.
Qed.

(** ** Sorting and filtering projects (shared/src/utils) *)

Section Listing.
Import Scheduler.
Context {A : Type} (key : A -> Z) (keep : A -> bool).

Lemma insertBy_below x l :
  Forall (fun z => key x < key z) l -> insertBy key x l = x :: l.
Proof.
  destruct 1 as [|z l Hz _]; cbn [insertBy]; [reflexivity|].
  apply Z.ltb_lt in Hz. rewrite Hz. reflexivity.
Qed.

(** On a sorted list, filtering after an insertion is inserting after the
    filtering. *)
Lemma filter_insertBy x l :
  StronglySorted (fun a b => key a <= key b) l ->
  List.filter keep (insertBy key x l)
  = if keep x then insertBy key x (List.filter keep l) else List.filter keep l.
Proof.
  induction 1 as [|y l Hsorted IH Hy]; cbn [insertBy List.filter].
  - destruct (keep x); reflexivity.
  - destruct (key x <? key y) eqn:Hlt; cbn [List.filter].
    + apply Z.ltb_lt in Hlt. destruct (keep x); [|reflexivity].
      symmetry. apply insertBy_below. apply List.Forall_forall. intros z Hz.
      assert (Hin : In z (y :: l)).
      { destruct (keep y); [|right; eapply filter_In, Hz].
        destruct Hz as [<- | Hz]; [left; reflexivity | right; eapply filter_In, Hz]. }
      destruct Hin as [<- | Hin]; [exact Hlt|].
      rewrite List.Forall_forall in Hy. specialize (Hy z Hin). cbn in Hy. lia.
    + rewrite IH. destruct (keep x), (keep y); cbn [insertBy]; rewrite ?Hlt; reflexivity.
Qed.

Lemma filter_fold_insertBy l acc :
  StronglySorted (fun a b => key a <= key b) acc ->
  List.filter keep (fold_left (fun sorted x => insertBy key x sorted) l acc)
  = fold_left (fun sorted x => insertBy key x sorted) (List.filter keep l)
      (List.filter keep acc).
Proof.
  revert acc. induction l as [|x l IH]; intros acc Hacc; [reflexivity|].
  cbn [fold_left List.filter]. rewrite IH by (apply insertBy_sorted, Hacc).
  rewrite (filter_insertBy x acc Hacc). destruct (keep x); reflexivity.
Qed.

Lemma filter_sortBy l : List.filter keep (sortBy key l) = sortBy key (List.filter keep l).
Proof. unfold sortBy. rewrite filter_fold_insertBy by constructor. reflexivity. Qed.

Lemma StronglySorted_weaken (R R' : A -> A -> Prop) l :
  (forall a b, R a b -> R' a b) -> StronglySorted R l -> StronglySorted R' l.
Proof.
  intros Himpl. induction 1 as [|y l Hsorted IH Hy]; constructor; [exact IH|].
  eapply List.Forall_impl; [|exact Hy]. apply Himpl.
Qed.

End Listing.

(** X27. [sortByHealthScore] gives the projects it is given, each as often,
    in descending order of health score, or ascending on request; and it
    does not matter whether a list of projects is filtered by category
    before it is sorted or after. *)
Theorem sortByHealthScore_sorts_and_commutes_with_filter :
  forall (projects : list Processor.Project) (ascending : bool) (categories : list string),
    Permutation (SharedMore.sortByHealthScore projects ascending) projects
    /\ StronglySorted
         (fun a b =>
            if ascending then Processor.healthScore a <= Processor.healthScore b
            else Processor.healthScore b <= Processor.healthScore a)
         (SharedMore.sortByHealthScore projects ascending)
    /\ SharedMore.filterByCategory (SharedMore.sortByHealthScore projects ascending)
         categories
       = SharedMore.sortByHealthScore (SharedMore.filterByCategory projects categories)
           ascending.
Proof.
  intros projects ascending categories. unfold SharedMore.sortByHealthScore.
  split; [apply sortBy_perm|]. split.
  - eapply StronglySorted_weaken; [|apply sortBy_sorted].
    intros a b. cbn beta. destruct ascending; lia.
  - destruct categories as [|category categories]; [reflexivity|].
    cbn [SharedMore.filterByCategory]. apply filter_sortBy.
Qed.
